(** * Check verification and idempotent ledger writes

    A shallow embedding of [src/app/api/check-verification/route.ts] (the
    field extraction engine and the [POST] handler) and of the transaction
    helpers [findExistingTransaction] and [createApprovedTransaction].

    Conventions.
    - A JavaScript string is a [string]: its characters are the code units of
      the JS string, below 256.
    - A JavaScript number that comes from recognition output is only ever
      observed through [typeof], [String(v)] and truthiness, so it is
      represented by its [String(v)] rendering (see [JNum]).
    - The double-precision arithmetic of the amount canonicalizer is the
      binary64 instance of the standard library's [SpecFloat]. *)

From Stdlib Require Import List String Ascii ZArith Lia Bool Arith.
From Stdlib Require Import Floats.SpecFloat.
Import ListNotations.

Open Scope string_scope.
Open Scope list_scope.

(* ================================================================== *)
(** * Characters and strings *)
(* ================================================================== *)

Module Js.

Definition code (c : ascii) : nat := nat_of_ascii c.

(** [\d] and [[0-9]]. *)
Definition is_digit (c : ascii) : bool :=
  (48 <=? code c)%nat && (code c <=? 57)%nat.

(** [\s] on code units below 256: TAB, LF, VT, FF, CR, SPACE, NBSP. *)
Definition is_space (c : ascii) : bool :=
  let n := code c in
  ((9 <=? n)%nat && (n <=? 13)%nat) || (n =? 32)%nat || (n =? 160)%nat.

Definition is_upper (c : ascii) : bool :=
  (65 <=? code c)%nat && (code c <=? 90)%nat.

Definition is_lower (c : ascii) : bool :=
  (97 <=? code c)%nat && (code c <=? 122)%nat.

(** [String.prototype.toLowerCase] on one code unit below 256: the ASCII
    capitals and the Latin-1 capitals U+00C0..U+00DE (not U+00D7). *)
Definition lower_char (c : ascii) : ascii :=
  let n := code c in
  if is_upper c then ascii_of_nat (n + 32)
  else if (192 <=? n)%nat && (n <=? 222)%nat && negb (n =? 215)%nat
       then ascii_of_nat (n + 32)
       else c.

Fixpoint map_chars (f : ascii -> ascii) (s : string) : string :=
  match s with
  | EmptyString => EmptyString
  | String c s' => String (f c) (map_chars f s')
  end.

Fixpoint filter_chars (p : ascii -> bool) (s : string) : string :=
  match s with
  | EmptyString => EmptyString
  | String c s' => if p c then String c (filter_chars p s') else filter_chars p s'
  end.

Fixpoint forall_chars (p : ascii -> bool) (s : string) : bool :=
  match s with
  | EmptyString => true
  | String c s' => p c && forall_chars p s'
  end.

Definition toLowerCase (s : string) : string := map_chars lower_char s.

(** [s.replace(/[cls]/g, by)] for a one-character replacement. *)
Definition replace_class (cls : ascii -> bool) (by_ : ascii) (s : string) : string :=
  map_chars (fun c => if cls c then by_ else c) s.

(** [s.replace(/[cls]/g, "")]. *)
Definition remove_class (cls : ascii -> bool) (s : string) : string :=
  filter_chars (fun c => negb (cls c)) s.

(** [parts.join(sep)]. *)
Definition join (sep : string) (parts : list string) : string :=
  String.concat sep parts.

(** Truthiness of a string: non-empty. *)
Definition nonempty (s : string) : bool :=
  match s with EmptyString => false | _ => true end.

(** [s.slice(0, -k)] and [s.slice(-k)]. *)
Definition slice_drop_last (k : nat) (s : string) : string :=
  substring 0 (String.length s - k) s.

Definition slice_last (k : nat) (s : string) : string :=
  substring (String.length s - k) k s.

(** Value of a string of decimal digits, most significant first. *)
Fixpoint digits_value_from (acc : Z) (s : string) : Z :=
  match s with
  | EmptyString => acc
  | String c s' => digits_value_from (10 * acc + Z.of_nat (code c - 48)) s'
  end.

Definition digits_value (s : string) : Z := digits_value_from 0 s.

Definition digit_char (d : Z) : ascii := ascii_of_nat (48 + Z.to_nat d).

(** Decimal rendering of a non-negative integer, no leading zeros: what
    [String(v)] gives for an integer below 10^21. *)
Fixpoint render_nat_fuel (fuel : nat) (n : Z) (acc : string) : string :=
  match fuel with
  | O => acc
  | S fuel' =>
      let acc' := String (digit_char (n mod 10)) acc in
      if (n / 10 =? 0)%Z then acc' else render_nat_fuel fuel' (n / 10) acc'
  end.

Definition render_nat (n : Z) : string :=
  render_nat_fuel (S (Z.to_nat (Z.log2 n))) n EmptyString.

(** The first [n] characters of [s] are digits; some [n] characters in a
    row of [s] are digits. *)
Fixpoint starts_with_digits (n : nat) (s : string) : bool :=
  match n with
  | O => true
  | S n' =>
      match s with
      | String c s' => is_digit c && starts_with_digits n' s'
      | EmptyString => false
      end
  end.

Fixpoint has_digit_run (n : nat) (s : string) : bool :=
  starts_with_digits n s
  || match s with
     | String _ s' => has_digit_run n s'
     | EmptyString => false
     end.

(** [s.split(/\s+/)]: the pieces between maximal runs of white space; a
    leading or trailing run leaves an empty piece. *)
Fixpoint split_ws_from (cur : string) (in_gap : bool) (s : string) : list string :=
  match s with
  | EmptyString => [cur]
  | String c s' =>
      if is_space c
      then if in_gap then split_ws_from cur true s'
           else cur :: split_ws_from EmptyString true s'
      else split_ws_from (cur ++ String c EmptyString) false s'
  end.

Definition split_ws (s : string) : list string := split_ws_from EmptyString false s.

End Js.

(* ================================================================== *)
(** * Regular expressions *)
(* ================================================================== *)

(** The fragment of JavaScript regular expressions that the route uses:
    character classes, sequence, ordered alternation, greedy repetition and
    one capture group.  Matching is the backtracking search of the language:
    alternatives are tried left to right, a repetition tries one more
    iteration before it tries to stop, and the first success wins. *)
Module Regex.

Inductive regex : Type :=
| Chr (cls : ascii -> bool)
| Eps
| Seq (r1 r2 : regex)
| Alt (r1 r2 : regex)
| Star (r : regex)
| Group (r : regex).

Definition Opt (r : regex) : regex := Alt r Eps.

(** [r{n}] *)
Fixpoint Rep (n : nat) (r : regex) : regex :=
  match n with
  | O => Eps
  | S n' => Seq r (Rep n' r)
  end.

(** [r{0,n}], greedy. *)
Fixpoint UpTo (n : nat) (r : regex) : regex :=
  match n with
  | O => Eps
  | S n' => Opt (Seq r (UpTo n' r))
  end.

(** [r{lo,hi}] *)
Definition Range (lo hi : nat) (r : regex) : regex :=
  Seq (Rep lo r) (UpTo (hi - lo) r).

(** [r{n,}] *)
Definition AtLeast (n : nat) (r : regex) : regex := Seq (Rep n r) (Star r).

(** A literal character, and the same under the [i] flag. *)
Definition Lit (c : ascii) : regex := Chr (Ascii.eqb c).

Definition LitI (c : ascii) : regex :=
  Chr (fun d => Ascii.eqb (Js.lower_char d) (Js.lower_char c)).

Fixpoint Word (lit : ascii -> regex) (s : string) : regex :=
  match s with
  | EmptyString => Eps
  | String c s' => Seq (lit c) (Word lit s')
  end.

(** The text consumed between input [s] and its suffix [rest]. *)
Definition consumed (s rest : string) : string :=
  substring 0 (String.length s - String.length rest) s.

Section Matcher.
Context {A : Type}.

(** [run r s cap k]: match [r] at the start of [s], then continue with
    [k] on the rest and on the text of the capture group. *)
Fixpoint run (r : regex) (s : string) (cap : option string)
         (k : string -> option string -> option A) {struct r} : option A :=
  match r with
  | Chr cls =>
      match s with
      | String c s' => if cls c then k s' cap else None
      | EmptyString => None
      end
  | Eps => k s cap
  | Seq r1 r2 => run r1 s cap (fun s1 cap1 => run r2 s1 cap1 k)
  | Alt r1 r2 =>
      match run r1 s cap k with
      | Some a => Some a
      | None => run r2 s cap k
      end
  | Star r1 =>
      (fix loop (fuel : nat) (s0 : string) (cap0 : option string) : option A :=
         match fuel with
         | O => k s0 cap0
         | S fuel' =>
             match run r1 s0 cap0
                       (fun s1 cap1 =>
                          if (String.length s1 <? String.length s0)%nat
                          then loop fuel' s1 cap1 else None) with
             | Some a => Some a
             | None => k s0 cap0
             end
         end) (String.length s) s cap
  | Group r1 => run r1 s cap (fun s1 _ => k s1 (Some (consumed s s1)))
  end.
End Matcher.

(** A match: the text after it and the capture group. *)
Definition match_at (r : regex) (s : string) : option (string * option string) :=
  run r s None (fun rest cap => Some (rest, cap)).

(** Leftmost match: [s.match(r)] without the [g] flag. *)
Fixpoint search (r : regex) (s : string) : option (string * option string) :=
  match match_at r s with
  | Some m => Some m
  | None =>
      match s with
      | EmptyString => None
      | String _ s' => search r s'
      end
  end.

(** [s.match(r)[1]] *)
Definition match1 (r : regex) (s : string) : option string :=
  match search r s with
  | Some (_, Some g) => Some g
  | _ => None
  end.

(** [r.test(s)] *)
Definition test (r : regex) (s : string) : bool :=
  match search r s with Some _ => true | None => false end.

(** [Array.from(s.matchAll(r)).map(m => m[1])]: the capture of every
    match, scanning on from the end of the previous one (one character
    further after an empty match). *)
Fixpoint matchAll1_fuel (fuel : nat) (r : regex) (s : string) : list string :=
  match fuel with
  | O => []
  | S fuel' =>
      match match_at r s with
      | Some (rest, cap) =>
          let g := match cap with Some g => g | None => EmptyString end in
          if (String.length rest <? String.length s)%nat
          then g :: matchAll1_fuel fuel' r rest
          else match s with
               | EmptyString => [g]
               | String _ s' => g :: matchAll1_fuel fuel' r s'
               end
      | None =>
          match s with
          | EmptyString => []
          | String _ s' => matchAll1_fuel fuel' r s'
          end
      end
  end.

Definition matchAll1 (r : regex) (s : string) : list string :=
  matchAll1_fuel (S (String.length s)) r s.

End Regex.

(* ================================================================== *)
(** * Recognition results *)
(* ================================================================== *)

#[local] Set Warnings "-register-all".

(** A value of provider-shaped output ([unknown] in the source).  An object
    lists its own properties in the order of [Object.keys]; keys are
    distinct.  [JNum lit] is the number whose [String(v)] is [lit]. *)
Inductive JSON : Type :=
| JNull
| JBool (b : bool)
| JNum (lit : string)
| JStr (s : string)
| JArr (items : list JSON)
| JObj (fields : list (string * JSON)).

(** The result of reading a property: [None] is [undefined]. *)
Definition JsVal := option JSON.

Module Value.

Fixpoint assoc (k : string) (fields : list (string * JSON)) : JsVal :=
  match fields with
  | [] => None
  | (k', v) :: rest => if String.eqb k k' then Some v else assoc k rest
  end.

(** [o[k]] for a property name [k] that is neither an array index nor a
    built-in property: only an object can hold it.  ([null[k]] throws; the
    handler's accesses that can meet [null] go through [Handler.propE].) *)
Definition prop (o : JSON) (k : string) : JsVal :=
  match o with
  | JObj fields => assoc k fields
  | _ => None
  end.

(** [a ?? b] *)
Definition coalesce {A : Type} (a : option A) (b : option A) : option A :=
  match a with
  | Some x => Some x
  | None => b
  end.

(** [null] and [undefined] are the nullish values. *)
Definition defined (v : JsVal) : JsVal :=
  match v with
  | Some JNull => None
  | _ => v
  end.

(** [typeof v === "string" ? String(v) : null], and
    [typeof v === "object"]. *)
Definition as_string (v : JsVal) : option string :=
  match v with
  | Some (JStr s) => Some s
  | _ => None
  end.

Definition is_object_type (v : JsVal) : bool :=
  match v with
  | Some JNull | Some (JArr _) | Some (JObj _) => true
  | _ => false
  end.

(** Truthiness. *)
Definition truthy (v : JsVal) : bool :=
  match v with
  | None | Some JNull => false
  | Some (JBool b) => b
  | Some (JNum lit) => negb (String.eqb lit "0" || String.eqb lit "NaN")
  | Some (JStr s) => Js.nonempty s
  | Some (JArr _) | Some (JObj _) => true
  end.

(** [v === true] *)
Definition is_true (v : JsVal) : bool :=
  match v with
  | Some (JBool true) => true
  | _ => false
  end.

(** The values the extractors accept as [AnyObj]: [typeof v === "object"]
    and not [null]. *)
Definition isAnyObj (o : JSON) : bool :=
  match o with
  | JArr _ | JObj _ => true
  | _ => false
  end.

End Value.

Import Value.

(* ================================================================== *)
(** * Field extraction engine *)
(* ================================================================== *)

Module Extract.

Import Regex.

(** [collectStrings(obj, out)]: [out] grows by every string leaf, depth
    first, arrays by index and objects by [Object.keys].  The function
    returns the strings it pushes. *)
Fixpoint collectStrings (obj : JSON) : list string :=
  match obj with
  | JStr s => [s]
  | JArr items =>
      (fix each (l : list JSON) : list string :=
         match l with
         | [] => []
         | v :: rest => collectStrings v ++ each rest
         end) items
  | JObj fields =>
      (fix each (l : list (string * JSON)) : list string :=
         match l with
         | [] => []
         | (_, v) :: rest => collectStrings v ++ each rest
         end) fields
  | _ => []
  end.

(** [parts.join(" ")] of the collected strings. *)
Definition flatten (o : JSON) : string := Js.join " " (collectStrings o).

(** The local [toStr] of [extractCheckId] and [extractAmount]. *)
Definition toStr (v : JsVal) : option string :=
  match v with
  | None | Some JNull => None
  | Some (JStr s) => Some s
  | Some (JNum lit) => Some lit
  | Some _ => None
  end.

(** Truthiness of a [string | null], and the text it holds. *)
Definition present (v : option string) : bool :=
  match v with
  | Some s => Js.nonempty s
  | None => false
  end.

Definition text_of (v : option string) : string :=
  match v with
  | Some s => s
  | None => EmptyString
  end.

Definition digit : regex := Chr Js.is_digit.

(** [/(\d{9})/] *)
Definition re_routing : regex := Group (Rep 9 digit).

(** [/(\d{4,})/g] *)
Definition re_digitGroup : regex := Group (AtLeast 4 digit).

Definition underscore_join (a b c : string) : string := a ++ "_" ++ b ++ "_" ++ c.

(** The [routing], [account] and [check] that [extractCheckId] reads from
    the structured fields, under their aliases. *)
Definition routingField (ocrJson : JSON) : option string :=
  toStr (coalesce (defined (prop ocrJson "routing_number"))
           (coalesce (defined (prop ocrJson "routing"))
                     (prop ocrJson "aba"))).

Definition accountField (ocrJson : JSON) : option string :=
  toStr (coalesce (defined (prop ocrJson "account_number"))
                  (prop ocrJson "account")).

Definition checkField (ocrJson : JSON) : option string :=
  toStr (coalesce (defined (prop ocrJson "check_number"))
           (coalesce (defined (prop ocrJson "check_no"))
                     (prop ocrJson "cheque_number"))).

Definition extractCheckId (ocrJson : JSON) : option string :=
  let routing := routingField ocrJson in
  let account := accountField ocrJson in
  let check := checkField ocrJson in
  if present routing && present account && present check
  then Some (underscore_join (text_of routing) (text_of account) (text_of check))
  else
    let allText := flatten ocrJson in
    match match1 re_routing allText with
    | None => None
    | Some routingNum =>
        let digitGroups := matchAll1 re_digitGroup allText in
        let filtered :=
          filter (fun g => negb (String.eqb g routingNum)) digitGroups in
        match filtered with
        | accountNum :: checkNum :: _ =>
            Some (underscore_join routingNum accountNum checkNum)
        | _ => None
        end
    end.

(** [[.,]], [\s] *)
Definition sep : regex := Chr (fun c => Ascii.eqb c "." || Ascii.eqb c ",")%char.
Definition space : regex := Chr Js.is_space.

(** [[0-9]{1,3}(?:[.,][0-9]{3})*] *)
Definition re_grouped : regex :=
  Seq (Range 1 3 digit) (Star (Seq sep (Rep 3 digit))).

(** [/(?:\$|USD\s?)\s*([0-9]{1,3}(?:[.,][0-9]{3})*(?:[.,][0-9]{2}))/i] *)
Definition re_moneyWithDollar : regex :=
  Seq (Alt (Lit "$") (Seq (Word LitI "USD") (Opt space)))
      (Seq (Star space)
           (Group (Seq re_grouped (Seq sep (Rep 2 digit))))).

(** [/([0-9]{1,3}(?:[.,][0-9]{3})*[.,][0-9]{2})/] *)
Definition re_plainMoney : regex :=
  Group (Seq re_grouped (Seq sep (Rep 2 digit))).

(** [.replace(/,/g, ".")] *)
Definition commas_to_dots (s : string) : string :=
  Js.replace_class (fun c => Ascii.eqb c ",")%char "." s.

(** [arr.sort(cmp)]: a stable sort; [x] moves behind [y] when
    [cmp x y > 0]. *)
Fixpoint sort_insert (cmp : string -> string -> Z) (x : string) (l : list string) :=
  match l with
  | [] => [x]
  | y :: l' => if (cmp x y >? 0)%Z then y :: sort_insert cmp x l' else x :: l
  end.

Fixpoint sort (cmp : string -> string -> Z) (l : list string) : list string :=
  match l with
  | [] => []
  | x :: l' => sort_insert cmp x (sort cmp l')
  end.

Definition zlength (s : string) : Z := Z.of_nat (String.length s).

(** The last resort of [extractAmount]: the digit run [g] read as dollars
    and cents, [`${Number(dollars)}.${cents}`]. *)
Definition dollars_and_cents (g : string) : string :=
  let dollars :=
    let d := Js.slice_drop_last 2 g in
    if Js.nonempty d then d else "0" in
  let cents := Js.slice_last 2 g in
  Js.render_nat (Js.digits_value dollars) ++ "." ++ cents.

Definition extractAmount (ocrJson : JSON) : option string :=
  let structured :=
    coalesce (toStr (prop ocrJson "amount"))
      (coalesce (toStr (prop ocrJson "amount_numeric"))
         (coalesce (toStr (prop ocrJson "legal_amount"))
                   (toStr (prop ocrJson "written_amount")))) in
  if present structured then structured
  else
    let allText := flatten ocrJson in
    match match1 re_moneyWithDollar allText with
    | Some m => Some (commas_to_dots m)
    | None =>
        match match1 re_plainMoney allText with
        | Some m => Some (commas_to_dots m)
        | None =>
            let digitGroups :=
              filter Js.nonempty
                (Js.split_ws
                   (Js.replace_class (fun c => negb (Js.is_digit c)) " " allText)) in
            let candidates :=
              filter (fun g => (4 <=? String.length g)%nat
                               && (String.length g <=? 7)%nat) digitGroups in
            match candidates with
            | [] => None
            | [g] => Some (dollars_and_cents g)
            | _ =>
                match sort (fun a b => (zlength b - zlength a)%Z) candidates with
                | best :: _ => Some (dollars_and_cents best)
                | [] => None
                end
            end
        end
    end.

(** [/endorse|endorsement|signed by|signature/i] *)
Definition re_endorsement : regex :=
  Alt (Word LitI "endorse")
      (Alt (Word LitI "endorsement")
           (Alt (Word LitI "signed by") (Word LitI "signature"))).

Definition detectEndorsement (ocrJson : JSON) : bool :=
  if is_true (prop ocrJson "endorsement") then true
  else if is_true (prop ocrJson "signature_present") then true
  else if truthy (prop ocrJson "endorsement_image") then true
  else
    let allText := Js.toLowerCase (flatten ocrJson) in
    test re_endorsement allText.

(** [normalizeOcrSpaceResult(resp)] *)
Definition normalizeOcrSpaceResult (resp : JSON) : string :=
  match prop resp "ParsedResults" with
  | Some (JArr (first :: _)) =>
      match as_string (prop first "ParsedText") with
      | Some parsedText => parsedText
      | None => EmptyString
      end
  | _ =>
      match as_string (prop resp "ParsedText") with
      | Some topText => topText
      | None => EmptyString
      end
  end.

End Extract.

(* ================================================================== *)
(** * Amount canonicalizer *)
(* ================================================================== *)

(** JavaScript numbers are IEEE 754 binary64 values: [spec_float] at
    precision 53 and maximal exponent 1024. *)
Module Float64.

Definition prec : Z := 53.
Definition emax : Z := 1024.

Definition number := spec_float.

Definition NaN : number := S754_nan.

(** The double nearest to the integer [z]. *)
Definition of_Z (z : Z) : number := binary_normalize prec emax z 0 false.

(** The double nearest to [m / 10^k] for [m > 0]: the quotient is computed
    with enough bits and rounded once, to nearest, ties to even. *)
Definition of_decimal (negative : bool) (m : Z) (k : nat) : number :=
  match m with
  | Z0 => S754_zero negative
  | _ =>
      let '(q, e, l) := SFdiv_core_binary prec emax m 0 (10 ^ Z.of_nat k) 0 in
      binary_round_aux prec emax negative q e l
  end.

(** [Number.isFinite(x)] *)
Definition isFinite (x : number) : bool :=
  match x with
  | S754_zero _ | S754_finite _ _ _ => true
  | _ => false
  end.

(** [x * y] *)
Definition mul (x y : number) : number := SFmul prec emax x y.

(** An integral number: the result of [Math.round].  Negative zero is
    identified with zero ([JSON.stringify] prints both as [0]). *)
Inductive integral : Type :=
| Int (z : Z)
| Inf (negative : bool)
| IntNaN.

(** [Math.round(x)]: the integer nearest to [x], the larger one on a tie,
    that is [floor(x + 1/2)]. *)
Definition round (x : number) : integral :=
  match x with
  | S754_zero _ => Int 0
  | S754_infinity s => Inf s
  | S754_nan => IntNaN
  | S754_finite s m e =>
      let n := if s then Z.neg m else Z.pos m in
      if (0 <=? e)%Z then Int (n * 2 ^ e)
      else Int ((2 * n + 2 ^ (- e)) / 2 ^ (1 - e))
  end.

(** The text before the first character that fails [p], and the rest. *)
Fixpoint span (p : ascii -> bool) (s : string) : string * string :=
  match s with
  | String c s' =>
      if p c then let '(a, b) := span p s' in (String c a, b)
      else (EmptyString, s)
  | EmptyString => (EmptyString, EmptyString)
  end.

(** [Number(s)] for a text [s] over the alphabet [0-9], [.] and [-], which
    is what [replace(/[^0-9.-]/g, "")] leaves.  On that alphabet the numeric
    literals are an optional [-] followed by [digits], [digits.],
    [digits.digits] or [.digits]; the empty text is [0]; anything else is
    [NaN]. *)
Definition Number_of_stripped (s : string) : number :=
  match s with
  | EmptyString => S754_zero false
  | _ =>
      let '(negative, body) :=
        match s with
        | String "-"%char s' => (true, s')
        | _ => (false, s)
        end in
      let '(int_part, rest) := span Js.is_digit body in
      match rest with
      | EmptyString =>
          if Js.nonempty int_part
          then of_decimal negative (Js.digits_value int_part) 0
          else NaN
      | String "."%char rest' =>
          let '(frac_part, rest'') := span Js.is_digit rest' in
          match rest'' with
          | EmptyString =>
              if Js.nonempty int_part || Js.nonempty frac_part
              then of_decimal negative
                     (Js.digits_value (int_part ++ frac_part))
                     (String.length frac_part)
              else NaN
          | _ => NaN
          end
      | _ => NaN
      end
  end.

(** [.replace(/[^0-9.-]/g, "")] *)
Definition strip (s : string) : string :=
  Js.filter_chars
    (fun c => Js.is_digit c || Ascii.eqb c "." || Ascii.eqb c "-")%char s.

(** A shift record [mrs] stands for the real [N / D]: its mantissa is the
    integer part, and its round and sticky bits say where the fraction
    lies with respect to one half. *)
Definition represents (mrs : shr_record) (N D : Z) : Prop :=
  shr_m mrs = (N / D)%Z
  /\ shr_r mrs = (D <=? 2 * (N mod D))%Z
  /\ shr_s mrs = negb (N mod D =? 0)%Z && negb (2 * (N mod D) =? D)%Z.

End Float64.

(** Lines 469-477 of the route: [amountCents] from [amountString]. *)
Definition canonicalizeAmount (amountString : option string)
  : option Float64.integral :=
  match amountString with
  | None => None
  | Some a =>
      if Js.nonempty a then
        let parsed := Float64.Number_of_stripped (Float64.strip a) in
        if Float64.isFinite parsed
        then Some (Float64.round (Float64.mul parsed (Float64.of_Z 100)))
        else None
      else None
  end.

(** The decimal rendering of [n] cents with two fractional digits. *)
Definition render_cents (n : Z) : string :=
  Js.render_nat (n / 100) ++ "."
    ++ String (Js.digit_char ((n / 10) mod 10))
         (String (Js.digit_char (n mod 10)) EmptyString).

(* ================================================================== *)
(** * Exceptions *)
(* ================================================================== *)

(** A thrown value.  [PrismaClientKnownRequestError] carries the error
    code of the storage layer. *)
Inductive Exn : Type :=
| TypeError (msg : string)
| PrismaClientKnownRequestError (code : string) (msg : string)
| Error (msg : string).

(** A computation that returns or throws. *)
Definition Res (A : Type) : Type := (Exn + A)%type.

Definition ret {A : Type} (a : A) : Res A := inr a.
Definition throw {A : Type} (e : Exn) : Res A := inl e.

Definition bind {A B : Type} (m : Res A) (f : A -> Res B) : Res B :=
  match m with
  | inl e => inl e
  | inr a => f a
  end.

Declare Scope res_scope.
Delimit Scope res_scope with res.
Notation "x <- m ;; k" := (bind m (fun x => k))
  (at level 61, m at next level, right associativity) : res_scope.

(* ================================================================== *)
(** * The [POST] handler of the check verification route *)
(* ================================================================== *)

Module Handler.

Import Extract.
#[local] Open Scope res_scope.
#[local] Open Scope string_scope.

(** An uploaded image. *)
Definition File := string.

(** What [getAuthUserFromRequest] resolves to. *)
Record AuthResult : Type := {
  auth_ok : bool;
  auth_status : option Z;
  auth_body : JsVal;
  auth_supabaseUser_id : option string
}.

(** The row of [prisma.internalAccount]; the handler reads its
    [account_number]. *)
Record InternalAccount : Type := {
  account_number : string
}.

(** Everything outside the handler: the request, [process.env] and the
    answers of the collaborators it awaits.  The recognition clients
    [callOpenAIVisionCombined] and [callOcrSpace] are given by what they
    resolve to for the images and credentials they are called with. *)
Record World : Type := {
  getAuthUserFromRequest : Res AuthResult;
  formData : Res (option File * option File);
  header_authorization : option string;
  OPENAI_API_KEY : option string;
  CHECK_OCR_API_URL : option string;
  CHECK_OCR_API_KEY : option string;
  INTERNAL_API_KEY : option string;
  APP_BASE_URL : option string;
  callOpenAIVisionCombined : File -> File -> string -> Res JSON;
  callOcrSpace : File -> string -> string -> Res JSON;
  user_findUnique : string -> Res JsVal;
  internalAccount_findFirst : string -> Res (option InternalAccount)
}.

(** [JSON.stringify] of an integral number: a number that is not finite
    is written [null]. *)
Definition stringify_number (x : Float64.integral) : option Z :=
  match x with
  | Float64.Int z => Some z
  | Float64.Inf _ | Float64.IntNaN => None
  end.

(** The deposit forward: the [fetch] of [/api/transactions], with the
    fields of its body as [JSON.stringify] writes them; a
    [requested_amount] of [None] is [null]. *)
Record DepositRequest : Type := {
  url : string;
  header_Authorization : string;
  header_Idempotency_Key : string;
  requested_transaction_type : string;
  transaction_direction : string;
  destination_account_number : string;
  requested_amount : option Z;
  description : string;
  check_number : string
}.

Record Response : Type := {
  status : Z;
  body : JSON
}.

(** [o[k]] where [o] may be [null]. *)
Definition propE (o : JSON) (k : string) : Res JsVal :=
  match o with
  | JNull => throw (TypeError "Cannot read properties of null")
  | _ => ret (prop o k)
  end.

Definition optE (o : JsVal) (k : string) : Res JsVal :=
  match o with
  | None => throw (TypeError "Cannot read properties of undefined")
  | Some v => propE v k
  end.

Definition json_or_null (v : JsVal) : JSON :=
  match v with Some j => j | None => JNull end.

Definition opt_string_json (v : option string) : JSON :=
  match v with Some s => JStr s | None => JNull end.

(** Truthiness of an optional string such as an environment variable. *)
Definition set (v : option string) : option string :=
  match v with
  | Some s => if Js.nonempty s then Some s else None
  | None => None
  end.

(** [typeof r["raw_text"] === "string" ? String(r["raw_text"]) :
    normalizeOcrSpaceResult(r)] *)
Definition rawText (r : JSON) : Res string :=
  raw <- propE r "raw_text" ;;
  match as_string raw with
  | Some t => ret t
  | None => ret (normalizeOcrSpaceResult r)
  end.

Definition newline : string := String (ascii_of_nat 10) EmptyString.

(** [combinedText] *)
Definition combinedText (frontResp backResp : JSON) : Res string :=
  frontRaw <- rawText frontResp ;;
  backRaw <- rawText backResp ;;
  ret (frontRaw ++ newline ++ backRaw).

(** The string field [k] of [combinedResp["combined"]], when
    [combinedResp] is truthy and [combinedResp["combined"]] has type
    object. *)
Definition combinedField (combinedResp : option JSON) (k : string)
  : Res (option string) :=
  match combinedResp with
  | Some c =>
      if truthy (Some c) && is_object_type (prop c "combined")
      then v <- optE (prop c "combined") k ;;
           ret (as_string v)
      else ret None
  | None => ret None
  end.

(** [checkId]; [fallback] is [extractCheckId]. *)
Definition checkId_with (fallback : JSON -> option string)
           (combinedResp : option JSON) (ocrJson : JSON) : Res (option string) :=
  pre <- combinedField combinedResp "check_id" ;;
  match pre with
  | Some id => ret (Some id)
  | None => ret (fallback ocrJson)
  end.

Definition checkId := checkId_with extractCheckId.

(** [amountString] *)
Definition tryStr (r : JSON) : option string := as_string (prop r "amount").

Definition amountString (frontResp backResp : JSON) (combinedResp : option JSON)
           (ocrJson : JSON) : Res (option string) :=
  match coalesce (tryStr frontResp) (tryStr backResp) with
  | Some a => ret (Some a)
  | None =>
      pre <- combinedField combinedResp "amount" ;;
      match pre with
      | Some a => ret (Some a)
      | None => ret (extractAmount ocrJson)
      end
  end.

(** [endorsementPresent].  [tryBool(r)] is [r && (...)]: [r] itself when
    [r] is falsy. *)
Definition tryBool (r : JSON) : JsVal :=
  if truthy (Some r)
  then Some (JBool (is_true (prop r "endorsement_present")
                    || match prop r "endorsement_present" with
                       | Some (JStr s) => String.eqb s "true"
                       | _ => false
                       end))
  else Some r.

Definition endorsementPresent (frontResp backResp ocrJson : JSON) : JsVal :=
  coalesce (defined (tryBool backResp))
    (coalesce (defined (tryBool frontResp))
       (coalesce (Some (JBool (detectEndorsement backResp)))
                 (Some (JBool (detectEndorsement ocrJson))))).

(** [.replace(/[^a-zA-Z0-9-_]/g, "-")] *)
Definition sanitize (s : string) : string :=
  Js.replace_class
    (fun c => negb (Js.is_lower c || Js.is_upper c || Js.is_digit c
                    || Ascii.eqb c "-" || Ascii.eqb c "_"))%char "-" s.

Definition depositRequest (w : World) (checkId : string)
           (destAccount : InternalAccount) (amountCents : Float64.integral)
  : DepositRequest :=
  let userAuthHeader :=
    match header_authorization w with Some h => h | None => EmptyString end in
  let authHeader :=
    match set (INTERNAL_API_KEY w) with
    | Some internalKey => "Bearer " ++ internalKey
    | None => userAuthHeader
    end in
  let idempotencyKey := "check-id-" ++ sanitize checkId in
  {| url := match APP_BASE_URL w with Some b => b | None => EmptyString end
            ++ "/api/transactions";
     header_Authorization := authHeader;
     header_Idempotency_Key := idempotencyKey;
     requested_transaction_type := "deposit";
     transaction_direction := "inbound";
     destination_account_number := account_number destAccount;
     requested_amount := stringify_number amountCents;
     description := "Check deposit for check_id=" ++ checkId;
     check_number := checkId |}.

Definition json_response (st : Z) (b : JSON) : Response :=
  {| status := st; body := b |}.

(** [new Response(text, { status })] for a status that is not a constant
    of the handler.  The status is converted to an unsigned short (the
    remainder by 2^16); the constructor throws a [RangeError] when the
    result is outside 200..599 and a [TypeError] when it is a status that
    allows no body. *)
Definition new_Response (st : Z) (b : JSON) : Res Response :=
  let s := Z.rem st 65536 in
  if (s <? 200)%Z || (599 <? s)%Z
  then throw (Error "RangeError: init.status must be in the range of 200 to 599")
  else if (s =? 204)%Z || (s =? 205)%Z || (s =? 304)%Z
       then throw (TypeError "Response constructor: invalid status for a body")
       else ret (json_response s b).

Definition error_body (msg : string) : JSON := JObj [("error", JStr msg)].

(** The recognition step: [frontResp], [backResp] and [combinedResp], or
    the response that ends the request. *)
Definition recognize (w : World) (front back : File)
  : Response + (JSON * JSON * option JSON) :=
  match set (OPENAI_API_KEY w) with
  | Some openaiKey =>
      match callOpenAIVisionCombined w front back openaiKey with
      | inl _ => inl (json_response 502 (error_body "OCR/vision service error"))
      | inr combinedResp =>
          let side (k : string) :=
            if truthy (Some combinedResp) && is_object_type (prop combinedResp k)
            then json_or_null (prop combinedResp k)
            else JObj [] in
          inr (side "front", side "back", Some combinedResp)
      end
  | None =>
      match set (CHECK_OCR_API_URL w), set (CHECK_OCR_API_KEY w) with
      | Some ocrApiUrl, Some ocrApiKey =>
          match callOcrSpace w front ocrApiUrl ocrApiKey with
          | inl _ => inl (json_response 502 (error_body "OCR/vision service error"))
          | inr frontResp =>
              match callOcrSpace w back ocrApiUrl ocrApiKey with
              | inl _ =>
                  inl (json_response 502 (error_body "OCR/vision service error"))
              | inr backResp => inr (frontResp, backResp, None)
              end
          end
      | _, _ => inl (json_response 500 (error_body "OCR service not configured."))
      end
  end.

(** [ENABLE_OCR_DEBUG] *)
Definition ENABLE_OCR_DEBUG : bool := true.

(** [appUserId]: the numeric [id] of the user row, when there is one. *)
Definition appUserId (w : World) (auth : AuthResult) : Res (option string) :=
  match set (auth_supabaseUser_id auth) with
  | Some uid =>
      maybe <- user_findUnique w uid ;;
      if truthy maybe then
        match prop (json_or_null maybe) "id" with
        | Some (JNum id) => ret (Some id)
        | _ => ret None
        end
      else ret None
  | None => ret None
  end.

(** [destAccount] *)
Definition destAccount (w : World) (appUserId : option string)
  : Res (option InternalAccount) :=
  match appUserId with
  | Some id =>
      if truthy (Some (JNum id)) then internalAccount_findFirst w id
      else ret None
  | None => ret None
  end.

(** [ocrJson]: what the extractors are given. *)
Definition ocrJson_of (combinedText : string) (frontResp backResp : JSON)
           (combinedResp : option JSON) : JSON :=
  JObj [("parsed_text", JStr combinedText);
        ("front", frontResp);
        ("back", backResp);
        ("combined",
         match defined combinedResp with
         | Some c => c
         | None => JObj []
         end)].

(** The body of the 201 response. *)
Definition success_body (checkId : string) (amountString : option string)
           (endorsementPresent : JsVal) (frontResp backResp : JSON)
           (combinedText : string) (combinedResp : option JSON) : JSON :=
  JObj ([("message", JStr "Check processed");
         ("check_id", JStr checkId);
         ("amount", opt_string_json amountString)]
        ++ match endorsementPresent with
           | Some v => [("endorsement_present", v)]
           | None => []
           end
        ++ (if ENABLE_OCR_DEBUG
            then [("debug",
                   JObj [("ocr_front", frontResp);
                         ("ocr_back", backResp);
                         ("parsed_text", JStr combinedText);
                         ("combined", json_or_null combinedResp)])]
            else []))%list.

(** The handler inside its outer [try]: the deposit forwards it issues and
    the response it returns, or the exception that escapes.  The identity
    step [cid] is the [checkId] expression. *)
Definition POST_try_using (cid : option JSON -> JSON -> Res (option string))
           (w : World) : Res (list DepositRequest * Response) :=
  auth <- getAuthUserFromRequest w ;;
  if negb (auth_ok auth) then
    resp <- new_Response
              (match auth_status auth with Some st => st | None => 401%Z end)
              (if truthy (auth_body auth) then json_or_null (auth_body auth)
               else JObj [("message", JStr "Unauthorized")]) ;;
    ret ([], resp)
  else
    form <- formData w ;;
    match form with
    | (Some front, Some back) =>
        match recognize w front back with
        | inl resp => ret ([], resp)
        | inr (frontResp, backResp, combinedResp) =>
            text <- combinedText frontResp backResp ;;
            let ocrJson := ocrJson_of text frontResp backResp combinedResp in
            found <- cid combinedResp ocrJson ;;
            match set found with
            | None =>
                ret ([],
                     json_response 400
                       (error_body "Could not extract check ID from images."))
            | Some id =>
                amount <- amountString frontResp backResp combinedResp ocrJson ;;
                let endorsement := endorsementPresent frontResp backResp ocrJson in
                let amountCents := canonicalizeAmount amount in
                uid <- appUserId w auth ;;
                dest <- destAccount w uid ;;
                let forwards :=
                  match dest, amountCents with
                  | Some account, Some cents => [depositRequest w id account cents]
                  | _, _ => []
                  end in
                ret (forwards,
                     json_response 201
                       (success_body id amount endorsement frontResp backResp
                                     text combinedResp))
            end
        end
    | _ =>
        ret ([],
             json_response 400
               (error_body "Both 'front' and 'back' images are required."))
    end.

Definition POST_try : World -> Res (list DepositRequest * Response) :=
  POST_try_using checkId.

(** [POST(request)]: an exception that escapes becomes the 500 response.
    The answer of the deposit endpoint only decides what is logged, and
    console output and the debug files are not part of the model. *)
Definition POST (w : World) : list DepositRequest * Response :=
  match POST_try w with
  | inr out => out
  | inl _ => ([], json_response 500 (error_body "Internal server error"))
  end.

(** The handler with another identity step in the place of [checkId];
    [POST] is [POST_using checkId]. *)
Definition POST_using (cid : option JSON -> JSON -> Res (option string))
           (w : World) : list DepositRequest * Response :=
  match POST_try_using cid w with
  | inr out => out
  | inl _ => ([], json_response 500 (error_body "Internal server error"))
  end.

End Handler.

(* ================================================================== *)
(** * Transaction helpers: the idempotent ledger writer *)
(* ================================================================== *)

Module Ledger.

#[local] Open Scope res_scope.
#[local] Open Scope string_scope.

(** An exact decimal amount, in minor units. *)
Definition Decimal := Z.

(** The [data] of [createApprovedTransaction] and [createDeniedTransaction]
    and the [params] of [findExistingTransaction].  An optional field is
    [None] when it is [undefined] or [null]. *)
Record TxData : Type := {
  internal_account_id : Z;
  amount : Decimal;
  transaction_type : string;
  direction : string;
  idempotency_key : option string;
  check_number : option string;
  bill_pay_rule_id : option Z;
  transfer_rule_id : option Z
}.

Inductive Status : Type := approved | denied.

(** What [tx.transaction.create] is given: [{...data, check_number:
    data.check_number ?? null, status}]. *)
Record Row : Type := {
  row_data : TxData;
  row_status : Status
}.

(** The [where] of [tx.transaction.findFirst]:
    [{ AND: [baseWhere, { OR: orClauses }] }]. *)
Record BaseWhere : Type := {
  where_transaction_type : string;
  where_internal_account_id : Z;
  where_amount : Decimal;
  where_bill_pay_rule_id : option Z;
  where_transfer_rule_id : option Z
}.

Inductive Clause : Type :=
| by_idempotency_key (k : string)
| by_check_number (c : string).

Record Where : Type := {
  baseWhere : BaseWhere;
  orClauses : list Clause
}.

(** The transaction client [tx]: the two calls the helpers make, on a
    storage state [S]. *)
Class TxClient (S : Type) : Type := {
  transaction_create : Row -> S -> Res Row * S;
  transaction_findFirst : Where -> S -> Res (option Row) * S
}.

(** A record of the calls made on [tx]. *)
Inductive Call : Type :=
| called_create (r : Row)
| called_findFirst (w : Where).

(** What [createApprovedTransaction] returns:
    [{ success, message, duplicate? }]. *)
Record Outcome : Type := {
  success : bool;
  message : string;
  duplicate : option bool
}.

Definition truthy_key (k : option string) : bool :=
  match k with
  | Some s => Js.nonempty s
  | None => false
  end.

Definition truthy_id (i : option Z) : option Z :=
  match i with
  | Some n => if (n =? 0)%Z then None else Some n
  | None => None
  end.

(** The [where] that [findExistingTransaction] builds from [baseWhere]
    and [orClauses]: a rule reference joins the base only when truthy, the
    idempotency key is an alternative when truthy, the check number when it
    is a string. *)
Definition lookupWhere (params : TxData) : Where :=
  {| baseWhere :=
       {| where_transaction_type := transaction_type params;
          where_internal_account_id := internal_account_id params;
          where_amount := amount params;
          where_bill_pay_rule_id := truthy_id (bill_pay_rule_id params);
          where_transfer_rule_id := truthy_id (transfer_rule_id params) |};
     orClauses :=
       ((if truthy_key (idempotency_key params)
         then match idempotency_key params with
              | Some k => [by_idempotency_key k]
              | None => []
              end
         else [])
        ++ match check_number params with
           | Some c => [by_check_number c]
           | None => []
           end)%list |}.

(** The error is the uniqueness violation of the storage layer. *)
Definition is_P2002 (e : Exn) : bool :=
  match e with
  | PrismaClientKnownRequestError code _ => String.eqb code "P2002"
  | _ => false
  end.

Section Helpers.
Context {S : Type} {tx : TxClient S}.

(** [findExistingTransaction(tx, params)], with the calls it makes on
    [tx] appended to [log]. *)
Definition findExistingTransaction (params : TxData) (st : S) (log : list Call)
  : Res (option Row) * S * list Call :=
  if negb (truthy_key (idempotency_key params))
     && negb (truthy_key (check_number params))
  then (ret None, st, log)
  else
    let w := lookupWhere params in
    let '(r, st') := transaction_findFirst w st in
    (r, st', (log ++ [called_findFirst w])%list).

(** [createApprovedTransaction(tx, data, successMessage)] *)
Definition createApprovedTransaction (data : TxData) (successMessage : string)
           (st : S) (log : list Call) : Res Outcome * S * list Call :=
  let row := {| row_data := data; row_status := approved |} in
  let '(r, st') := transaction_create row st in
  let log' := (log ++ [called_create row])%list in
  match r with
  | inr _ =>
      (ret {| success := true; message := successMessage; duplicate := None |},
       st', log')
  | inl e =>
      match e with
      | PrismaClientKnownRequestError code _ =>
          if truthy_key (idempotency_key data) && String.eqb code "P2002"
          then (ret {| success := true;
                       message := successMessage ++ " (idempotency key found).";
                       duplicate := Some true |},
                st', log')
          else (throw e, st', log')
      | _ => (throw e, st', log')
      end
  end.

(** [createDeniedTransaction(tx, data)] *)
Definition createDeniedTransaction (data : TxData) (st : S) (log : list Call)
  : Res Row * S * list Call :=
  let row := {| row_data := data; row_status := denied |} in
  let '(r, st') := transaction_create row st in
  (r, st', (log ++ [called_create row])%list).

End Helpers.

End Ledger.

(* ================================================================== *)
(** * The ledger under concurrent submissions *)
(* ================================================================== *)

Module Concurrent.

Import Ledger.
#[local] Open Scope string_scope.

(** The storage state: the transaction table, oldest record first. *)
Definition Store := list Row.

Definition same_text (a b : option string) : bool :=
  match a, b with
  | Some x, Some y => String.eqb x y
  | _, _ => false
  end.

Definition same_id (a b : option Z) : bool :=
  match a, b with
  | Some x, Some y => (x =? y)%Z
  | None, None => true
  | _, _ => false
  end.

(** Two records name the same (transaction_type, internal_account_id,
    amount). *)
Definition same_base (a b : TxData) : bool :=
  String.eqb (transaction_type a) (transaction_type b)
  && (internal_account_id a =? internal_account_id b)%Z
  && (amount a =? amount b)%Z.

Definition is_approved (r : Row) : bool :=
  match row_status r with approved => true | denied => false end.

(** Modelled from the spec: the uniqueness constraint of the transaction
    table, which is declared in the storage schema.  Two approved records
    conflict when they agree on (transaction_type, internal_account_id,
    amount, bill_pay_rule_id|transfer_rule_id) and on the idempotency key
    or on the check number. *)
Definition conflicts (new old : Row) : bool :=
  is_approved new && is_approved old
  && same_base (row_data new) (row_data old)
  && same_id (bill_pay_rule_id (row_data new)) (bill_pay_rule_id (row_data old))
  && same_id (transfer_rule_id (row_data new)) (transfer_rule_id (row_data old))
  && (same_text (idempotency_key (row_data new)) (idempotency_key (row_data old))
      || same_text (check_number (row_data new)) (check_number (row_data old))).

Definition holds_clause (r : Row) (c : Clause) : bool :=
  match c with
  | by_idempotency_key k => same_text (Some k) (idempotency_key (row_data r))
  | by_check_number n => same_text (Some n) (check_number (row_data r))
  end.

Definition holds_id (w : option Z) (v : option Z) : bool :=
  match w with
  | Some _ => same_id w v
  | None => true
  end.

(** Modelled from the spec: the filter of [findFirst],
    [{ AND: [baseWhere, { OR: orClauses }] }]. *)
Definition matches (w : Where) (r : Row) : bool :=
  let b := baseWhere w in
  let d := row_data r in
  String.eqb (where_transaction_type b) (transaction_type d)
  && (where_internal_account_id b =? internal_account_id d)%Z
  && (where_amount b =? amount d)%Z
  && holds_id (where_bill_pay_rule_id b) (bill_pay_rule_id d)
  && holds_id (where_transfer_rule_id b) (transfer_rule_id d)
  && existsb (holds_clause r) (orClauses w).

Definition unique_violation : Exn :=
  PrismaClientKnownRequestError "P2002" "Unique constraint failed".

(** Modelled from the spec: the storage collaborator, [findOne(criteria)]
    and [insert(record)] with the uniqueness constraint.  An insert either
    appends the record or fails with the conflict P2002 and leaves the
    table as it was. *)
#[export] Instance table : TxClient Store := {
  transaction_create row st :=
    if existsb (conflicts row) st then (throw unique_violation, st)
    else (ret row, (st ++ [row])%list);
  transaction_findFirst w st := (ret (find (matches w) st), st)
}.

(** Where a submission stands: before its lookup, before its insert, or
    finished with what its caller receives. *)
Inductive Phase : Type :=
| at_lookup
| at_insert
| finished (r : Res Outcome).

(** Modelled from the spec: one submission of the idempotent ledger writer
    (section 4.5), one storage call at a time.  The lookup is
    [findExistingTransaction]; a record found ends the submission with
    success and the duplicate flag; otherwise the insert is
    [createApprovedTransaction]. *)
Definition advance (data : TxData) (successMessage : string)
           (ph : Phase) (st : Store) : Phase * Store :=
  match ph with
  | at_lookup =>
      match findExistingTransaction data st [] with
      | (inl e, st', _) => (finished (throw e), st')
      | (inr (Some _), st', _) =>
          (finished (ret {| success := true;
                            message := successMessage;
                            duplicate := Some true |}), st')
      | (inr None, st', _) => (at_insert, st')
      end
  | at_insert =>
      let '(r, st', _) := createApprovedTransaction data successMessage st [] in
      (finished r, st')
  | finished r => (finished r, st)
  end.

(** Two submissions and the table they share. *)
Definition Config : Type := (Phase * Phase * Store)%type.

Section Interleaving.
Variables (first second : TxData) (successMessage : string).

(** One storage call of either submission. *)
Inductive step : Config -> Config -> Prop :=
| step_first : forall pa pb st pa' st',
    advance first successMessage pa st = (pa', st') ->
    step (pa, pb, st) (pa', pb, st')
| step_second : forall pa pb st pb' st',
    advance second successMessage pb st = (pb', st') ->
    step (pa, pb, st) (pa, pb', st').

Inductive runs : Config -> Config -> Prop :=
| runs_done : forall c, runs c c
| runs_step : forall c c' c'', step c c' -> runs c' c'' -> runs c c''.
End Interleaving.

(** The approved records of the table for the tuple of [d]:
    (transaction_type, internal_account_id, amount, check_number). *)
Definition approved_records (d : TxData) (st : Store) : list Row :=
  filter (fun r => is_approved r
                   && same_base d (row_data r)
                   && same_text (check_number d) (check_number (row_data r))) st.

(** The record that a submission inserts. *)
Definition approved_row (d : TxData) : Row :=
  {| row_data := d; row_status := approved |}.

(** What a caller receives: after a fresh insert, after a lookup that found
    the record, and after an insert that met the conflict. *)
Definition inserted (successMessage : string) : Outcome :=
  {| success := true; message := successMessage; duplicate := None |}.

Definition found_existing (successMessage : string) : Outcome :=
  {| success := true; message := successMessage; duplicate := Some true |}.

Definition conflict_recovered (successMessage : string) : Outcome :=
  {| success := true;
     message := successMessage ++ " (idempotency key found).";
     duplicate := Some true |}.

(** Two submissions name the same check: the same (transaction_type,
    internal_account_id, amount, check_number) and rule references. *)
Definition same_check (a b : TxData) : bool :=
  same_base a b
  && same_text (check_number a) (check_number b)
  && same_id (bill_pay_rule_id a) (bill_pay_rule_id b)
  && same_id (transfer_rule_id a) (transfer_rule_id b).

(** The caller received a success response. *)
Definition succeeded (r : Res Outcome) : bool :=
  match r with
  | inr o => success o
  | inl _ => false
  end.

(** The table holds no record of this (transaction_type,
    internal_account_id, amount) under the check number or the idempotency
    key of [d]. *)
Definition unseen (d : TxData) (st : Store) : bool :=
  forallb (fun r => negb (same_base d (row_data r)
                          && (same_text (check_number d) (check_number (row_data r))
                              || same_text (idempotency_key d)
                                           (idempotency_key (row_data r))))) st.

(** One of the two submissions. *)
Definition party (first second d : TxData) : Prop := d = first \/ d = second.

(** The phases of a submission that is still to make a storage call, and
    those that can be met once a record is in the table. *)
Definition pending (p : Phase) : Prop := p = at_lookup \/ p = at_insert.

Definition fine (p : Phase) : Prop :=
  pending p \/ exists o, p = finished (ret o) /\ success o = true.

(** The invariant of two submissions that start on the table [st0]: the
    table is as it was and nobody has finished, or exactly one of the two
    records has been appended and whoever has finished has succeeded. *)
Inductive Inv (first second : TxData) (st0 : Store) : Config -> Prop :=
| inv_fresh : forall pa pb,
    pending pa -> pending pb -> Inv first second st0 (pa, pb, st0)
| inv_taken : forall pa pb x,
    party first second x -> fine pa -> fine pb ->
    Inv first second st0 (pa, pb, (st0 ++ [approved_row x])%list).

End Concurrent.

(* ================================================================== *)
(** * Sample inputs *)
(* ================================================================== *)

Module Samples.

Import Handler Ledger Concurrent.
#[local] Open Scope string_scope.

(** Structured identity fields, as the vision model returns them. *)
Definition structured_check : JSON :=
  JObj [("routing_number", JStr "021000021");
        ("account_number", JStr "123456");
        ("check_number", JStr "789")].

(** Structured identity fields that are too short to be a routing number. *)
Definition short_fields : JSON :=
  JObj [("routing_number", JStr "12");
        ("account_number", JStr "3");
        ("check_number", JStr "4")].

(** A transcript without any nine digits in a row. *)
Definition short_transcript : JSON :=
  JObj [("parsed_text", JStr "PAY TO THE ORDER OF J DOE 12345678 0042")].

(** A transcript with an amount that has a thousands separator. *)
Definition amount_due : JSON :=
  JObj [("parsed_text", JStr "$1,234.56 due")].

(** The answer of the plain OCR provider for a transcript. *)
Definition ocr_answer (text : string) : JSON :=
  JObj [("ParsedResults", JArr [JObj [("ParsedText", JStr text)]])].

Definition signed_in : AuthResult :=
  {| auth_ok := true;
     auth_status := None;
     auth_body := None;
     auth_supabaseUser_id := Some "0b9a6c1e-user" |}.

(** A request served by the plain OCR provider: the two images are named
    by their content, and the signed-in user has an active account. *)
Definition ocr_world (front back : JSON) : World :=
  {| getAuthUserFromRequest := ret signed_in;
     formData := ret (Some "front-image", Some "back-image");
     header_authorization := Some "Bearer user-token";
     OPENAI_API_KEY := None;
     CHECK_OCR_API_URL := Some "https://ocr.example/parse";
     CHECK_OCR_API_KEY := Some "ocr-key";
     INTERNAL_API_KEY := None;
     APP_BASE_URL := Some "https://bank.example";
     callOpenAIVisionCombined := fun _ _ _ => throw (Error "not configured");
     callOcrSpace := fun image _ _ =>
       ret (if String.eqb image "front-image" then front else back);
     user_findUnique := fun _ => ret (Some (JObj [("id", JNum "7")]));
     internalAccount_findFirst := fun _ =>
       ret (Some {| account_number := "000111222" |}) |}.

(** A request served by the vision model, which answers [combined]. *)
Definition vision_world (combined : JSON) : World :=
  {| getAuthUserFromRequest := ret signed_in;
     formData := ret (Some "front-image", Some "back-image");
     header_authorization := Some "Bearer user-token";
     OPENAI_API_KEY := Some "vision-key";
     CHECK_OCR_API_URL := None;
     CHECK_OCR_API_KEY := None;
     INTERNAL_API_KEY := Some "internal-key";
     APP_BASE_URL := Some "https://bank.example";
     callOpenAIVisionCombined := fun _ _ _ => ret combined;
     callOcrSpace := fun _ _ _ => throw (Error "not configured");
     user_findUnique := fun _ => ret (Some (JObj [("id", JNum "7")]));
     internalAccount_findFirst := fun _ =>
       ret (Some {| account_number := "000111222" |}) |}.

(** A request whose caller is not authenticated; the authentication
    gives the status [st]. *)
Definition signed_out (st : option Z) : World :=
  {| getAuthUserFromRequest :=
       ret {| auth_ok := false;
              auth_status := st;
              auth_body := Some (JObj [("message", JStr "Invalid token")]);
              auth_supabaseUser_id := None |};
     formData := ret (None, None);
     header_authorization := None;
     OPENAI_API_KEY := Some "vision-key";
     CHECK_OCR_API_URL := None;
     CHECK_OCR_API_KEY := None;
     INTERNAL_API_KEY := None;
     APP_BASE_URL := None;
     callOpenAIVisionCombined := fun _ _ _ => throw (Error "not reached");
     callOcrSpace := fun _ _ _ => throw (Error "not reached");
     user_findUnique := fun _ => throw (Error "not reached");
     internalAccount_findFirst := fun _ => throw (Error "not reached") |}.

(** The same request when the storage layer is down. *)
Definition storage_down (w : World) : World :=
  {| getAuthUserFromRequest := getAuthUserFromRequest w;
     formData := formData w;
     header_authorization := header_authorization w;
     OPENAI_API_KEY := OPENAI_API_KEY w;
     CHECK_OCR_API_URL := CHECK_OCR_API_URL w;
     CHECK_OCR_API_KEY := CHECK_OCR_API_KEY w;
     INTERNAL_API_KEY := INTERNAL_API_KEY w;
     APP_BASE_URL := APP_BASE_URL w;
     callOpenAIVisionCombined := callOpenAIVisionCombined w;
     callOcrSpace := callOcrSpace w;
     user_findUnique := fun _ => throw (Error "connection refused");
     internalAccount_findFirst := internalAccount_findFirst w |}.

(** A check whose back carries a written endorsement and no structured
    endorsement field. *)
Definition endorsed_front : JSON := ocr_answer "021000021 123456 7890 $12.50".
Definition endorsed_back : JSON := ocr_answer "Endorsement: signed by J Doe".

(** A vision answer with a pre-combined identity. *)
Definition vision_answer (front_fields : list (string * JSON)) : JSON :=
  JObj [("front", JObj front_fields);
        ("back", JObj [("endorsement_present", JBool true);
                       ("raw_text", JStr "J Doe")]);
        ("combined", JObj [("amount", JNull);
                           ("check_id", JStr "021000021_12345678_789");
                           ("notes", JNull)])].

(** The front of a check whose amount the model could not read, and one
    whose amount it transcribed with two decimal points. *)
Definition no_amount : JSON :=
  vision_answer [("amount", JNull); ("raw_text", JStr "PAY TO THE ORDER OF")].

Definition garbled_amount : JSON :=
  vision_answer [("amount", JStr "$1.234.56"); ("raw_text", JStr "PAY")].

(** A vision answer whose [check_id] is the empty string, on a check whose
    printed numbers were transcribed; and one whose [front] is [null]. *)
Definition empty_check_id : JSON :=
  JObj [("front", JObj [("amount", JStr "12.50");
                        ("raw_text", JStr "021000021 12345678 7890")]);
        ("back", JObj [("endorsement_present", JBool true);
                       ("raw_text", JStr "J Doe")]);
        ("combined", JObj [("amount", JNull);
                           ("check_id", JStr "");
                           ("notes", JNull)])].

Definition null_front : JSON :=
  JObj [("front", JNull);
        ("back", JObj [("endorsement_present", JBool true);
                       ("raw_text", JStr "J Doe")]);
        ("combined", JObj [("amount", JNull);
                           ("check_id", JStr "021000021_12345678_789");
                           ("notes", JNull)])].

(** A vision answer in the shape the prompt asks for: the structured
    identity fields are those of the front result, and the model gave no
    pre-combined identity. *)
Definition structured_front : JSON :=
  JObj [("amount", JStr "12.50");
        ("routing_number", JStr "021000021");
        ("account_number", JStr "123456");
        ("check_number", JStr "789");
        ("raw_text", JStr "PAY TO THE ORDER OF J DOE")].

Definition structured_answer : JSON :=
  JObj [("front", structured_front);
        ("back", JObj [("endorsement_present", JBool true);
                       ("raw_text", JStr "J Doe")]);
        ("combined", JObj [("amount", JNull);
                           ("check_id", JNull);
                           ("notes", JNull)])].

(** A check deposit without an idempotency key, and the same with one. *)
Definition check_deposit : TxData :=
  {| internal_account_id := 42%Z;
     amount := 1250%Z;
     transaction_type := "deposit";
     direction := "inbound";
     idempotency_key := None;
     check_number := Some "021000021_123456_789";
     bill_pay_rule_id := None;
     transfer_rule_id := None |}.

Definition keyed_deposit : TxData :=
  {| internal_account_id := 42%Z;
     amount := 1250%Z;
     transaction_type := "deposit";
     direction := "inbound";
     idempotency_key := Some "check-id-021000021_123456_789";
     check_number := Some "021000021_123456_789";
     bill_pay_rule_id := None;
     transfer_rule_id := None |}.

(** A bill payment that carries neither key. *)
Definition unkeyed_payment : TxData :=
  {| internal_account_id := 42%Z;
     amount := 9900%Z;
     transaction_type := "billpay";
     direction := "outbound";
     idempotency_key := None;
     check_number := None;
     bill_pay_rule_id := Some 3%Z;
     transfer_rule_id := None |}.

(** A client whose every insert meets the given error. *)
Definition failing (e : Exn) : TxClient unit :=
  {| transaction_create := fun _ st => (throw e, st);
     transaction_findFirst := fun _ st => (ret None, st) |}.

End Samples.

(* ================================================================== *)
(** * Stages of a request *)
(* ================================================================== *)

Module Stages.

Import Handler.

(** The request reaches the recognition step: the caller is authenticated
    and the form carries both images. *)
Definition reaches_recognition (w : World) (front back : File) : Prop :=
  exists auth,
    getAuthUserFromRequest w = ret auth
    /\ auth_ok auth = true
    /\ formData w = ret (Some front, Some back).

(** The explicit endorsement flag of a recognition result:
    [endorsement_present] is [true] or ["true"]. *)
Definition explicit_flag (r : JSON) : bool :=
  is_true (prop r "endorsement_present")
  || match prop r "endorsement_present" with
     | Some (JStr s) => String.eqb s "true"
     | _ => false
     end.

(** The storage lookups of the handler return. *)
Definition storage_answers (w : World) : Prop :=
  (forall id, exists r, user_findUnique w id = ret r)
  /\ (forall id, exists r, internalAccount_findFirst w id = ret r).

End Stages.

(* ================================================================== *)
(** * The recognition clients *)
(* ================================================================== *)

Module Clients.

#[local] Open Scope res_scope.
#[local] Open Scope string_scope.

(** What [fetch] resolves to: [res.ok], [res.status], and what
    [res.text()] and [res.json()] resolve to. *)
Record HttpResponse : Type := {
  res_ok : bool;
  res_status : Z;
  res_text : Res string;
  res_json : Res JSON
}.

(** The request of [callOcrSpace]: the URL, the [apikey] header and the
    fields of the form. *)
Record OcrRequest : Type := {
  ocr_url : string;
  ocr_apikey : string;
  ocr_form : list (string * string)
}.

(** [p.catch(() => fallback)] *)
Definition catch {A : Type} (p : Res A) (fallback : A) : A :=
  match p with
  | inr a => a
  | inl _ => fallback
  end.

(** [v && typeof v === "object" ? v : {}] *)
Definition object_or_empty (v : JSON) : JSON :=
  if truthy (Some v) && is_object_type (Some v) then v else JObj [].

(** [callOcrSpace(base64Image, apiUrl, apiKey)], over the [fetch] it
    awaits.  The status is a non-negative integer. *)
Definition callOcrSpace (fetch : OcrRequest -> Res HttpResponse)
           (base64Image apiUrl apiKey : string) : Res JSON :=
  res <- fetch {| ocr_url := apiUrl;
                  ocr_apikey := apiKey;
                  ocr_form :=
                    [("base64Image", "data:image/jpeg;base64," ++ base64Image);
                     ("language", "eng");
                     ("isOverlayRequired", "false")] |} ;;
  if negb (res_ok res) then
    let txt := catch (res_text res) EmptyString in
    throw (Error ("OCR service error " ++ Js.render_nat (res_status res)
                  ++ ": " ++ txt))
  else
    let jsonUnknown := catch (res_json res) (JObj []) in
    ret (object_or_empty jsonUnknown).

(** [callOpenAIVision(_, __)]: deprecated, always throws. *)
Definition callOpenAIVision (_ __ : string) : Res JSON :=
  throw (Error "callOpenAIVision is deprecated. Use callOpenAIVisionCombined(frontBase64, backBase64, apiKey).").

(** The request of [callOpenAIVisionCombined]: the endpoint, the bearer
    token, the model and the two image URLs of the payload (the fixed
    instruction text of the payload is not carried). *)
Record VisionRequest : Type := {
  vision_endpoint : string;
  vision_Authorization : string;
  vision_model : string;
  vision_images : list string
}.

(** [/\{[\s\S]*\}/], with the whole match as the capture. *)
Definition re_braces : Regex.regex :=
  Regex.Group
    (Regex.Seq (Regex.Lit "{")
       (Regex.Seq (Regex.Star (Regex.Chr (fun _ => true))) (Regex.Lit "}"))).

(** [getArrayProp(obj, key)] *)
Definition getArrayProp (obj : JSON) (key : string) : list JSON :=
  if negb (truthy (Some obj)) || negb (is_object_type (Some obj)) then []
  else match prop obj key with
       | Some (JArr items) => items
       | _ => []
       end.

(** The [content] of one entry of [outputs]. *)
Definition content_of (o : JSON) : JsVal :=
  if truthy (Some o) && is_object_type (Some o) then
    let msg := prop o "message" in
    coalesce (defined (prop o "content"))
      (if truthy msg && is_object_type msg
       then prop (match msg with Some m => m | None => JNull end) "content"
       else Some JNull)
  else Some JNull.

(** The texts that one [content] adds to [candidateTexts]. *)
Definition texts_of (content : JsVal) : list string :=
  match content with
  | Some (JArr items) =>
      flat_map
        (fun c =>
           if truthy (Some c) && is_object_type (Some c) then
             match as_string (prop c "text") with
             | Some t => [t]
             | None => []
             end
           else [])
        items
  | Some (JStr t) => [t]
  | _ => []
  end.

Section Vision.

(** [JSON.parse], which returns or throws, and [JSON.stringify]. *)
Variable JSON_parse : string -> Res JSON.
Variable JSON_stringify : JSON -> string.

(** The loop over [candidateTexts]: the first text whose outermost braces
    parse to an object. *)
Fixpoint first_parsed (candidateTexts : list string) : option JSON :=
  match candidateTexts with
  | [] => None
  | t :: rest =>
      match Regex.match1 re_braces t with
      | Some jsMatch =>
          match JSON_parse jsMatch with
          | inr parsed =>
              if truthy (Some parsed) && is_object_type (Some parsed)
              then Some parsed
              else first_parsed rest
          | inl _ => first_parsed rest
          end
      | None => first_parsed rest
      end
  end.

(** [callOpenAIVisionCombined(frontBase64, backBase64, apiKey)], over the
    [fetch] it awaits and [process.env.OPENAI_VISION_MODEL]. *)
Definition callOpenAIVisionCombined
           (OPENAI_VISION_MODEL : option string)
           (fetch : VisionRequest -> Res HttpResponse)
           (frontBase64 backBase64 apiKey : string) : Res JSON :=
  let modelName :=
    match OPENAI_VISION_MODEL with Some m => m | None => "gpt-4o-mini" end in
  res <- fetch {| vision_endpoint := "https://api.openai.com/v1/responses";
                  vision_Authorization := "Bearer " ++ apiKey;
                  vision_model := modelName;
                  vision_images :=
                    ["data:image/jpeg;base64," ++ frontBase64;
                     "data:image/jpeg;base64," ++ backBase64] |} ;;
  if negb (res_ok res) then
    let txt := catch (res_text res) EmptyString in
    throw (Error ("OpenAI vision error " ++ Js.render_nat (res_status res)
                  ++ ": " ++ txt))
  else
    let json := catch (res_json res) (JObj []) in
    let outputs := (getArrayProp json "output" ++ getArrayProp json "choices")%list in
    let candidateTexts :=
      (flat_map (fun o => texts_of (content_of o)) outputs
       ++ [JSON_stringify json])%list in
    match first_parsed candidateTexts with
    | Some parsed => ret parsed
    | None =>
        ret (match json with
             | JArr _ | JObj _ => json
             | _ => JObj []
             end)
    end.

End Vision.

End Clients.

(* ================================================================== *)
(** * The amount schema of the transaction helpers *)
(* ================================================================== *)

Module Schema.

Import Regex.
#[local] Open Scope string_scope.

(** [s.trim()] on code units below 256. *)
Fixpoint trim_start (s : string) : string :=
  match s with
  | String c s' => if Js.is_space c then trim_start s' else s
  | EmptyString => EmptyString
  end.

Fixpoint trim_end (s : string) : string :=
  match s with
  | String c s' =>
      match trim_end s' with
      | EmptyString => if Js.is_space c then EmptyString else String c EmptyString
      | t => String c t
      end
  | EmptyString => EmptyString
  end.

Definition trim (s : string) : string := trim_end (trim_start s).

(** [/^-?\d+(\.\d{1,2})?$/] without its anchors. *)
Definition re_amount : regex :=
  Seq (Opt (Lit "-"))
      (Seq (AtLeast 1 Extract.digit)
           (Opt (Seq (Lit ".") (Range 1 2 Extract.digit)))).

(** [/^r$/.test(s)]: a match of [r] at the start of [s] that ends at the
    end of [s]. *)
Definition test_whole (r : regex) (s : string) : bool :=
  match run r s None
            (fun rest _ => if Js.nonempty rest then None else Some tt) with
  | Some _ => true
  | None => false
  end.

(** A leading [-] and what follows it. *)
Definition sign_split (v : string) : bool * string :=
  match v with
  | String "-"%char v' => (true, v')
  | _ => (false, v)
  end.

(** [new Decimal(v)] for a text [v] that passed the pattern, in minor
    units: an optional [-], the digits of the whole part and at most two
    digits of the fraction. *)
Definition decimal_of (v : string) : Ledger.Decimal :=
  let '(negative, body) := sign_split v in
  let '(whole, rest) := Float64.span Js.is_digit body in
  let fraction :=
    match rest with
    | String _ f => f
    | EmptyString => EmptyString
    end in
  let hundredths :=
    match String.length fraction with
    | 0%nat => 0%Z
    | 1%nat => (10 * Js.digits_value fraction)%Z
    | _ => Js.digits_value fraction
    end in
  let magnitude := (100 * Js.digits_value whole + hundredths)%Z in
  if negative then (- magnitude)%Z else magnitude.

(** [Amount]: what [safeParse] gives, [None] when the input is invalid.  A
    string is trimmed, a number is rendered by [String(v)]; the text must
    pass the pattern and the decimal must be greater than zero. *)
Definition Amount (v : JSON) : option Ledger.Decimal :=
  let text :=
    match v with
    | JStr s => Some (trim s)
    | JNum lit => Some lit
    | _ => None
    end in
  match text with
  | Some t =>
      if test_whole re_amount t then
        let d := decimal_of t in
        if (0 <? d)%Z then Some d else None
      else None
  | None => None
  end.

(** The texts the pattern accepts, read directly: an optional [-], at
    least one digit, and then nothing or a point with one or two digits. *)
Definition is_amount_text (s : string) : bool :=
  let '(whole, rest) := Float64.span Js.is_digit (snd (sign_split s)) in
  Js.nonempty whole
  && match rest with
     | EmptyString => true
     | String c f =>
         Ascii.eqb c "."
         && Js.forall_chars Js.is_digit f
         && ((String.length f =? 1)%nat || (String.length f =? 2)%nat)
     end.

End Schema.

(* ================================================================== *)
(** * Text search *)
(* ================================================================== *)

Module Text.

(** [w] starts [s], and [w] occurs in [s], letters compared without
    case. *)
Fixpoint prefix_ci (w s : string) : bool :=
  match w with
  | EmptyString => true
  | String c w' =>
      match s with
      | String d s' =>
          Ascii.eqb (Js.lower_char d) (Js.lower_char c) && prefix_ci w' s'
      | EmptyString => false
      end
  end.

Fixpoint contains_ci (w s : string) : bool :=
  prefix_ci w s
  || match s with
     | String _ s' => contains_ci w s'
     | EmptyString => false
     end.

(** Every character is one that [sanitize] keeps. *)
Definition is_key_char (c : ascii) : bool :=
  Js.is_lower c || Js.is_upper c || Js.is_digit c
  || Ascii.eqb c "-" || Ascii.eqb c "_".

(** Every character class of the pattern [r] lies within [P]. *)
Fixpoint within (P : ascii -> bool) (r : Regex.regex) : Prop :=
  match r with
  | Regex.Chr cls => forall c, cls c = true -> P c = true
  | Regex.Eps => True
  | Regex.Seq r1 r2 | Regex.Alt r1 r2 => within P r1 /\ within P r2
  | Regex.Star r1 | Regex.Group r1 => within P r1
  end.

(** The characters of a money text before and after [commas_to_dots]. *)
Definition is_money_char (c : ascii) : bool :=
  Js.is_digit c || Ascii.eqb c "." || Ascii.eqb c ",".

Definition is_decimal_char (c : ascii) : bool :=
  Js.is_digit c || Ascii.eqb c ".".

End Text.

(* ================================================================== *)
(** * Properties of the identity extraction *)
(* ================================================================== *)

Section IdentityFacts.

Import Extract Samples.

(** Whenever the three structured fields are present and non-empty, they
    are the identity, joined by underscores. *)
Lemma extractCheckId_structured (o : JSON) (r a c : string) :
  routingField o = Some r -> accountField o = Some a -> checkField o = Some c ->
  Js.nonempty r = true -> Js.nonempty a = true -> Js.nonempty c = true ->
  extractCheckId o = Some (underscore_join r a c).
Proof.
  intros Hr Ha Hc Nr Na Nc. unfold extractCheckId.
  rewrite Hr, Ha, Hc. simpl. rewrite Nr, Na, Nc. reflexivity.
Qed.

(** Called on an object that carries the structured fields routing_number
    "021000021", account_number "123456" and check_number "789" at its
    top level, [extractCheckId] gives "021000021_123456_789". *)
Lemma extractCheckId_structured_fields (o : JSON) :
  prop o "routing_number" = Some (JStr "021000021") ->
  prop o "account_number" = Some (JStr "123456") ->
  prop o "check_number" = Some (JStr "789") ->
  extractCheckId o = Some "021000021_123456_789".
Proof.
  intros Hr Ha Hc.
  apply (extractCheckId_structured o "021000021" "123456" "789");
    try reflexivity.
  - unfold routingField. rewrite Hr. reflexivity.
  - unfold accountField. rewrite Ha. reflexivity.
  - unfold checkField. rewrite Hc. reflexivity.
Qed.

Example extractCheckId_structured_check :
  extractCheckId structured_check = Some "021000021_123456_789".
Proof.
  apply (extractCheckId_structured_fields structured_check); reflexivity.
Qed.

(** The repetition [\d{n}] fails where fewer than [n] digits start. *)
Lemma run_digits_fails (A : Type) (n : nat) :
  forall (s : string) (cap : option string)
         (k : string -> option string -> option A),
    Js.starts_with_digits n s = false ->
    Regex.run (Regex.Rep n digit) s cap k = None.
Proof.
  induction n as [| n IH]; intros s cap k Hs.
  - discriminate.
  - destruct s as [| c s']; [reflexivity |].
    simpl in *. destruct (Js.is_digit c); [| reflexivity].
    apply IH. exact Hs.
Qed.

(** [/(\d{9})/] finds nothing in a text without nine digits in a row. *)
Lemma match1_routing_none (s : string) :
  Js.has_digit_run 9 s = false -> Regex.match1 re_routing s = None.
Proof.
  intros Hs. unfold Regex.match1.
  assert (Hsearch : Regex.search re_routing s = None).
  { induction s as [| c s' IH].
    - reflexivity.
    - cbn [Js.has_digit_run] in Hs. apply orb_false_elim in Hs as [Hhere Hrest].
      cbn [Regex.search]. unfold Regex.match_at, re_routing.
      cbn [Regex.run]. rewrite run_digits_fails by exact Hhere.
      apply IH. exact Hrest. }
  rewrite Hsearch. reflexivity.
Qed.

(** C4, as the code has it: when the structured fields do not give all
    three components and the flattened text has no nine digits in a row,
    the identity extraction returns [null]. *)
Theorem extractCheckId_without_nine_digits (o : JSON) :
  isAnyObj o = true ->
  present (routingField o) && present (accountField o)
    && present (checkField o) = false ->
  Js.has_digit_run 9 (flatten o) = false ->
  extractCheckId o = None.
Proof.
  intros _ Hfields Htext. unfold extractCheckId.
  rewrite Hfields. rewrite match1_routing_none by exact Htext.
  reflexivity.
Qed.

Lemma extractCheckId_without_nine_digits_witness :
  extractCheckId short_transcript = None.
Proof.
  apply (extractCheckId_without_nine_digits short_transcript); reflexivity.
Defined.

(** C4 as stated fails: the flattened text of these structured fields,
    "12 3 4", has no nine digits in a row, and the identity is
    "12_3_4". *)
Lemma extractCheckId_short_structured_fields :
  flatten short_fields = "12 3 4"
  /\ Js.has_digit_run 9 (flatten short_fields) = false
  /\ extractCheckId short_fields = Some "12_3_4".
Proof. repeat split; reflexivity. Qed.

End IdentityFacts.

(* ================================================================== *)
(** * Properties of the transaction helpers *)
(* ================================================================== *)

Section LedgerFacts.

Import Ledger Samples.
#[local] Open Scope string_scope.

(** C10: without an idempotency key and without a check number,
    [findExistingTransaction] returns [null] and makes no call on the
    storage client: the state and the call log are as before. *)
Theorem findExistingTransaction_without_keys
        (S : Type) (tx : TxClient S) (params : TxData) (st : S) (log : list Call) :
  idempotency_key params = None ->
  check_number params = None ->
  findExistingTransaction params st log = (ret None, st, log).
Proof.
  intros Hk Hc. unfold findExistingTransaction.
  rewrite Hk, Hc. reflexivity.
Qed.

Lemma findExistingTransaction_without_keys_witness :
  findExistingTransaction (tx := Concurrent.table) unkeyed_payment [] []
  = (ret None, [], []).
Proof.
  apply (findExistingTransaction_without_keys _ Concurrent.table unkeyed_payment);
    reflexivity.
Defined.

(** C1, as the code has it: when the insert fails, the failure becomes
    success with the duplicate flag exactly when the data carries a
    non-empty idempotency key and the error is the uniqueness violation
    P2002; every other error, and P2002 without an idempotency key, is
    thrown again unchanged. *)
Theorem createApprovedTransaction_on_failed_insert
        (S : Type) (tx : TxClient S) (data : TxData) (successMessage : string)
        (st st' : S) (log : list Call) (e : Exn) :
  transaction_create {| row_data := data; row_status := approved |} st
  = (throw e, st') ->
  createApprovedTransaction data successMessage st log
  = (if truthy_key (idempotency_key data) && is_P2002 e
     then ret {| success := true;
                 message := successMessage ++ " (idempotency key found).";
                 duplicate := Some true |}
     else throw e,
     st',
     (log ++ [called_create {| row_data := data; row_status := approved |}])%list).
Proof.
  intros Hcreate. unfold createApprovedTransaction. rewrite Hcreate.
  unfold throw. destruct e as [m | code m | m]; simpl.
  - rewrite andb_false_r. reflexivity.
  - destruct (truthy_key (idempotency_key data) && String.eqb code "P2002");
      reflexivity.
  - rewrite andb_false_r. reflexivity.
Qed.

Lemma createApprovedTransaction_on_failed_insert_witness :
  createApprovedTransaction (tx := failing Concurrent.unique_violation)
    keyed_deposit "Deposit approved" tt []
  = (ret {| success := true;
            message := "Deposit approved (idempotency key found).";
            duplicate := Some true |},
     tt,
     [called_create {| row_data := keyed_deposit; row_status := approved |}]).
Proof.
  apply (createApprovedTransaction_on_failed_insert
           unit (failing Concurrent.unique_violation) keyed_deposit
           "Deposit approved" tt tt [] Concurrent.unique_violation).
  reflexivity.
Defined.

(** C1 as stated fails: an insert of a check deposit without an
    idempotency key that meets P2002 throws P2002 to the caller. *)
Lemma createApprovedTransaction_P2002_without_key :
  transaction_create (TxClient := failing Concurrent.unique_violation)
    {| row_data := check_deposit; row_status := approved |} tt
  = (throw (PrismaClientKnownRequestError "P2002" "Unique constraint failed"), tt)
  /\ createApprovedTransaction (tx := failing Concurrent.unique_violation)
       check_deposit "Deposit approved" tt []
     = (throw (PrismaClientKnownRequestError "P2002" "Unique constraint failed"),
        tt,
        [called_create {| row_data := check_deposit; row_status := approved |}]).
Proof. split; reflexivity. Qed.

End LedgerFacts.

(* ================================================================== *)
(** * Properties of the handler *)
(* ================================================================== *)

Section HandlerFacts.

Import Extract Handler Samples Stages.
#[local] Open Scope string_scope.

(** A string field of [combinedResp["combined"]] is read as it is. *)
Lemma combinedField_string (combinedResp combined : JSON) (k v : string) :
  prop combinedResp "combined" = Some combined ->
  prop combined k = Some (JStr v) ->
  combinedField (Some combinedResp) k = ret (Some v).
Proof.
  intros Hcombined Hk.
  destruct combinedResp; try discriminate.
  destruct combined; try discriminate.
  unfold combinedField. simpl in *.
  rewrite Hcombined. simpl. rewrite Hk. reflexivity.
Qed.

(** The [checkId] expression takes a string [combined.check_id] as it
    is, whatever the extraction it falls back to would compute. *)
Lemma checkId_with_combined_check_id
      (fallback : JSON -> option string)
      (combinedResp combined ocrJson : JSON) (id : string) :
  prop combinedResp "combined" = Some combined ->
  prop combined "check_id" = Some (JStr id) ->
  checkId_with fallback (Some combinedResp) ocrJson = ret (Some id).
Proof.
  intros Hcombined Hid. unfold checkId_with.
  rewrite (combinedField_string combinedResp combined "check_id" id Hcombined Hid).
  reflexivity.
Qed.

(** What the vision path of the recognition step returns. *)
Lemma recognize_vision (w : World) (front back : File) (key : string) (c : JSON) :
  set (OPENAI_API_KEY w) = Some key ->
  callOpenAIVisionCombined w front back key = ret c ->
  recognize w front back
  = inr (if truthy (Some c) && is_object_type (prop c "front")
         then json_or_null (prop c "front") else JObj [],
         if truthy (Some c) && is_object_type (prop c "back")
         then json_or_null (prop c "back") else JObj [],
         Some c).
Proof. intros Hkey Hcall. unfold recognize. rewrite Hkey, Hcall. reflexivity. Qed.

Lemma side_object (c : JSON) (k : string) :
  prop c k <> Some JNull ->
  isAnyObj (if truthy (Some c) && is_object_type (prop c k)
            then json_or_null (prop c k) else JObj []) = true.
Proof.
  intros Hk. destruct (truthy (Some c)); cbn [andb]; [| reflexivity].
  destruct (prop c k) as [[] |]; try reflexivity. contradiction.
Qed.

Lemma rawText_object (r : JSON) :
  isAnyObj r = true -> exists t, rawText r = ret t.
Proof.
  intros Hr. unfold rawText.
  destruct r; try discriminate; cbn [propE bind ret];
    try match goal with
        | |- context [as_string ?v] => destruct (as_string v)
        end; eauto.
Qed.

Lemma appUserId_returns (w : World) (auth : AuthResult) :
  storage_answers w -> exists uid, appUserId w auth = ret uid.
Proof.
  intros [Huser _]. unfold appUserId.
  destruct (set (auth_supabaseUser_id auth)) as [u |]; [| eauto].
  destruct (Huser u) as (maybe & ->). cbn [bind ret].
  destruct (truthy maybe); [| eauto].
  destruct (prop (json_or_null maybe) "id") as [[] |]; eauto.
Qed.

Lemma destAccount_returns (w : World) (uid : option string) :
  storage_answers w -> exists dest, destAccount w uid = ret dest.
Proof.
  intros [_ Hacct]. unfold destAccount. destruct uid as [i |]; [| eauto].
  destruct (truthy (Some (JNum i))); [apply Hacct | eauto].
Qed.

(** The handler after the recognition step, for any identity step. *)
Lemma POST_using_after_recognition
      (cid : option JSON -> JSON -> Res (option string))
      (w : World) (auth : AuthResult) (front back : File)
      (frontResp backResp : JSON) (combinedResp : option JSON) :
  getAuthUserFromRequest w = ret auth ->
  auth_ok auth = true ->
  formData w = ret (Some front, Some back) ->
  recognize w front back = inr (frontResp, backResp, combinedResp) ->
  POST_using cid w
  = match
      (text <- combinedText frontResp backResp ;;
       let ocrJson := ocrJson_of text frontResp backResp combinedResp in
       found <- cid combinedResp ocrJson ;;
       match set found with
       | None =>
           ret ([],
                json_response 400
                  (error_body "Could not extract check ID from images."))
       | Some id =>
           amount <- amountString frontResp backResp combinedResp ocrJson ;;
           uid <- appUserId w auth ;;
           dest <- destAccount w uid ;;
           ret (match dest, canonicalizeAmount amount with
                | Some account, Some cents =>
                    [depositRequest w id account cents]
                | _, _ => []
                end,
                json_response 201
                  (success_body id amount
                     (endorsementPresent frontResp backResp ocrJson)
                     frontResp backResp text combinedResp))
       end)%res
    with
    | inr out => out
    | inl _ => ([], json_response 500 (error_body "Internal server error"))
    end.
Proof.
  intros Hauth Hok Hform Hrec.
  unfold POST_using, POST_try_using.
  rewrite Hauth. cbn [bind ret]. rewrite Hok. cbn [negb].
  rewrite Hform. cbn [bind ret]. rewrite Hrec. reflexivity.
Qed.

(** Once the identity step has returned, the amount step returns too:
    both read [combinedResp["combined"]] the same way. *)
Lemma amountString_returns (frontResp backResp : JSON) (combinedResp : option JSON)
      (o : JSON) (cid : option string) :
  checkId combinedResp o = ret cid ->
  exists amount, amountString frontResp backResp combinedResp o = ret amount.
Proof.
  unfold checkId, checkId_with, amountString, combinedField.
  intros Hid.
  destruct (coalesce (tryStr frontResp) (tryStr backResp)); [eauto |].
  destruct combinedResp as [c |]; [| simpl; eauto].
  destruct (truthy (Some c) && is_object_type (prop c "combined")) eqn:Hc;
    [| simpl; eauto].
  destruct (prop c "combined") as [combined |]; [| discriminate].
  destruct combined; simpl in *; try discriminate; eauto.
  destruct (as_string (assoc "amount" fields)); eauto.
Qed.

(** C3, as the code has it.  The vision model answered with a string
    [combined.check_id].  Then [extractCheckId] has no part in the
    request: the [checkId] expression is that string whatever the object
    the extractor would be given, and the handler answers the same with
    any other extractor in its place.  When neither [front] nor [back] of
    the answer is [null]: a non-empty string is the [check_id] of the 201
    response, verbatim, and the check number and (sanitized) idempotency
    key of every deposit forward, provided the storage lookups return; the
    empty string counts as no identity and is answered 400, without a
    fallback. *)
Theorem POST_takes_combined_check_id
        (w : World) (front back : File) (key : string)
        (combinedResp combined : JSON) (id : string) :
  reaches_recognition w front back ->
  set (OPENAI_API_KEY w) = Some key ->
  callOpenAIVisionCombined w front back key = ret combinedResp ->
  prop combinedResp "combined" = Some combined ->
  prop combined "check_id" = Some (JStr id) ->
  (forall ocrJson, checkId (Some combinedResp) ocrJson = ret (Some id))
  /\ (forall extract, POST_using (checkId_with extract) w = POST w)
  /\ (prop combinedResp "front" <> Some JNull ->
      prop combinedResp "back" <> Some JNull ->
      if Js.nonempty id
      then storage_answers w ->
           status (snd (POST w)) = 201%Z
           /\ prop (body (snd (POST w))) "check_id" = Some (JStr id)
           /\ forall d, In d (fst (POST w)) ->
                        check_number d = id
                        /\ header_Idempotency_Key d
                           = "check-id-" ++ sanitize id
      else POST w
           = ([], json_response 400
                    (error_body "Could not extract check ID from images."))).
Proof.
  intros (auth & Hauth & Hok & Hform) Hkey Hcall Hcombined Hid.
  assert (Hcid : forall extract o,
             checkId_with extract (Some combinedResp) o = ret (Some id)).
  { intros extract o.
    exact (checkId_with_combined_check_id extract _ _ o id Hcombined Hid). }
  pose proof (recognize_vision w front back key combinedResp Hkey Hcall) as Hrec.
  set (frontResp := if truthy (Some combinedResp)
                       && is_object_type (prop combinedResp "front")
                    then json_or_null (prop combinedResp "front") else JObj [])
    in Hrec.
  set (backResp := if truthy (Some combinedResp)
                      && is_object_type (prop combinedResp "back")
                   then json_or_null (prop combinedResp "back") else JObj [])
    in Hrec.
  assert (Hstep : forall extract,
             POST_using (checkId_with extract) w
             = match
                 (text <- combinedText frontResp backResp ;;
                  let ocrJson :=
                    ocrJson_of text frontResp backResp (Some combinedResp) in
                  match set (Some id) with
                  | None =>
                      ret ([],
                           json_response 400
                             (error_body
                                "Could not extract check ID from images."))
                  | Some id' =>
                      amount <- amountString frontResp backResp
                                             (Some combinedResp) ocrJson ;;
                      uid <- appUserId w auth ;;
                      dest <- destAccount w uid ;;
                      ret (match dest, canonicalizeAmount amount with
                           | Some account, Some cents =>
                               [depositRequest w id' account cents]
                           | _, _ => []
                           end,
                           json_response 201
                             (success_body id' amount
                                (endorsementPresent frontResp backResp ocrJson)
                                frontResp backResp text (Some combinedResp)))
                  end)%res
               with
               | inr out => out
               | inl _ =>
                   ([], json_response 500 (error_body "Internal server error"))
               end).
  { intros extract.
    rewrite (POST_using_after_recognition _ w auth front back _ _ _
               Hauth Hok Hform Hrec).
    destruct (combinedText frontResp backResp) as [e | text]; cbn [bind ret];
      [reflexivity |].
    rewrite (Hcid extract). reflexivity. }
  assert (HPOST : POST w = POST_using (checkId_with extractCheckId) w)
    by reflexivity.
  split; [exact (Hcid extractCheckId) |].
  split; [intros extract; rewrite HPOST, !Hstep; reflexivity |].
  intros Hfront Hback. rewrite HPOST, Hstep.
  destruct (rawText_object frontResp (side_object _ _ Hfront)) as (tf & Htf).
  destruct (rawText_object backResp (side_object _ _ Hback)) as (tb & Htb).
  unfold combinedText. rewrite Htf, Htb. cbn [bind ret]. unfold set.
  destruct (Js.nonempty id); [| reflexivity].
  intros Hstorage.
  set (o := ocrJson_of (tf ++ newline ++ tb) frontResp backResp
                       (Some combinedResp)).
  destruct (amountString_returns frontResp backResp (Some combinedResp) o
              (Some id) (Hcid extractCheckId o)) as (amount & ->).
  cbn [bind ret].
  destruct (appUserId_returns w auth Hstorage) as (uid & ->).
  cbn [bind ret].
  destruct (destAccount_returns w uid Hstorage) as (dest & ->).
  cbn [bind ret fst snd status body json_response].
  split; [reflexivity |]. split; [reflexivity |].
  intros d Hd.
  destruct dest as [account |]; [| contradiction].
  destruct (canonicalizeAmount amount) as [cents |]; [| contradiction].
  destruct Hd as [<- | []]. split; reflexivity.
Qed.

Lemma POST_takes_combined_check_id_witness :
  (forall ocrJson,
      checkId (Some no_amount) ocrJson = ret (Some "021000021_12345678_789"))
  /\ (forall extract,
         POST_using (checkId_with extract) (vision_world no_amount)
         = POST (vision_world no_amount))
  /\ status (snd (POST (vision_world no_amount))) = 201%Z
  /\ prop (body (snd (POST (vision_world no_amount)))) "check_id"
     = Some (JStr "021000021_12345678_789")
  /\ forall d, In d (fst (POST (vision_world no_amount))) ->
               check_number d = "021000021_12345678_789"
               /\ header_Idempotency_Key d
                  = "check-id-" ++ sanitize "021000021_12345678_789".
Proof.
  destruct (POST_takes_combined_check_id (vision_world no_amount)
              "front-image" "back-image" "vision-key" no_amount
              (JObj [("amount", JNull);
                     ("check_id", JStr "021000021_12345678_789");
                     ("notes", JNull)])
              "021000021_12345678_789")
    as (Hexpr & Hextract & Houtcome).
  - exists signed_in. repeat split; reflexivity.
  - reflexivity.
  - reflexivity.
  - reflexivity.
  - reflexivity.
  - split; [exact Hexpr |]. split; [exact Hextract |].
    apply Houtcome.
    + discriminate.
    + discriminate.
    + split; intros i; eexists; reflexivity.
Defined.

(** C3 as stated fails.  The model answered [check_id: ""] for a check
    whose transcribed text carries the numbers of an identity: the handler
    does not take the empty string for the identity, it answers 400, and
    it does not fall back to the text either.  And when the [front] of the
    answer is [null], the request ends in the 500 of the outer catch
    before the identity step. *)
Lemma POST_rejects_empty_combined_check_id :
  (prop empty_check_id "combined"
   = Some (JObj [("amount", JNull); ("check_id", JStr ""); ("notes", JNull)])
   /\ extractCheckId
        (ocrJson_of ("021000021 12345678 7890" ++ newline ++ "J Doe")
           (JObj [("amount", JStr "12.50");
                  ("raw_text", JStr "021000021 12345678 7890")])
           (JObj [("endorsement_present", JBool true);
                  ("raw_text", JStr "J Doe")])
           (Some empty_check_id))
      = Some "021000021_12345678_7890"
   /\ POST (vision_world empty_check_id)
      = ([], json_response 400
               (error_body "Could not extract check ID from images.")))
  /\ POST (vision_world null_front)
     = ([], json_response 500 (error_body "Internal server error")).
Proof. repeat split; vm_compute; reflexivity. Qed.

(** In the handler: whenever the vision model answered with a string
    [combined.check_id] and the request ends in 201, that string is the
    [check_id] of the body and the check number of every deposit
    forward. *)
Lemma POST_check_id_is_combined_check_id
      (w : World) (auth : AuthResult) (front back : File)
      (frontResp backResp combinedResp combined : JSON) (id : string) :
  getAuthUserFromRequest w = ret auth ->
  auth_ok auth = true ->
  formData w = ret (Some front, Some back) ->
  recognize w front back = inr (frontResp, backResp, Some combinedResp) ->
  prop combinedResp "combined" = Some combined ->
  prop combined "check_id" = Some (JStr id) ->
  status (snd (POST w)) = 201%Z ->
  prop (body (snd (POST w))) "check_id" = Some (JStr id)
  /\ forall d, In d (fst (POST w)) -> check_number d = id.
Proof.
  intros Hauth Hok Hform Hrec Hcombined Hid.
  unfold POST, POST_try, POST_try_using.
  rewrite Hauth. simpl. rewrite Hok. simpl.
  rewrite Hform. simpl. rewrite Hrec.
  destruct (combinedText frontResp backResp) as [e | text];
    simpl; [discriminate |].
  unfold checkId, checkId_with.
  rewrite (combinedField_string combinedResp combined "check_id" id Hcombined Hid).
  simpl. unfold set. destruct (Js.nonempty id); [| simpl; discriminate].
  destruct (amountString frontResp backResp (Some combinedResp) _) as [e | amt];
    simpl; [discriminate |].
  destruct (appUserId w auth) as [e | uid]; simpl; [discriminate |].
  destruct (destAccount w uid) as [e | dest]; simpl; [discriminate |].
  intros _. split; [reflexivity |].
  intros d Hd. destruct dest, (canonicalizeAmount amt); simpl in Hd;
    try contradiction.
  destruct Hd as [<- | []]. reflexivity.
Qed.

(** C5, on the code: for the transcript "$1,234.56 due" the currency
    pattern captures "1,234.56" and the normalization turns the thousands
    separator into a second decimal point: the amount string is
    "1.234.56", not "1234.56", and the canonicalizer cannot read it. *)
Theorem extractAmount_thousands_separator :
  flatten amount_due = "$1,234.56 due"
  /\ Regex.match1 re_moneyWithDollar (flatten amount_due) = Some "1,234.56"
  /\ extractAmount amount_due = Some "1.234.56"
  /\ canonicalizeAmount (extractAmount amount_due) = None.
Proof.
  split; [reflexivity |]. split; [reflexivity |].
  split; [reflexivity |]. vm_compute. reflexivity.
Qed.

(** The endorsement flag of the handler is the explicit flag of the back
    side alone: [tryBool(backResp)] is a boolean, never nullish, so the
    [??] chain stops there. *)
Lemma endorsementPresent_is_back_flag (frontResp backResp ocrJson : JSON) :
  isAnyObj backResp = true ->
  endorsementPresent frontResp backResp ocrJson = tryBool backResp.
Proof.
  intros Hobj. unfold endorsementPresent, tryBool.
  destruct backResp; try discriminate; reflexivity.
Qed.

(** C6, on the code: the back of the check reads "Endorsement: signed by
    J Doe" and no structured endorsement field is present; the keyword
    search finds the endorsement, yet the response of the handler says
    [endorsement_present: false]. *)
Theorem POST_ignores_written_endorsement :
  prop endorsed_back "endorsement_present" = None
  /\ prop endorsed_front "endorsement_present" = None
  /\ detectEndorsement endorsed_back = true
  /\ status (snd (POST (ocr_world endorsed_front endorsed_back))) = 201%Z
  /\ prop (body (snd (POST (ocr_world endorsed_front endorsed_back))))
          "endorsement_present" = Some (JBool false).
Proof. repeat split; vm_compute; reflexivity. Qed.

(** C9, on the code: the vision model answered in the shape the prompt
    asks for, with the structured fields routing_number "021000021",
    account_number "123456" and check_number "789" in its front result
    and no pre-combined identity.  Called on the front result,
    [extractCheckId] gives "021000021_123456_789".  The handler calls it
    on the object that wraps the results, where no structured field is at
    the top level: the identity is read from the flattened text, the
    three-digit check number is no digit group, the account number is
    taken twice, and the response carries "021000021_123456_123456". *)
Theorem POST_misses_structured_identity :
  prop structured_answer "front" = Some structured_front
  /\ prop structured_front "routing_number" = Some (JStr "021000021")
  /\ prop structured_front "account_number" = Some (JStr "123456")
  /\ prop structured_front "check_number" = Some (JStr "789")
  /\ extractCheckId structured_front = Some "021000021_123456_789"
  /\ status (snd (POST (vision_world structured_answer))) = 201%Z
  /\ prop (body (snd (POST (vision_world structured_answer)))) "check_id"
     = Some (JStr "021000021_123456_123456")
  /\ (forall d, In d (fst (POST (vision_world structured_answer))) ->
                check_number d = "021000021_123456_123456").
Proof.
  repeat split; try (vm_compute; reflexivity).
  intros d Hd. vm_compute in Hd. destruct Hd as [<- | []]. reflexivity.
Qed.

(** C7, as the code has it: when the identity is extracted, the storage
    lookups return and the canonical amount is [null], the handler returns
    201 and issues no deposit forward; the [amount] of the body is the
    extracted amount string as it is, [null] only when none was
    extracted. *)
Theorem POST_without_canonical_amount
        (w : World) (auth : AuthResult) (front back : File)
        (frontResp backResp : JSON) (combinedResp : option JSON)
        (text id : string) (amount uid : option string)
        (dest : option InternalAccount) :
  getAuthUserFromRequest w = ret auth ->
  auth_ok auth = true ->
  formData w = ret (Some front, Some back) ->
  recognize w front back = inr (frontResp, backResp, combinedResp) ->
  combinedText frontResp backResp = ret text ->
  checkId combinedResp (ocrJson_of text frontResp backResp combinedResp)
  = ret (Some id) ->
  Js.nonempty id = true ->
  amountString frontResp backResp combinedResp
               (ocrJson_of text frontResp backResp combinedResp) = ret amount ->
  canonicalizeAmount amount = None ->
  appUserId w auth = ret uid ->
  destAccount w uid = ret dest ->
  fst (POST w) = []
  /\ status (snd (POST w)) = 201%Z
  /\ prop (body (snd (POST w))) "check_id" = Some (JStr id)
  /\ prop (body (snd (POST w))) "amount"
     = Some (match amount with Some a => JStr a | None => JNull end).
Proof.
  intros Hauth Hok Hform Hrec Htext Hid Hne Hamount Hcents Huid Hdest.
  unfold POST, POST_try, POST_try_using.
  rewrite Hauth. simpl. rewrite Hok. simpl.
  rewrite Hform. simpl. rewrite Hrec.
  rewrite Htext. simpl. rewrite Hid. simpl. rewrite Hne.
  rewrite Hamount. simpl. rewrite Hcents.
  rewrite Huid. simpl. rewrite Hdest. simpl.
  destruct dest; destruct amount; repeat split; reflexivity.
Qed.

Lemma POST_without_canonical_amount_witness :
  fst (POST (vision_world no_amount)) = []
  /\ status (snd (POST (vision_world no_amount))) = 201%Z
  /\ prop (body (snd (POST (vision_world no_amount)))) "check_id"
     = Some (JStr "021000021_12345678_789")
  /\ prop (body (snd (POST (vision_world no_amount)))) "amount" = Some JNull.
Proof.
  apply (POST_without_canonical_amount (vision_world no_amount) signed_in
           "front-image" "back-image"
           (JObj [("amount", JNull); ("raw_text", JStr "PAY TO THE ORDER OF")])
           (JObj [("endorsement_present", JBool true); ("raw_text", JStr "J Doe")])
           (Some no_amount)
           ("PAY TO THE ORDER OF" ++ newline ++ "J Doe")
           "021000021_12345678_789" None (Some "7")
           (Some {| account_number := "000111222" |}));
    reflexivity.
Defined.

(** C7 as stated fails.  An amount string that does not parse leaves the
    canonical amount [null] and the deposit forward is skipped, but the
    body carries the string, not [null]; and when the identity is
    extracted and the amount is not, a failing storage lookup turns the
    response into a 500. *)
Lemma POST_amount_null_not_always_201_null :
  (canonicalizeAmount (Some "$1.234.56") = None
   /\ fst (POST (vision_world garbled_amount)) = []
   /\ status (snd (POST (vision_world garbled_amount))) = 201%Z
   /\ prop (body (snd (POST (vision_world garbled_amount)))) "amount"
      = Some (JStr "$1.234.56"))
  /\ status (snd (POST (storage_down (vision_world no_amount)))) = 500%Z.
Proof. repeat split; vm_compute; reflexivity. Qed.

End HandlerFacts.

(* ================================================================== *)
(** * Concurrent submissions of one check *)
(* ================================================================== *)

Section ConcurrentFacts.

Import Ledger Concurrent Samples.

Lemma find_app (A : Type) (f : A -> bool) (l1 l2 : list A) :
  find f (l1 ++ l2)
  = match find f l1 with Some x => Some x | None => find f l2 end.
Proof.
  induction l1 as [| x l1 IH]; simpl; [reflexivity |].
  destruct (f x); [reflexivity | exact IH].
Qed.

Lemma same_id_eq (a b : option Z) : same_id a b = true -> a = b.
Proof.
  destruct a, b; simpl; try discriminate; try reflexivity.
  intros H. apply Z.eqb_eq in H. now subst.
Qed.

Lemma same_id_refl (a : option Z) : same_id a a = true.
Proof. destruct a; simpl; [apply Z.eqb_refl | reflexivity]. Qed.

Lemma same_text_eq (a b : option string) :
  same_text a b = true -> exists s, a = Some s /\ b = Some s.
Proof.
  destruct a as [x |], b as [y |]; simpl; try discriminate.
  intros H. apply String.eqb_eq in H. subst. eauto.
Qed.

Lemma same_base_eq (a b : TxData) :
  same_base a b = true ->
  transaction_type a = transaction_type b
  /\ internal_account_id a = internal_account_id b
  /\ amount a = amount b.
Proof.
  unfold same_base. intros H.
  apply andb_prop in H as [H Hamount]. apply andb_prop in H as [Htype Hacct].
  apply String.eqb_eq in Htype. apply Z.eqb_eq in Hacct. apply Z.eqb_eq in Hamount.
  auto.
Qed.

Lemma same_base_refl (a : TxData) : same_base a a = true.
Proof.
  unfold same_base. now rewrite String.eqb_refl, !Z.eqb_refl.
Qed.

(** A record that the lookup of [d] matches has been seen by [d]. *)
Lemma matches_seen (d : TxData) (r : Row) :
  matches (lookupWhere d) r = true ->
  same_base d (row_data r)
  && (same_text (check_number d) (check_number (row_data r))
      || same_text (idempotency_key d) (idempotency_key (row_data r))) = true.
Proof.
  unfold matches, lookupWhere, same_base. cbn [baseWhere orClauses
    where_transaction_type where_internal_account_id where_amount
    where_bill_pay_rule_id where_transfer_rule_id].
  intros H.
  apply andb_prop in H as [H Hclause].
  apply andb_prop in H as [H _]. apply andb_prop in H as [H _].
  rewrite H. cbn [andb].
  destruct (idempotency_key d) as [k |], (check_number d) as [c |];
    cbn [truthy_key] in Hclause;
    try destruct (Js.nonempty k);
    cbn [app existsb holds_clause] in Hclause;
    rewrite ?orb_false_r in Hclause;
    try discriminate;
    try (rewrite Hclause; now rewrite ?orb_true_r);
    try (apply orb_prop in Hclause as [Hc | Hc]; rewrite Hc;
         now rewrite ?orb_true_r).
Qed.

Lemma conflicts_seen (d : TxData) (r : Row) :
  conflicts (approved_row d) r = true ->
  same_base d (row_data r)
  && (same_text (check_number d) (check_number (row_data r))
      || same_text (idempotency_key d) (idempotency_key (row_data r))) = true.
Proof.
  unfold conflicts, approved_row. cbn [row_data row_status is_approved andb].
  intros H.
  apply andb_prop in H as [H Hkey].
  apply andb_prop in H as [H _]. apply andb_prop in H as [H _].
  apply andb_prop in H as [_ Hbase].
  rewrite Hbase. cbn [andb]. rewrite orb_comm. exact Hkey.
Qed.

Lemma unseen_find (d : TxData) (st : Store) :
  unseen d st = true -> find (matches (lookupWhere d)) st = None.
Proof.
  induction st as [| r st IH]; [reflexivity |].
  cbn [unseen forallb find]. intros H. apply andb_prop in H as [Hr Hst].
  destruct (matches (lookupWhere d) r) eqn:Hm.
  - apply matches_seen in Hm. rewrite Hm in Hr. discriminate.
  - apply IH. exact Hst.
Qed.

Lemma unseen_no_conflict (d : TxData) (st : Store) :
  unseen d st = true -> existsb (conflicts (approved_row d)) st = false.
Proof.
  induction st as [| r st IH]; [reflexivity |].
  cbn [unseen forallb existsb]. intros H. apply andb_prop in H as [Hr Hst].
  destruct (conflicts (approved_row d) r) eqn:Hc.
  - apply conflicts_seen in Hc. rewrite Hc in Hr. discriminate.
  - apply IH. exact Hst.
Qed.

Section ExactlyOnce.

Variables (first second : TxData) (successMessage : string) (st0 : Store).
Hypothesis Hsame : same_check first second = true.
Hypothesis Hkey1 : truthy_key (idempotency_key first) = true.
Hypothesis Hkey2 : truthy_key (idempotency_key second) = true.
Hypothesis Hnew1 : unseen first st0 = true.
Hypothesis Hnew2 : unseen second st0 = true.

#[local] Abbreviation party := (party first second).
#[local] Abbreviation Inv := (Inv first second st0).
#[local] Abbreviation inv_fresh := (inv_fresh first second st0).
#[local] Abbreviation inv_taken := (inv_taken first second st0).

Lemma party_key (d : TxData) :
  party d -> truthy_key (idempotency_key d) = true.
Proof. intros [-> | ->]; assumption. Qed.

Lemma party_unseen (d : TxData) : party d -> unseen d st0 = true.
Proof. intros [-> | ->]; assumption. Qed.

Lemma party_same_check (d x : TxData) :
  party d -> party x -> same_check d x = true.
Proof.
  pose proof Hsame as H. unfold same_check in H.
  apply andb_prop in H as [H Ht]. apply andb_prop in H as [H Hb].
  apply andb_prop in H as [Hbase Hc].
  apply same_base_eq in Hbase as (Htype & Hacct & Hamt).
  apply same_text_eq in Hc as (c & Hc1 & Hc2).
  apply same_id_eq in Hb. apply same_id_eq in Ht.
  intros [-> | ->] [-> | ->]; unfold same_check, same_base;
    rewrite ?Htype, ?Hacct, ?Hamt, ?Hc1, ?Hc2, ?Hb, ?Ht;
    cbn [same_text];
    now rewrite ?String.eqb_refl, ?Z.eqb_refl, ?same_id_refl.
Qed.

Lemma advance_lookup_fresh (d : TxData) :
  party d -> advance d successMessage at_lookup st0 = (at_insert, st0).
Proof.
  intros Hd. unfold advance, findExistingTransaction.
  rewrite (party_key d Hd). cbn [negb andb transaction_findFirst table].
  rewrite (unseen_find d st0 (party_unseen d Hd)). reflexivity.
Qed.

Lemma advance_insert_fresh (d : TxData) :
  party d ->
  advance d successMessage at_insert st0
  = (finished (ret (inserted successMessage)), st0 ++ [approved_row d]).
Proof.
  intros Hd. unfold advance, createApprovedTransaction.
  cbn [transaction_create table].
  fold (approved_row d).
  rewrite (unseen_no_conflict d st0 (party_unseen d Hd)). reflexivity.
Qed.

Lemma party_matches (d x : TxData) :
  party d -> party x -> matches (lookupWhere d) (approved_row x) = true.
Proof.
  intros Hd Hx. pose proof (party_same_check d x Hd Hx) as H.
  unfold same_check in H.
  apply andb_prop in H as [H Ht]. apply andb_prop in H as [H Hb].
  apply andb_prop in H as [Hbase Hc].
  apply same_text_eq in Hc as (c & Hc1 & Hc2).
  apply same_id_eq in Hb. apply same_id_eq in Ht.
  unfold matches, lookupWhere.
  cbn [baseWhere orClauses where_transaction_type where_internal_account_id
       where_amount where_bill_pay_rule_id where_transfer_rule_id
       approved_row row_data].
  unfold same_base in Hbase. rewrite Hbase. cbn [andb].
  rewrite <- Hb, <- Ht, Hc1.
  assert (Hid : forall i, holds_id (truthy_id i) i = true).
  { intros [n |]; cbn; [| reflexivity].
    destruct (n =? 0)%Z; cbn; [reflexivity | apply Z.eqb_refl]. }
  rewrite !Hid. cbn [andb].
  rewrite existsb_app. cbn [existsb holds_clause approved_row row_data].
  rewrite Hc2. cbn [same_text].
  rewrite String.eqb_refl. now rewrite orb_true_r.
Qed.

Lemma party_conflicts (d x : TxData) :
  party d -> party x -> conflicts (approved_row d) (approved_row x) = true.
Proof.
  intros Hd Hx. pose proof (party_same_check d x Hd Hx) as H.
  unfold same_check in H.
  apply andb_prop in H as [H Ht]. apply andb_prop in H as [H Hb].
  apply andb_prop in H as [Hbase Hc].
  unfold conflicts. cbn [approved_row row_data row_status is_approved andb].
  rewrite Hbase, Hb, Ht, Hc. cbn [andb]. apply orb_true_r.
Qed.

Lemma advance_lookup_taken (d x : TxData) :
  party d -> party x ->
  advance d successMessage at_lookup (st0 ++ [approved_row x])
  = (finished (ret (found_existing successMessage)), st0 ++ [approved_row x]).
Proof.
  intros Hd Hx. unfold advance, findExistingTransaction.
  rewrite (party_key d Hd). cbn [negb andb transaction_findFirst table].
  rewrite find_app, (unseen_find d st0 (party_unseen d Hd)).
  cbn [find]. rewrite (party_matches d x Hd Hx). reflexivity.
Qed.

Lemma advance_insert_taken (d x : TxData) :
  party d -> party x ->
  advance d successMessage at_insert (st0 ++ [approved_row x])
  = (finished (ret (conflict_recovered successMessage)),
     st0 ++ [approved_row x]).
Proof.
  intros Hd Hx. unfold advance, createApprovedTransaction.
  cbn [transaction_create table]. fold (approved_row d).
  rewrite existsb_app. cbn [existsb].
  rewrite (party_conflicts d x Hd Hx), orb_true_r.
  unfold unique_violation, throw. rewrite (party_key d Hd). reflexivity.
Qed.

Lemma advance_fresh (d : TxData) (p p' : Phase) (st' : Store) :
  party d -> pending p ->
  advance d successMessage p st0 = (p', st') ->
  (pending p' /\ st' = st0)
  \/ (fine p' /\ st' = st0 ++ [approved_row d]).
Proof.
  intros Hd [-> | ->] Hadv.
  - rewrite (advance_lookup_fresh d Hd) in Hadv. injection Hadv as <- <-.
    left. split; [right; reflexivity | reflexivity].
  - rewrite (advance_insert_fresh d Hd) in Hadv. injection Hadv as <- <-.
    right. split; [| reflexivity]. right. eexists. split; reflexivity.
Qed.

Lemma advance_taken (d x : TxData) (p p' : Phase) (st' : Store) :
  party d -> party x -> fine p ->
  advance d successMessage p (st0 ++ [approved_row x]) = (p', st') ->
  fine p' /\ st' = st0 ++ [approved_row x].
Proof.
  intros Hd Hx [[-> | ->] | (o & -> & Ho)] Hadv.
  - rewrite (advance_lookup_taken d x Hd Hx) in Hadv. injection Hadv as <- <-.
    split; [| reflexivity]. right. eexists. split; reflexivity.
  - rewrite (advance_insert_taken d x Hd Hx) in Hadv. injection Hadv as <- <-.
    split; [| reflexivity]. right. eexists. split; reflexivity.
  - cbn in Hadv. injection Hadv as <- <-.
    split; [| reflexivity]. right. eauto.
Qed.

Lemma pending_fine (p : Phase) : pending p -> fine p.
Proof. intros H. left. exact H. Qed.

Lemma Inv_cases (pa pb : Phase) (st : Store) :
  Inv (pa, pb, st) ->
  (pending pa /\ pending pb /\ st = st0)
  \/ (exists x, party x /\ fine pa /\ fine pb /\ st = st0 ++ [approved_row x]).
Proof.
  intros HI. inversion HI as [qa qb Hpa Hpb | qa qb x Hx Hfa Hfb].
  - left. auto.
  - right. exists x. auto.
Qed.

Lemma step_Inv (c c' : Config) :
  Inv c -> step first second successMessage c c' -> Inv c'.
Proof.
  intros HI Hstep.
  destruct Hstep as [pa pb st pa' st' Hadv | pa pb st pb' st' Hadv];
    destruct (Inv_cases pa pb st HI)
      as [(Hpa & Hpb & Hst) | (x & Hx & Hfa & Hfb & Hst)];
    rewrite Hst in Hadv.
  - destruct (advance_fresh first pa pa' st' (or_introl eq_refl) Hpa Hadv)
      as [[Hp Hst'] | [Hp Hst']]; rewrite Hst'.
    + now apply inv_fresh.
    + apply inv_taken; [now left | exact Hp | now apply pending_fine].
  - destruct (advance_taken first x pa pa' st' (or_introl eq_refl) Hx Hfa Hadv)
      as [Hp Hst']; rewrite Hst'.
    now apply inv_taken.
  - destruct (advance_fresh second pb pb' st' (or_intror eq_refl) Hpb Hadv)
      as [[Hp Hst'] | [Hp Hst']]; rewrite Hst'.
    + now apply inv_fresh.
    + apply inv_taken; [now right | now apply pending_fine | exact Hp].
  - destruct (advance_taken second x pb pb' st' (or_intror eq_refl) Hx Hfb Hadv)
      as [Hp Hst']; rewrite Hst'.
    now apply inv_taken.
Qed.

Lemma runs_Inv (c c' : Config) :
  runs first second successMessage c c' -> Inv c -> Inv c'.
Proof.
  induction 1 as [c | c c1 c2 Hstep _ IH]; intros HI; [exact HI |].
  apply IH. exact (step_Inv c c1 HI Hstep).
Qed.

Lemma unseen_no_record (d : TxData) (st : Store) :
  unseen d st = true -> approved_records d st = [].
Proof.
  induction st as [| r st IH]; [reflexivity |].
  cbn [unseen forallb approved_records filter].
  intros H. apply andb_prop in H as [Hr Hst].
  fold (approved_records d st). rewrite (IH Hst).
  destruct (same_base d (row_data r)); cbn in *;
    [| now rewrite andb_false_r].
  destruct (same_text (check_number d) (check_number (row_data r)));
    cbn in *; [discriminate | now rewrite andb_false_r].
Qed.

Lemma finished_fine (r : Res Outcome) : fine (finished r) -> succeeded r = true.
Proof.
  intros [[H | H] | (o & H & Ho)]; try discriminate.
  injection H as ->. exact Ho.
Qed.

(** Every interleaving that lets both submissions finish leaves exactly
    one approved record and gives both callers success. *)
Lemma exactly_once (ra rb : Res Outcome) (st : Store) :
  runs first second successMessage (at_lookup, at_lookup, st0)
       (finished ra, finished rb, st) ->
  List.length (approved_records first st) = 1%nat
  /\ succeeded ra = true /\ succeeded rb = true.
Proof.
  intros Hruns.
  assert (HI : Inv (finished ra, finished rb, st)).
  { apply (runs_Inv _ _ Hruns). apply inv_fresh; left; reflexivity. }
  destruct (Inv_cases _ _ _ HI)
    as [(Hpa & Hpb & Hst) | (x & Hx & Hfa & Hfb & Hst)]; rewrite Hst.
  - destruct Hpa; discriminate.
  - split; [| split; now apply finished_fine].
    unfold approved_records. rewrite filter_app.
    fold (approved_records first st0).
    rewrite (unseen_no_record first st0 Hnew1).
    pose proof (party_same_check first x (or_introl eq_refl) Hx) as H.
    unfold same_check in H.
    apply andb_prop in H as [H _]. apply andb_prop in H as [H _].
    cbn [filter app approved_row row_data row_status is_approved andb].
    rewrite H. reflexivity.
Qed.

(** Both submissions do finish: one after the other is an interleaving. *)
Lemma both_finish :
  runs first second successMessage (at_lookup, at_lookup, st0)
       (finished (ret (inserted successMessage)),
        finished (ret (found_existing successMessage)),
        st0 ++ [approved_row first]).
Proof.
  eapply runs_step.
  { apply step_first. apply advance_lookup_fresh. now left. }
  eapply runs_step.
  { apply step_first. apply advance_insert_fresh. now left. }
  eapply runs_step.
  { apply step_second. apply advance_lookup_taken; [now right | now left]. }
  apply runs_done.
Qed.

End ExactlyOnce.

(** C2, as the code has it: two submissions of the same check, each with a
    non-empty idempotency key, on a table that has not seen the check or
    the keys.  Both submissions can finish, and however their storage
    calls interleave, when both have finished the table holds exactly one
    approved record of the check and both callers have received
    success. *)
Theorem concurrent_submissions_with_keys
        (first second : TxData) (successMessage : string) (st0 : Store) :
  same_check first second = true ->
  truthy_key (idempotency_key first) = true ->
  truthy_key (idempotency_key second) = true ->
  unseen first st0 = true ->
  unseen second st0 = true ->
  (exists ra rb st,
      runs first second successMessage (at_lookup, at_lookup, st0)
           (finished ra, finished rb, st))
  /\ (forall ra rb st,
         runs first second successMessage (at_lookup, at_lookup, st0)
              (finished ra, finished rb, st) ->
         List.length (approved_records first st) = 1%nat
         /\ succeeded ra = true /\ succeeded rb = true).
Proof.
  intros Hsame Hkey1 Hkey2 Hnew1 Hnew2. split.
  - do 3 eexists.
    apply (both_finish first second successMessage st0); assumption.
  - intros ra rb st Hruns.
    apply (exactly_once first second successMessage st0); assumption.
Qed.

Lemma concurrent_submissions_with_keys_witness :
  (exists ra rb st,
      runs keyed_deposit keyed_deposit "Deposit approved"
           (at_lookup, at_lookup, []) (finished ra, finished rb, st))
  /\ (forall ra rb st,
         runs keyed_deposit keyed_deposit "Deposit approved"
              (at_lookup, at_lookup, []) (finished ra, finished rb, st) ->
         List.length (approved_records keyed_deposit st) = 1%nat
         /\ succeeded ra = true /\ succeeded rb = true).
Proof.
  apply (concurrent_submissions_with_keys keyed_deposit keyed_deposit
           "Deposit approved" []); reflexivity.
Defined.

(** C2 as stated fails: two submissions of a check deposit that carry the
    check number and no idempotency key.  When both look the check up
    before either inserts, the second insert meets the uniqueness
    violation and its caller receives the error P2002, not success. *)
Lemma concurrent_submissions_without_key :
  same_check check_deposit check_deposit = true
  /\ unseen check_deposit [] = true
  /\ ~ (forall ra rb st,
          runs check_deposit check_deposit "Deposit approved"
               (at_lookup, at_lookup, []) (finished ra, finished rb, st) ->
          List.length (approved_records check_deposit st) = 1%nat
          /\ succeeded ra = true /\ succeeded rb = true).
Proof.
  split; [reflexivity |]. split; [reflexivity |].
  intros Hall.
  assert (Hrace :
    runs check_deposit check_deposit "Deposit approved"
         (at_lookup, at_lookup, [])
         (finished (ret (inserted "Deposit approved")),
          finished (throw unique_violation),
          [approved_row check_deposit])).
  { eapply runs_step; [apply step_first; reflexivity |].
    eapply runs_step; [apply step_second; reflexivity |].
    eapply runs_step; [apply step_first; reflexivity |].
    eapply runs_step; [apply step_second; reflexivity |].
    apply runs_done. }
  destruct (Hall _ _ _ Hrace) as (_ & _ & Hb). discriminate.
Qed.

End ConcurrentFacts.

(* ================================================================== *)
(** * Properties of the amount canonicalizer *)
(* ================================================================== *)

Section CanonicalFacts.

#[local] Open Scope Z_scope.

(** ** Rounding to binary64 *)

Lemma digits2_pos_bounds (p : positive) :
  2 ^ (Z.pos (digits2_pos p) - 1) <= Z.pos p < 2 ^ Z.pos (digits2_pos p).
Proof.
  induction p as [p IH | p IH |]; cbn [digits2_pos].
  - rewrite Pos2Z.inj_succ. replace (Z.succ (Z.pos (digits2_pos p)) - 1)
      with (Z.succ (Z.pos (digits2_pos p) - 1)) by lia.
    rewrite !Z.pow_succ_r by lia. lia.
  - rewrite Pos2Z.inj_succ. replace (Z.succ (Z.pos (digits2_pos p)) - 1)
      with (Z.succ (Z.pos (digits2_pos p) - 1)) by lia.
    rewrite !Z.pow_succ_r by lia. lia.
  - cbn. lia.
Qed.

Lemma Zdigits2_bounds (m : Z) :
  0 < m -> 2 ^ (Zdigits2 m - 1) <= m < 2 ^ Zdigits2 m.
Proof.
  destruct m as [| p | p]; try lia. intros _. apply digits2_pos_bounds.
Qed.

Lemma Zdigits2_unique (m d : Z) :
  0 < m -> 2 ^ (d - 1) <= m < 2 ^ d -> Zdigits2 m = d.
Proof.
  intros Hm [Hlo Hhi]. pose proof (Zdigits2_bounds m Hm) as [Hlo' Hhi'].
  assert (Hd : 0 < d).
  { destruct (Z_lt_le_dec 0 d) as [H | H]; [exact H |].
    exfalso. destruct (Z.eq_dec d 0) as [-> | Hne].
    - cbn in Hhi. lia.
    - rewrite Z.pow_neg_r in Hhi by lia. lia. }
  assert (Hd' : 0 < Zdigits2 m) by (destruct m; cbn; lia).
  destruct (Z.lt_trichotomy (Zdigits2 m) d) as [H | [H | H]]; [| exact H |].
  - exfalso. assert (2 ^ Zdigits2 m <= 2 ^ (d - 1)) by (apply Z.pow_le_mono_r; lia). lia.
  - exfalso. assert (2 ^ d <= 2 ^ (Zdigits2 m - 1)) by (apply Z.pow_le_mono_r; lia). lia.
Qed.

Lemma shr_1_nonneg (m : Z) (r s : bool) :
  0 <= m ->
  shr_1 {| shr_m := m; shr_r := r; shr_s := s |}
  = {| shr_m := m / 2; shr_r := Z.odd m; shr_s := r || s |}.
Proof.
  intros Hm. rewrite <- Z.div2_div.
  destruct m as [| p | p]; try lia; [reflexivity |].
  destruct p; reflexivity.
Qed.

Lemma represents_shr_1 (mrs : shr_record) (N D : Z) :
  0 < D -> 0 <= N -> Float64.represents mrs N D -> Float64.represents (shr_1 mrs) N (2 * D).
Proof.
  intros HD HN. destruct mrs as [m r s]. unfold Float64.represents. cbn [shr_m shr_r shr_s].
  intros (Hm & Hr & Hs).
  assert (Hm0 : 0 <= m) by (subst m; apply Z.div_pos; lia).
  rewrite shr_1_nonneg by exact Hm0. cbn [shr_m shr_r shr_s].
  pose proof (Z.mod_pos_bound N D HD) as Hrem.
  pose proof (Z.div_mod N D ltac:(lia)) as HNq.
  assert (Hdiv : N / (2 * D) = m / 2).
  { subst m. rewrite (Z.mul_comm 2 D). rewrite Z.div_div by lia. reflexivity. }
  assert (Hmod : N mod (2 * D) = N mod D + D * (m mod 2)).
  { subst m. rewrite (Z.mul_comm 2 D). apply Z.rem_mul_r; lia. }
  pose proof (Z.mod_pos_bound m 2 ltac:(lia)) as Hbit.
  assert (Hodd : Z.odd m = (m mod 2 =? 1)).
  { rewrite Zodd_mod. reflexivity. }
  rewrite Hdiv, Hmod, Hodd, Hr, Hs.
  split; [reflexivity |].
  assert (Hb : m mod 2 = 0 \/ m mod 2 = 1) by lia.
  destruct Hb as [Hb | Hb]; rewrite Hb; cbn [Z.eqb Pos.eqb];
    rewrite ?Z.mul_0_r, ?Z.mul_1_r, ?Z.add_0_r.
  - split.
    + symmetry. apply Z.leb_gt. lia.
    + destruct (Z.leb_spec D (2 * (N mod D))), (Z.eqb_spec (N mod D) 0),
        (Z.eqb_spec (2 * (N mod D)) D),
        (Z.eqb_spec (2 * (N mod D)) (2 * D)); cbn; try reflexivity; lia.
  - split.
    + symmetry. apply Z.leb_le. lia.
    + destruct (Z.leb_spec D (2 * (N mod D))), (Z.eqb_spec (N mod D) 0),
        (Z.eqb_spec (2 * (N mod D)) D),
        (Z.eqb_spec (N mod D + D) 0),
        (Z.eqb_spec (2 * (N mod D + D)) (2 * D)); cbn; try reflexivity; lia.
Qed.

Lemma represents_iter (p : positive) :
  forall (mrs : shr_record) (N D : Z),
    0 < D -> 0 <= N -> Float64.represents mrs N D ->
    Float64.represents (iter_pos shr_1 p mrs) N (D * 2 ^ Z.pos p).
Proof.
  induction p as [p IH | p IH |]; intros mrs N D HD HN Hrep; cbn [iter_pos].
  - replace (D * 2 ^ Z.pos p~1) with ((2 * D) * 2 ^ Z.pos p * 2 ^ Z.pos p).
    + apply IH; [| exact HN |].
      * assert (0 < 2 ^ Z.pos p) by (apply Z.pow_pos_nonneg; lia). nia.
      * apply IH; [lia | exact HN |]. apply represents_shr_1; assumption.
    + replace (Z.pos p~1) with (Z.pos p + Z.pos p + 1) by lia.
      rewrite !Z.pow_add_r by lia. change (2 ^ 1) with 2. ring.
  - replace (D * 2 ^ Z.pos p~0) with (D * 2 ^ Z.pos p * 2 ^ Z.pos p).
    + apply IH; [| exact HN |].
      * assert (0 < 2 ^ Z.pos p) by (apply Z.pow_pos_nonneg; lia). nia.
      * apply IH; assumption.
    + replace (Z.pos p~0) with (Z.pos p + Z.pos p) by lia.
      rewrite !Z.pow_add_r by lia. ring.
  - change (2 ^ 1) with 2. rewrite Z.mul_comm. apply represents_shr_1; assumption.
Qed.

(** Shifting by [k >= 0] places. *)
Lemma represents_shr (mrs : shr_record) (e k N D : Z) :
  0 < D -> 0 <= N -> 0 <= k -> Float64.represents mrs N D ->
  Float64.represents (fst (shr mrs e k)) N (D * 2 ^ k) /\ snd (shr mrs e k) = e + k.
Proof.
  intros HD HN Hk Hrep. unfold shr. destruct k as [| p | p]; try lia; cbn [fst snd].
  - rewrite Z.mul_1_r. split; [exact Hrep | lia].
  - split; [| reflexivity]. apply represents_iter; assumption.
Qed.

Lemma represents_round (mrs : shr_record) (N D : Z) :
  0 < D -> 0 <= N -> Float64.represents mrs N D ->
  let M := round_nearest_even (shr_m mrs) (loc_of_shr_record mrs) in
  - D <= 2 * (M * D - N) <= D /\ (M = N / D \/ M = N / D + 1).
Proof.
  intros HD HN. destruct mrs as [m r s]. unfold Float64.represents. cbn [shr_m shr_r shr_s].
  intros (Hm & Hr & Hs).
  pose proof (Z.mod_pos_bound N D HD) as Hrem.
  pose proof (Z.div_mod N D ltac:(lia)) as HNq. rewrite <- Hm in HNq.
  cbv zeta. rewrite <- Hm.
  destruct (Z.leb_spec D (2 * (N mod D))), (Z.eqb_spec (N mod D) 0),
    (Z.eqb_spec (2 * (N mod D)) D); cbn in Hs; subst r s;
    cbn [loc_of_shr_record round_nearest_even]; try lia;
    try destruct (Z.even m); split; try nia; auto.
Qed.

Lemma fexp_normal (x : Z) : -1074 <= x - 53 -> fexp 53 1024 x = x - 53.
Proof. intros H. unfold fexp, emin. lia. Qed.

Lemma round_aux_normal (s : bool) (m e : Z) (l : location) (N D : Z) :
  0 < D -> 0 <= N ->
  Float64.represents (shr_record_of_loc m l) N D ->
  53 <= Zdigits2 m ->
  -1074 <= Zdigits2 m + e - 53 ->
  Zdigits2 m + e - 52 <= 971 ->
  exists (Y : positive) (k : Z),
    binary_round_aux 53 1024 s m e l = S754_finite s Y (e + k)
    /\ (k = Zdigits2 m - 53 \/ k = Zdigits2 m - 52)
    /\ 2 ^ 52 <= Z.pos Y < 2 ^ 53
    /\ - (D * 2 ^ k) <= 2 * (Z.pos Y * 2 ^ k * D - N) <= D * 2 ^ k.
Proof.
  intros HD HN Hrep Hd Hlo Hhi.
  assert (Hm : m = N / D).
  { destruct Hrep as (Hm & _). destruct l as [| []]; exact Hm. }
  assert (Hmpos : 0 < m).
  { assert (0 <= m) by (rewrite Hm; apply Z.div_pos; lia).
    destruct m; cbn in Hd; lia. }
  set (d := Zdigits2 m) in *.
  pose proof (Zdigits2_bounds m Hmpos) as Hmb. fold d in Hmb.
  set (k0 := d - 53).
  assert (Hk0 : 0 <= k0) by (unfold k0; lia).
  assert (HK0 : 0 < 2 ^ k0) by (apply Z.pow_pos_nonneg; lia).
  assert (Hsplit : 2 ^ (d - 1) = 2 ^ 52 * 2 ^ k0).
  { rewrite <- Z.pow_add_r by lia. f_equal. unfold k0. lia. }
  assert (Hsplit' : 2 ^ d = 2 ^ 53 * 2 ^ k0).
  { rewrite <- Z.pow_add_r by lia. f_equal. unfold k0. lia. }
  unfold binary_round_aux, shr_fexp. fold d.
  rewrite fexp_normal by lia.
  replace (d + e - 53 - e) with k0 by (unfold k0; lia).
  destruct (represents_shr (shr_record_of_loc m l) e k0 N D HD HN Hk0 Hrep)
    as [Hrep1 He1].
  destruct (shr (shr_record_of_loc m l) e k0) as [mrs1 e1].
  cbn [fst snd] in Hrep1, He1. subst e1.
  assert (HD1 : 0 < D * 2 ^ k0) by nia.
  destruct (represents_round mrs1 N (D * 2 ^ k0) HD1 HN Hrep1) as [Herr HM].
  set (M := round_nearest_even (shr_m mrs1) (loc_of_shr_record mrs1)) in *.
  assert (Hm1 : N / (D * 2 ^ k0) = m / 2 ^ k0).
  { rewrite Hm. rewrite Z.div_div by lia. reflexivity. }
  assert (Hm1b : 2 ^ 52 <= m / 2 ^ k0 < 2 ^ 53).
  { split.
    - apply Z.div_le_lower_bound; lia.
    - apply Z.div_lt_upper_bound; lia. }
  rewrite Hm1 in HM.
  assert (HMb : 2 ^ 52 <= M <= 2 ^ 53) by lia.
  destruct (Z.eq_dec M (2 ^ 53)) as [Htop | Hnot].
  - (* the rounding carried into a new binade *)
    rewrite Htop in *.
    change (Zdigits2 (2 ^ 53)) with 54.
    rewrite fexp_normal by lia.
    replace (54 + (e + k0) - 53 - (e + k0)) with 1 by lia.
    cbn [shr shr_record_of_loc iter_pos].
    change (shr_m (shr_1 {| shr_m := 2 ^ 53; shr_r := false; shr_s := false |}))
      with (2 ^ 52).
    change (2 ^ 52) with (Z.pos (2 ^ 52)%positive) at 1.
    cbv iota beta.
    replace (e + k0 + 1 <=? 1024 - 53) with true by (symmetry; apply Z.leb_le; lia).
    exists (2 ^ 52)%positive, (k0 + 1). split; [f_equal; lia |].
    split; [right; unfold k0; lia |].
    split; [change (Z.pos (2 ^ 52)) with (2 ^ 52); lia |].
    rewrite Z.pow_add_r by lia. change (2 ^ 1) with 2.
    change (Z.pos (2 ^ 52)) with (2 ^ 52).
    change (2 ^ 53) with (2 ^ 52 * 2) in Herr. nia.
  - assert (HMd : Zdigits2 M = 53).
    { apply Zdigits2_unique; [lia |]. change (53 - 1) with 52. lia. }
    rewrite HMd. rewrite fexp_normal by lia.
    replace (53 + (e + k0) - 53 - (e + k0)) with 0 by lia.
    cbn [shr shr_record_of_loc shr_m].
    destruct M as [| Y | Y] eqn:HMeq; try lia.
    replace (e + k0 <=? 1024 - 53) with true by (symmetry; apply Z.leb_le; lia).
    exists Y, k0. split; [reflexivity |].
    split; [left; reflexivity |].
    split; [lia |]. nia.
Qed.



Lemma represents_division (N D : Z) :
  0 < D -> 0 <= N -> Z.even D = true ->
  Float64.represents (shr_record_of_loc (N / D) (new_location D (N mod D))) N D.
Proof.
  intros HD HN Heven. unfold new_location. rewrite Heven. unfold new_location_even.
  pose proof (Z.mod_pos_bound N D HD) as Hrem.
  unfold Float64.represents.
  destruct (Z.eqb_spec (N mod D) 0) as [H0 | H0].
  - cbn. rewrite H0. cbn. repeat split. symmetry. apply Z.leb_gt. lia.
  - destruct (Z.compare_spec (2 * (N mod D)) D) as [Hc | Hc | Hc];
      cbn [shr_record_of_loc shr_m shr_r shr_s]; repeat split.
    + symmetry. apply Z.leb_le. lia.
    + rewrite Hc, Z.eqb_refl. reflexivity.
    + symmetry. apply Z.leb_gt. lia.
    + destruct (Z.eqb_spec (2 * (N mod D)) D); [lia | reflexivity].
    + symmetry. apply Z.leb_le. lia.
    + destruct (Z.eqb_spec (2 * (N mod D)) D); [lia | reflexivity].
Qed.

Lemma of_decimal_pos (negative : bool) (m : Z) (k : nat) :
  0 < m ->
  Float64.of_decimal negative m k
  = let '(q, e, l) := SFdiv_core_binary 53 1024 m 0 (10 ^ Z.of_nat k) 0 in
    binary_round_aux 53 1024 negative q e l.
Proof. intros Hm. destruct m; try lia. reflexivity. Qed.

(** The double nearest to [n / 100]: a 53-bit mantissa [Y] at the exponent
    [- a], within half a unit in the last place. *)
Lemma of_decimal_cents (n : Z) :
  0 < n < 2 ^ 51 ->
  exists (Y : positive) (a : Z),
    Float64.of_decimal false n 2 = S754_finite false Y (- a)
    /\ 8 <= a <= 59
    /\ 2 ^ 52 <= Z.pos Y < 2 ^ 53
    /\ -50 <= 100 * Z.pos Y - n * 2 ^ a <= 50.
Proof.
  intros Hn.
  pose proof (Zdigits2_bounds n ltac:(lia)) as Hd.
  assert (Hd0 : 1 <= Zdigits2 n) by (destruct n; cbn; lia).
  set (d := Zdigits2 n) in *.
  assert (Hd1 : d <= 51).
  { destruct (Z_le_gt_dec d 51) as [H | H]; [exact H | exfalso].
    assert (2 ^ 51 <= 2 ^ (d - 1)) by (apply Z.pow_le_mono_r; lia). lia. }
  rewrite of_decimal_pos by lia.
  change (10 ^ Z.of_nat 2) with 100.
  unfold SFdiv_core_binary. fold d.
  change (Zdigits2 100) with 7.
  rewrite fexp_normal by lia.
  replace (Z.min (d + 0 - (7 + 0) - 53) (0 - 0)) with (d - 60) by lia.
  replace (0 - 0 - (d - 60)) with (60 - d) by lia.
  set (sh := 60 - d).
  assert (Hsh : 9 <= sh <= 59) by (unfold sh; lia).
  assert (Hshift : match sh with
                   | 0 => n
                   | Z.pos _ => Z.shiftl n sh
                   | Z.neg _ => 0
                   end = n * 2 ^ sh).
  { destruct sh eqn:E; try lia. rewrite Z.shiftl_mul_pow2 by lia. reflexivity. }
  cbv zeta. rewrite Hshift.
  set (N := n * 2 ^ sh).
  assert (HS : 0 < 2 ^ sh) by (apply Z.pow_pos_nonneg; lia).
  assert (HNb : 2 ^ 59 <= N < 2 ^ 60).
  { unfold N.
    assert (H1 : 2 ^ 59 = 2 ^ (d - 1) * 2 ^ sh).
    { rewrite <- Z.pow_add_r by lia. f_equal. lia. }
    assert (H2 : 2 ^ 60 = 2 ^ d * 2 ^ sh).
    { rewrite <- Z.pow_add_r by lia. f_equal. lia. }
    rewrite H1, H2. nia. }
  assert (Hqr : Z.div_eucl N 100 = (N / 100, N mod 100)).
  { unfold Z.div, Z.modulo. destruct (Z.div_eucl N 100). reflexivity. }
  rewrite Hqr.
  assert (Hq : 2 ^ 52 <= N / 100 < 2 ^ 54).
  { split.
    - apply Z.div_le_lower_bound; [lia |]. change (2 ^ 59) with 576460752303423488 in HNb.
      change (2 ^ 52) with 4503599627370496. lia.
    - apply Z.div_lt_upper_bound; [lia |]. change (2 ^ 60) with 1152921504606846976 in HNb.
      change (2 ^ 54) with 18014398509481984. lia. }
  assert (Hdq : Zdigits2 (N / 100) = 53 \/ Zdigits2 (N / 100) = 54).
  { destruct (Z_lt_le_dec (N / 100) (2 ^ 53)) as [H | H].
    - left. apply Zdigits2_unique; [lia |]. change (53 - 1) with 52. lia.
    - right. apply Zdigits2_unique; [lia |]. change (54 - 1) with 53. lia. }
  destruct (round_aux_normal false (N / 100) (d - 60) (new_location 100 (N mod 100))
              N 100 ltac:(lia) ltac:(lia)
              (represents_division N 100 ltac:(lia) ltac:(lia) eq_refl)
              ltac:(lia) ltac:(lia) ltac:(lia))
    as (Y & k & Hres & Hk & HY & Herr).
  assert (Hk2 : 0 <= k <= 2) by lia.
  assert (HK : 0 < 2 ^ k) by (apply Z.pow_pos_nonneg; lia).
  assert (Hsplit : 2 ^ sh = 2 ^ (sh - k) * 2 ^ k).
  { rewrite <- Z.pow_add_r by lia. f_equal. lia. }
  assert (HA : -50 <= 100 * Z.pos Y - n * 2 ^ (sh - k) <= 50).
  { unfold N in Herr. rewrite Hsplit in Herr.
    assert (HE : 0 < 2 ^ (sh - k)) by (apply Z.pow_pos_nonneg; lia).
    nia. }
  assert (Ha8 : 8 <= sh - k).
  { destruct (Z_le_gt_dec 8 (sh - k)) as [H | H]; [exact H | exfalso].
    assert (2 ^ (sh - k) <= 2 ^ 7) by (apply Z.pow_le_mono_r; lia).
    change (2 ^ 7) with 128 in *. change (2 ^ 51) with 2251799813685248 in *.
    change (2 ^ 52) with 4503599627370496 in *. nia. }
  exists Y, (sh - k). split.
  - rewrite Hres. f_equal. unfold sh. lia.
  - split; [lia |]. split; assumption.
Qed.

Lemma represents_exact (m : Z) :
  Float64.represents (shr_record_of_loc m loc_Exact) m 1.
Proof.
  unfold Float64.represents. cbn [shr_record_of_loc shr_m shr_r shr_s].
  rewrite Z.div_1_r, Z.mod_1_r. repeat split.
Qed.

(** Multiplying the double nearest to [n / 100] by 100 and rounding to the
    nearest integer gives [n] back. *)
Lemma mul_round_cents (n : Z) (Y : positive) (a : Z) :
  0 < n < 2 ^ 51 ->
  8 <= a <= 59 ->
  2 ^ 52 <= Z.pos Y < 2 ^ 53 ->
  -50 <= 100 * Z.pos Y - n * 2 ^ a <= 50 ->
  Float64.round (Float64.mul (S754_finite false Y (- a)) (Float64.of_Z 100))
  = Float64.Int n.
Proof.
  intros Hn Ha HY HA.
  change (Float64.of_Z 100) with (S754_finite false 7036874417766400 (-46)).
  unfold Float64.mul, SFmul, Float64.prec, Float64.emax. cbn [xorb].
  set (h := 7036874417766400%positive).
  set (T := 2 ^ 46).
  assert (HT : 0 < T) by reflexivity.
  assert (Hh : Z.pos h = 100 * T) by reflexivity.
  assert (HP : Z.pos (Y * h) = Z.pos Y * 100 * T).
  { rewrite Pos2Z.inj_mul, Hh. ring. }
  set (P := Z.pos (Y * h)) in *.
  assert (HPb : 2 ^ 104 <= P < 2 ^ 106).
  { rewrite HP.
    change (2 ^ 104) with (2 ^ 52 * 64 * T).
    change (2 ^ 106) with (2 ^ 53 * 128 * T).
    split.
    - apply Z.mul_le_mono_nonneg_r; lia.
    - apply Z.mul_lt_mono_pos_r; lia. }
  assert (Hd : Zdigits2 P = 105 \/ Zdigits2 P = 106).
  { destruct (Z_lt_le_dec P (2 ^ 105)) as [H | H].
    - left. apply Zdigits2_unique; [lia |]. change (105 - 1) with 104. lia.
    - right. apply Zdigits2_unique; [lia |]. change (106 - 1) with 105. lia. }
  destruct (round_aux_normal false P (- a + -46) loc_Exact P 1
              ltac:(lia) ltac:(lia) (represents_exact P)
              ltac:(lia) ltac:(lia) ltac:(lia))
    as (Y2 & k & Hres & Hk & HY2 & Herr).
  rewrite Hres. clear Hres.
  assert (Hk3 : 52 <= k <= 54) by lia.
  set (b := a + 46 - k).
  assert (Hb0 : 0 <= b) by (unfold b; lia).
  replace (- a + -46 + k) with (- b) by (unfold b; lia).
  set (E := 2 ^ a) in *. set (F := 2 ^ b).
  set (K := 2 ^ k) in *.
  assert (HE : 256 <= E).
  { unfold E. change 256 with (2 ^ 8). apply Z.pow_le_mono_r; lia. }
  assert (HF : 0 < F) by (apply Z.pow_pos_nonneg; lia).
  assert (HK : 0 < K) by (apply Z.pow_pos_nonneg; lia).
  assert (Hexp : T * E = K * F).
  { unfold T, E, K, F. rewrite <- !Z.pow_add_r by lia. f_equal. unfold b. lia. }
  (* the product is within half a unit of 100 * Y / E, in units of 1 / F *)
  set (B := Z.pos Y2 * E - 100 * Z.pos Y * F).
  assert (HB : - E <= 2 * B <= E).
  { rewrite HP in Herr. rewrite !Z.mul_1_l, !Z.mul_1_r in Herr.
    assert (H1 : T * (2 * B) = F * (2 * (Z.pos Y2 * K - Z.pos Y * 100 * T))).
    { unfold B.
      replace (T * (2 * (Z.pos Y2 * E - 100 * Z.pos Y * F)))
        with (2 * Z.pos Y2 * (T * E) - 2 * 100 * Z.pos Y * F * T) by ring.
      rewrite Hexp. ring. }
    assert (H2 : T * (- E) <= T * (2 * B) <= T * E).
    { assert (Hlo : T * - E = F * - K).
      { replace (T * - E) with (- (T * E)) by ring. rewrite Hexp. ring. }
      assert (Hhi : T * E = F * K) by (rewrite Hexp; ring).
      rewrite H1, Hlo, Hhi.
      split; apply Z.mul_le_mono_nonneg_l; lia. }
    split; apply (Z.mul_le_mono_pos_l _ _ T HT); lia. }
  set (A := 100 * Z.pos Y - n * E) in *.
  set (X := Z.pos Y2 - n * F).
  assert (HXeq : 2 * X * E = 2 * B + 2 * (F * A)) by (unfold X, B, A; ring).
  assert (HFA : - (50 * F) <= F * A <= 50 * F).
  { split.
    - replace (- (50 * F)) with (F * -50) by ring.
      apply Z.mul_le_mono_nonneg_l; lia.
    - rewrite (Z.mul_comm 50 F). apply Z.mul_le_mono_nonneg_l; lia. }
  assert (HX : - (E + 100 * F) <= 2 * X * E <= E + 100 * F) by lia.
  assert (HF2 : 2 <= F).
  { destruct (Z.eq_dec b 0) as [Hb | Hb].
    - exfalso. assert (HF1 : F = 1) by (unfold F; rewrite Hb; reflexivity).
      assert (HW : 1 <= 2 * X - 1).
      { unfold X. rewrite HF1.
        change (2 ^ 52) with 4503599627370496 in HY2.
        change (2 ^ 51) with 2251799813685248 in Hn. lia. }
      assert (HWE : 1 * E <= (2 * X - 1) * E).
      { apply Z.mul_le_mono_nonneg_r; lia. }
      rewrite HF1 in HX. lia.
    - unfold F. change 2 with (2 ^ 1) at 1. apply Z.pow_le_mono_r; lia. }
  assert (Hmargin : E + 100 * F < F * E).
  { pose proof (Z.mul_nonneg_nonneg (F - 2) (E - 256) ltac:(lia) ltac:(lia)). lia. }
  assert (HXF : - F <= 2 * X < F).
  { split.
    - destruct (Z_le_gt_dec (- F) (2 * X)) as [H | H]; [exact H | exfalso].
      assert ((2 * X) * E <= (- F - 1) * E)
        by (apply Z.mul_le_mono_nonneg_r; lia).
      lia.
    - destruct (Z_lt_le_dec (2 * X) F) as [H | H]; [exact H | exfalso].
      assert (F * E <= (2 * X) * E) by (apply Z.mul_le_mono_nonneg_r; lia).
      lia. }
  unfold Float64.round.
  replace (0 <=? - b) with false.
  2:{ symmetry. apply Z.leb_gt.
      destruct (Z.eq_dec b 0) as [Hb | Hb]; [| lia].
      exfalso. unfold F in HF2. rewrite Hb in HF2. cbn in HF2. lia. }
  f_equal.
  replace (- - b) with b by lia.
  replace (2 ^ (1 - - b)) with (2 * F).
  2:{ unfold F. replace (1 - - b) with (1 + b) by lia.
      rewrite Z.pow_add_r by lia. reflexivity. }
  fold F. symmetry. apply Z.div_unique with (r := 2 * X + F).
  - left. lia.
  - unfold X. ring.
Qed.

#[local] Close Scope Z_scope.
#[local] Open Scope string_scope.

(** ** Decimal literals *)

Lemma digit_char_spec (d : Z) :
  (0 <= d < 10)%Z ->
  Js.is_digit (Js.digit_char d) = true
  /\ Z.of_nat (Js.code (Js.digit_char d) - 48) = d.
Proof.
  intros Hd.
  assert (H : (d = 0 \/ d = 1 \/ d = 2 \/ d = 3 \/ d = 4 \/ d = 5 \/ d = 6
               \/ d = 7 \/ d = 8 \/ d = 9)%Z) by lia.
  repeat (destruct H as [-> | H]; [split; reflexivity |]).
  subst d. split; reflexivity.
Qed.

Lemma forall_chars_app (p : ascii -> bool) (s1 s2 : string) :
  Js.forall_chars p (s1 ++ s2) = Js.forall_chars p s1 && Js.forall_chars p s2.
Proof.
  induction s1 as [| c s1 IH]; cbn; [reflexivity |].
  rewrite IH. apply andb_assoc.
Qed.

Lemma filter_chars_all (p : ascii -> bool) (s : string) :
  Js.forall_chars p s = true -> Js.filter_chars p s = s.
Proof.
  induction s as [| c s IH]; cbn; [reflexivity |].
  intros H. apply andb_prop in H as [Hc Hs]. rewrite Hc, (IH Hs). reflexivity.
Qed.

Lemma forall_chars_weaken (p q : ascii -> bool) (s : string) :
  (forall c, p c = true -> q c = true) ->
  Js.forall_chars p s = true -> Js.forall_chars q s = true.
Proof.
  intros Hpq. induction s as [| c s IH]; cbn; [reflexivity |].
  intros H. apply andb_prop in H as [Hc Hs]. rewrite (Hpq c Hc), (IH Hs). reflexivity.
Qed.

Lemma digits_value_from_app (s1 s2 : string) :
  forall a, Js.digits_value_from a (s1 ++ s2)
            = Js.digits_value_from (Js.digits_value_from a s1) s2.
Proof.
  induction s1 as [| c s1 IH]; intros a; cbn; [reflexivity | apply IH].
Qed.

Lemma render_nat_fuel_digits (fuel : nat) :
  forall (n : Z) (acc : string),
    (0 <= n)%Z -> Js.forall_chars Js.is_digit acc = true ->
    Js.forall_chars Js.is_digit (Js.render_nat_fuel fuel n acc) = true.
Proof.
  induction fuel as [| fuel IH]; intros n acc Hn Hacc; cbn [Js.render_nat_fuel].
  - exact Hacc.
  - assert (Hd : Js.forall_chars Js.is_digit
                   (String (Js.digit_char (n mod 10)) acc) = true).
    { cbn [Js.forall_chars]. rewrite Hacc.
      destruct (digit_char_spec (n mod 10)) as [-> _];
        [apply Z.mod_pos_bound; lia | reflexivity]. }
    destruct (n / 10 =? 0)%Z; [exact Hd |].
    apply IH; [apply Z.div_pos; lia | exact Hd].
Qed.

Lemma render_nat_fuel_value (fuel : nat) :
  forall (n : Z) (acc : string),
    (0 <= n < 10 ^ Z.of_nat fuel)%Z ->
    Js.digits_value_from 0 (Js.render_nat_fuel fuel n acc)
    = Js.digits_value_from n acc.
Proof.
  induction fuel as [| fuel IH]; intros n acc Hn; cbn [Js.render_nat_fuel].
  - cbn in Hn. replace n with 0%Z by lia. reflexivity.
  - pose proof (Z.mod_pos_bound n 10 ltac:(lia)) as Hmod.
    pose proof (Z.div_mod n 10 ltac:(lia)) as Hdm.
    destruct (digit_char_spec (n mod 10) Hmod) as [_ Hcode].
    destruct (Z.eqb_spec (n / 10) 0) as [Hz | Hnz].
    + cbn [Js.digits_value_from]. rewrite Hcode. f_equal. lia.
    + rewrite IH.
      * cbn [Js.digits_value_from]. rewrite Hcode. f_equal. lia.
      * split; [apply Z.div_pos; lia |].
        apply Z.div_lt_upper_bound; [lia |].
        rewrite Nat2Z.inj_succ, Z.pow_succ_r in Hn by lia. lia.
Qed.

Lemma render_nat_fuel_nonempty (fuel : nat) :
  forall (n : Z) (acc : string),
    Js.nonempty acc = true ->
    Js.nonempty (Js.render_nat_fuel fuel n acc) = true.
Proof.
  induction fuel as [| fuel IH]; intros n acc Hacc; cbn [Js.render_nat_fuel].
  - exact Hacc.
  - destruct (n / 10 =? 0)%Z; [reflexivity |]. apply IH. reflexivity.
Qed.

Lemma render_nat_spec (n : Z) :
  (0 <= n)%Z ->
  Js.forall_chars Js.is_digit (Js.render_nat n) = true
  /\ Js.nonempty (Js.render_nat n) = true
  /\ Js.digits_value (Js.render_nat n) = n.
Proof.
  intros Hn. unfold Js.render_nat. split; [| split].
  - apply render_nat_fuel_digits; [exact Hn | reflexivity].
  - cbn [Js.render_nat_fuel]. destruct (n / 10 =? 0)%Z; [reflexivity |].
    apply render_nat_fuel_nonempty. reflexivity.
  - unfold Js.digits_value. rewrite render_nat_fuel_value; [reflexivity |].
    split; [exact Hn |].
    rewrite Nat2Z.inj_succ, Z2Nat.id by apply Z.log2_nonneg.
    destruct (Z.eq_dec n 0) as [-> | Hnz]; [reflexivity |].
    pose proof (Z.log2_spec n ltac:(lia)) as [_ Hlt].
    assert (2 ^ Z.succ (Z.log2 n) <= 10 ^ Z.succ (Z.log2 n))%Z.
    { apply Z.pow_le_mono_l. lia. }
    lia.
Qed.

Lemma span_all (p : ascii -> bool) (s : string) :
  Js.forall_chars p s = true -> Float64.span p s = (s, EmptyString).
Proof.
  induction s as [| c s IH]; cbn; [reflexivity |].
  intros H. apply andb_prop in H as [Hc Hs]. rewrite Hc, (IH Hs). reflexivity.
Qed.

Lemma span_until (p : ascii -> bool) (s1 : string) (c : ascii) (s2 : string) :
  Js.forall_chars p s1 = true -> p c = false ->
  Float64.span p (s1 ++ String c s2) = (s1, String c s2).
Proof.
  intros H1 Hc. induction s1 as [| c1 s1 IH]; cbn.
  - rewrite Hc. reflexivity.
  - cbn in H1. apply andb_prop in H1 as [Hc1 Hs1].
    rewrite Hc1, (IH Hs1). reflexivity.
Qed.

(** [Number] of a decimal literal [int.frac]. *)
Lemma Number_of_decimal_literal (int_part frac_part : string) :
  Js.nonempty int_part = true ->
  Js.forall_chars Js.is_digit int_part = true ->
  Js.forall_chars Js.is_digit frac_part = true ->
  Float64.Number_of_stripped (int_part ++ "." ++ frac_part)
  = Float64.of_decimal false (Js.digits_value (int_part ++ frac_part))
      (String.length frac_part).
Proof.
  intros Hne Hint Hfrac.
  destruct int_part as [| c0 rest0]; [discriminate |].
  assert (Hc0 : Js.is_digit c0 = true).
  { cbn in Hint. apply andb_prop in Hint as [H _]. exact H. }
  unfold Float64.Number_of_stripped.
  change ((String c0 rest0 ++ "." ++ frac_part))
    with (String c0 (rest0 ++ "." ++ frac_part)).
  cbv iota.
  assert (Hsign :
    match String c0 (rest0 ++ "." ++ frac_part) with
    | String "-"%char s' => (true, s')
    | _ => (false, String c0 (rest0 ++ "." ++ frac_part))
    end = (false, String c0 (rest0 ++ "." ++ frac_part))).
  { destruct c0 as [[] [] [] [] [] [] [] []]; try reflexivity; discriminate Hc0. }
  rewrite Hsign.
  change (String c0 (rest0 ++ "." ++ frac_part))
    with (String c0 rest0 ++ String "." frac_part).
  rewrite (span_until Js.is_digit (String c0 rest0) "." frac_part Hint eq_refl).
  cbv iota beta.
  rewrite (span_all Js.is_digit frac_part Hfrac).
  cbv iota beta. cbn [Js.nonempty orb]. reflexivity.
Qed.

(** The rendering of [n] cents reads back as [n / 100]. *)
Lemma Number_render_cents (n : Z) :
  (0 <= n)%Z ->
  Js.nonempty (render_cents n) = true
  /\ Float64.strip (render_cents n) = render_cents n
  /\ Float64.Number_of_stripped (render_cents n) = Float64.of_decimal false n 2.
Proof.
  intros Hn. unfold render_cents.
  destruct (render_nat_spec (n / 100)%Z ltac:(apply Z.div_pos; lia))
    as (Hdigits & Hne & Hvalue).
  pose proof (Z.mod_pos_bound n 10 ltac:(lia)) as Hd0.
  pose proof (Z.mod_pos_bound (n / 10) 10 ltac:(lia)) as Hd1.
  destruct (digit_char_spec (n mod 10) Hd0) as [Hc0 Hv0].
  destruct (digit_char_spec ((n / 10) mod 10) Hd1) as [Hc1 Hv1].
  set (whole := Js.render_nat (n / 100)) in *.
  set (cents := String (Js.digit_char ((n / 10) mod 10))
                  (String (Js.digit_char (n mod 10)) EmptyString)).
  assert (Hcents : Js.forall_chars Js.is_digit cents = true).
  { unfold cents. cbn [Js.forall_chars]. rewrite Hc0, Hc1. reflexivity. }
  split; [| split].
  - destruct whole; [discriminate | reflexivity].
  - unfold Float64.strip. apply filter_chars_all.
    rewrite forall_chars_app. cbn [append Js.forall_chars].
    rewrite (forall_chars_weaken Js.is_digit _ whole), (forall_chars_weaken Js.is_digit _ cents);
      try assumption; try (intros c Hc; rewrite Hc; reflexivity).
    reflexivity.
  - rewrite (Number_of_decimal_literal whole cents Hne Hdigits Hcents).
    f_equal. unfold Js.digits_value. rewrite digits_value_from_app.
    fold (Js.digits_value whole). rewrite Hvalue.
    unfold cents. cbn [Js.digits_value_from]. rewrite Hv0, Hv1.
    pose proof (Z.div_mod n 10 ltac:(lia)).
    pose proof (Z.div_mod (n / 10) 10 ltac:(lia)).
    assert (n / 10 / 10 = n / 100)%Z by (rewrite Z.div_div by lia; reflexivity).
    lia.
Qed.

(** C8, as the code has it: for every number [n] of cents below 2^51, the
    decimal rendering of [n] with two fractional digits canonicalizes to
    [n]; "50.50" canonicalizes to 5050 and "100.00" to 10000. *)
Theorem canonicalizeAmount_render_cents (n : Z) :
  (0 <= n < 2 ^ 51)%Z ->
  canonicalizeAmount (Some (render_cents n)) = Some (Float64.Int n)
  /\ canonicalizeAmount (Some "50.50") = Some (Float64.Int 5050)
  /\ canonicalizeAmount (Some "100.00") = Some (Float64.Int 10000).
Proof.
  intros Hn. split; [| split; vm_compute; reflexivity].
  destruct (Number_render_cents n ltac:(lia)) as (Hne & Hstrip & Hnumber).
  unfold canonicalizeAmount. rewrite Hne, Hstrip, Hnumber.
  destruct (Z.eq_dec n 0) as [-> | Hnz]; [vm_compute; reflexivity |].
  destruct (of_decimal_cents n ltac:(lia)) as (Y & a & Hparsed & Ha & HY & HA).
  rewrite Hparsed. cbn [Float64.isFinite].
  rewrite (mul_round_cents n Y a); [reflexivity | lia | assumption ..].
Qed.

Lemma canonicalizeAmount_render_cents_witness :
  canonicalizeAmount (Some (render_cents 1999)) = Some (Float64.Int 1999)
  /\ canonicalizeAmount (Some "50.50") = Some (Float64.Int 5050)
  /\ canonicalizeAmount (Some "100.00") = Some (Float64.Int 10000).
Proof.
  apply (canonicalizeAmount_render_cents 1999). lia.
Defined.

(** An amount string without any digit is not unparsable for the code: the
    strip leaves the empty text, which [Number] reads as 0. *)
Example canonicalizeAmount_without_digits :
  canonicalizeAmount (Some "N/A") = Some (Float64.Int 0).
Proof. vm_compute. reflexivity. Qed.

(** Rounding is to the nearest cent, upward on a tie of the double. *)
Example canonicalizeAmount_rounds :
  canonicalizeAmount (Some "2.675") = Some (Float64.Int 268)
  /\ canonicalizeAmount (Some "1.005") = Some (Float64.Int 100)
  /\ canonicalizeAmount (Some "-0.5") = Some (Float64.Int (-50)).
Proof. repeat split; vm_compute; reflexivity. Qed.

(** C8 as stated fails: 7100000000000007 cents render as
    "71000000000000.07", whose nearest double is 71000000000000.0625; the
    product with 100 rounds to 7100000000000006. *)
Lemma canonicalizeAmount_large_amount :
  render_cents 7100000000000007 = "71000000000000.07"
  /\ canonicalizeAmount (Some "71000000000000.07")
     = Some (Float64.Int 7100000000000006).
Proof. split; vm_compute; reflexivity. Qed.

End CanonicalFacts.

(* ================================================================== *)
(** * Properties of the recognition clients *)
(* ================================================================== *)

Section ClientFacts.

Import Clients.
#[local] Open Scope string_scope.

Lemma object_or_empty_object (v : JSON) : isAnyObj (object_or_empty v) = true.
Proof.
  unfold object_or_empty.
  destruct v; cbn [is_object_type]; rewrite ?andb_false_r; reflexivity.
Qed.

(** X1: whenever [callOcrSpace] returns, the provider answered with
    [res.ok] and the result is an object or an array, never [null] or a
    primitive: an answer that is not JSON, or not an object, becomes
    [{}]. *)
Theorem callOcrSpace_returns_object
        (fetch : OcrRequest -> Res HttpResponse)
        (base64Image apiUrl apiKey : string) (result : JSON) :
  callOcrSpace fetch base64Image apiUrl apiKey = ret result ->
  isAnyObj result = true
  /\ exists res,
       fetch {| ocr_url := apiUrl;
                ocr_apikey := apiKey;
                ocr_form :=
                  [("base64Image", "data:image/jpeg;base64," ++ base64Image);
                   ("language", "eng");
                   ("isOverlayRequired", "false")] |} = ret res
       /\ res_ok res = true
       /\ result = object_or_empty (catch (res_json res) (JObj [])).
Proof.
  unfold callOcrSpace. intros H.
  destruct (fetch _) as [e | res]; [discriminate |].
  cbn [bind] in H. destruct (res_ok res) eqn:Hok; cbn [negb] in H;
    [| discriminate].
  injection H as <-. split; [apply object_or_empty_object |].
  exists res. auto.
Qed.

Lemma callOcrSpace_returns_object_witness :
  isAnyObj (JObj []) = true
  /\ exists res,
       (fun _ : OcrRequest =>
          ret {| res_ok := true; res_status := 200;
                 res_text := ret "3"; res_json := ret (JNum "3") |})
         {| ocr_url := "https://ocr.example/parse";
            ocr_apikey := "ocr-key";
            ocr_form :=
              [("base64Image", "data:image/jpeg;base64," ++ "AAAA");
               ("language", "eng");
               ("isOverlayRequired", "false")] |} = ret res
       /\ res_ok res = true
       /\ JObj [] = object_or_empty (catch (res_json res) (JObj [])).
Proof.
  apply (callOcrSpace_returns_object
           (fun _ => ret {| res_ok := true; res_status := 200;
                            res_text := ret "3"; res_json := ret (JNum "3") |})
           "AAAA" "https://ocr.example/parse" "ocr-key" (JObj [])).
  reflexivity.
Defined.

(** X2: [callOcrSpace] throws exactly when [fetch] throws, with the same
    error, or when the answer is not [ok], with an error that names the
    status and carries the body text ([""] when the body cannot be
    read). *)
Theorem callOcrSpace_throws
        (fetch : OcrRequest -> Res HttpResponse)
        (base64Image apiUrl apiKey : string) (e : Exn) :
  callOcrSpace fetch base64Image apiUrl apiKey = throw e ->
  let request :=
    {| ocr_url := apiUrl;
       ocr_apikey := apiKey;
       ocr_form :=
         [("base64Image", "data:image/jpeg;base64," ++ base64Image);
          ("language", "eng");
          ("isOverlayRequired", "false")] |} in
  fetch request = throw e
  \/ exists res,
       fetch request = ret res
       /\ res_ok res = false
       /\ e = Error ("OCR service error " ++ Js.render_nat (res_status res)
                     ++ ": " ++ catch (res_text res) EmptyString).
Proof.
  unfold callOcrSpace. intros H. cbv zeta.
  destruct (fetch _) as [e' | res]; [left; cbn [bind] in H; injection H as ->; reflexivity |].
  cbn [bind] in H. right. exists res.
  destruct (res_ok res); cbn [negb] in H; [discriminate |].
  injection H as <-. auto.
Qed.

Lemma callOcrSpace_throws_witness :
  (fun _ : OcrRequest =>
     ret {| res_ok := false; res_status := 403;
            res_text := throw (Error "stream closed");
            res_json := throw (Error "stream closed") |})
    {| ocr_url := "https://ocr.example/parse";
       ocr_apikey := "ocr-key";
       ocr_form :=
         [("base64Image", "data:image/jpeg;base64," ++ "AAAA");
          ("language", "eng");
          ("isOverlayRequired", "false")] |}
  = throw (Error "OCR service error 403: ")
  \/ exists res,
       (fun _ : OcrRequest =>
          ret {| res_ok := false; res_status := 403;
                 res_text := throw (Error "stream closed");
                 res_json := throw (Error "stream closed") |})
         {| ocr_url := "https://ocr.example/parse";
            ocr_apikey := "ocr-key";
            ocr_form :=
              [("base64Image", "data:image/jpeg;base64," ++ "AAAA");
               ("language", "eng");
               ("isOverlayRequired", "false")] |} = ret res
       /\ res_ok res = false
       /\ Error "OCR service error 403: "
          = Error ("OCR service error " ++ Js.render_nat (res_status res)
                   ++ ": " ++ catch (res_text res) EmptyString).
Proof.
  apply (callOcrSpace_throws
           (fun _ => ret {| res_ok := false; res_status := 403;
                            res_text := throw (Error "stream closed");
                            res_json := throw (Error "stream closed") |})
           "AAAA" "https://ocr.example/parse" "ocr-key"
           (Error "OCR service error 403: ")).
  reflexivity.
Defined.

Section VisionFacts.

Variable JSON_parse : string -> Res JSON.
Variable JSON_stringify : JSON -> string.

Lemma first_parsed_object (texts : list string) (parsed : JSON) :
  first_parsed JSON_parse texts = Some parsed -> isAnyObj parsed = true.
Proof.
  induction texts as [| t rest IH]; cbn [first_parsed]; [discriminate |].
  destruct (Regex.match1 re_braces t) as [jsMatch |]; [| exact IH].
  destruct (JSON_parse jsMatch) as [e | p]; [exact IH |].
  destruct (truthy (Some p) && is_object_type (Some p)) eqn:Hp; [| exact IH].
  intros H. injection H as <-.
  apply andb_prop in Hp as [Htruthy Hobj].
  destruct p; try discriminate; reflexivity.
Qed.

(** X3: whenever [callOpenAIVisionCombined] returns, the result is an
    object or an array, never [null] or a primitive, whatever the model
    answered and whatever [JSON.parse] makes of it. *)
Theorem callOpenAIVisionCombined_returns_object
        (model : option string) (fetch : VisionRequest -> Res HttpResponse)
        (frontBase64 backBase64 apiKey : string) (result : JSON) :
  callOpenAIVisionCombined JSON_parse JSON_stringify model fetch
                           frontBase64 backBase64 apiKey = ret result ->
  isAnyObj result = true.
Proof.
  unfold callOpenAIVisionCombined. intros H.
  destruct (fetch _) as [e | res]; [discriminate |].
  cbn [bind] in H. destruct (res_ok res); cbn [negb] in H; [| discriminate].
  cbv zeta in H.
  destruct (first_parsed JSON_parse _) as [parsed |] eqn:Hfirst.
  - injection H as <-. exact (first_parsed_object _ _ Hfirst).
  - injection H as <-. destruct (catch (res_json res) (JObj [])); reflexivity.
Qed.

End VisionFacts.

Lemma callOpenAIVisionCombined_returns_object_witness :
  isAnyObj (JObj [("output", JArr [JObj [("content", JStr "no JSON here")]])])
  = true.
Proof.
  apply (callOpenAIVisionCombined_returns_object
           (fun _ => throw (Error "Unexpected token"))
           (fun _ => "{}")
           None
           (fun _ => ret {| res_ok := true; res_status := 200;
                            res_text := ret "";
                            res_json :=
                              ret (JObj [("output",
                                          JArr [JObj [("content",
                                                       JStr "no JSON here")]])]) |})
           "AAAA" "BBBB" "vision-key").
  reflexivity.
Defined.

End ClientFacts.

(* ================================================================== *)
(** * Further properties of the handler *)
(* ================================================================== *)

Section HandlerFurther.

Import Extract Handler Samples Stages.
#[local] Open Scope string_scope.

Lemma recognize_failure_status (w : World) (front back : File) (resp : Response) :
  recognize w front back = inl resp ->
  status resp = 500%Z \/ status resp = 502%Z.
Proof.
  unfold recognize. intros H.
  destruct (set (OPENAI_API_KEY w)) as [key |].
  - destruct (callOpenAIVisionCombined w front back key); [| discriminate].
    injection H as <-. right. reflexivity.
  - destruct (set (CHECK_OCR_API_URL w)) as [ocrUrl |],
             (set (CHECK_OCR_API_KEY w)) as [ocrKey |];
      try (injection H as <-; left; reflexivity).
    destruct (callOcrSpace w front ocrUrl ocrKey);
      [injection H as <-; right; reflexivity |].
    destruct (callOcrSpace w back ocrUrl ocrKey); [| discriminate].
    injection H as <-. right. reflexivity.
Qed.

(** X4: the handler answers 201, 400, 500 or 502, or, when the caller is
    not authenticated, the status that the authentication gives (401
    when it gives none), as the [Response] constructor takes it: within
    200..599.  A status that the constructor refuses ends in the 500 of
    the outer catch. *)
Theorem POST_status_range (w : World) :
  let st := status (snd (POST w)) in
  st = 201%Z \/ st = 400%Z \/ st = 500%Z \/ st = 502%Z
  \/ exists auth,
       getAuthUserFromRequest w = ret auth
       /\ auth_ok auth = false
       /\ st = Z.rem (match auth_status auth with
                      | Some s => s
                      | None => 401%Z
                      end) 65536
       /\ (200 <= st <= 599)%Z.
Proof.
  cbv zeta. unfold POST, POST_try, POST_try_using.
  destruct (getAuthUserFromRequest w) as [e | auth] eqn:Hauth;
    cbn [bind]; [auto |].
  destruct (auth_ok auth) eqn:Hok; cbn [negb].
  2:{ unfold new_Response.
      set (s := Z.rem _ 65536).
      destruct ((s <? 200)%Z || (599 <? s)%Z) eqn:Hrange;
        cbn [bind throw]; [auto |].
      destruct ((s =? 204)%Z || (s =? 205)%Z || (s =? 304)%Z);
        cbn [bind throw ret]; [auto |].
      do 4 right. exists auth.
      apply orb_false_elim in Hrange as [Hlow Hhigh].
      apply Z.ltb_ge in Hlow. apply Z.ltb_ge in Hhigh.
      cbn [snd status json_response].
      repeat split; try reflexivity; assumption. }
  destruct (formData w) as [e | [[front |] [back |]]]; cbn [bind]; auto.
  destruct (recognize w front back) as [resp | [[frontResp backResp] combinedResp]]
    eqn:Hrec.
  { cbn [snd]. destruct (recognize_failure_status _ _ _ _ Hrec); auto. }
  destruct (combinedText frontResp backResp) as [e | text]; cbn [bind]; auto.
  destruct (checkId combinedResp _) as [e | cid]; cbn [bind]; auto.
  destruct (set cid) as [id |]; auto.
  destruct (amountString frontResp backResp combinedResp _) as [e | amount];
    cbn [bind]; auto.
  destruct (appUserId w auth) as [e | uid]; cbn [bind]; auto.
  destruct (destAccount w uid) as [e | dest]; cbn [bind]; auto.
Qed.

(** An unauthenticated caller gets the status of the authentication, 401
    when there is none; a status that the [Response] constructor refuses
    (outside 200..599, or one that allows no body) ends in the 500 of the
    outer catch. *)
Example POST_unauthenticated :
  snd (POST (signed_out (Some 403%Z)))
  = json_response 403 (JObj [("message", JStr "Invalid token")])
  /\ status (snd (POST (signed_out None))) = 401%Z
  /\ POST (signed_out (Some 42%Z))
     = ([], json_response 500 (error_body "Internal server error"))
  /\ POST (signed_out (Some 204%Z))
     = ([], json_response 500 (error_body "Internal server error")).
Proof. repeat split; vm_compute; reflexivity. Qed.

(** X5: a deposit is forwarded only with a 201, and at most once.  The
    forward is an inbound deposit whose check number is the [check_id] of
    the body, not empty; its idempotency key is ["check-id-"] followed by
    the sanitized check number; and its amount is the canonical amount of
    the [amount] string of the body as [JSON.stringify] writes it: the
    number, or [null] when the canonical amount is not finite. *)
Theorem POST_forward (w : World) (d : DepositRequest) :
  In d (fst (POST w)) ->
  fst (POST w) = [d]
  /\ status (snd (POST w)) = 201%Z
  /\ prop (body (snd (POST w))) "check_id" = Some (JStr (check_number d))
  /\ Js.nonempty (check_number d) = true
  /\ header_Idempotency_Key d = "check-id-" ++ sanitize (check_number d)
  /\ requested_transaction_type d = "deposit"
  /\ transaction_direction d = "inbound"
  /\ exists a cents,
       prop (body (snd (POST w))) "amount" = Some (JStr a)
       /\ canonicalizeAmount (Some a) = Some cents
       /\ requested_amount d = stringify_number cents.
Proof.
  unfold POST, POST_try, POST_try_using.
  destruct (getAuthUserFromRequest w) as [e | auth]; cbn [bind fst];
    [contradiction |].
  destruct (auth_ok auth); cbn [negb fst];
    [| destruct (new_Response _ _); cbn [bind ret fst]; contradiction].
  destruct (formData w) as [e | [[front |] [back |]]]; cbn [bind fst];
    try contradiction.
  destruct (recognize w front back) as [resp | [[frontResp backResp] combinedResp]];
    cbn [fst]; [contradiction |].
  destruct (combinedText frontResp backResp) as [e | text]; cbn [bind fst];
    [contradiction |].
  destruct (checkId combinedResp _) as [e | cid]; cbn [bind fst];
    [contradiction |].
  destruct (set cid) as [id |] eqn:Hset; cbn [fst]; [| contradiction].
  destruct (amountString frontResp backResp combinedResp _) as [e | amount];
    cbn [bind fst]; [contradiction |].
  destruct (appUserId w auth) as [e | uid]; cbn [bind fst]; [contradiction |].
  destruct (destAccount w uid) as [e | dest]; cbn [bind fst snd];
    [contradiction |].
  destruct dest as [account |]; [| contradiction].
  destruct (canonicalizeAmount amount) as [cents |] eqn:Hcents;
    [| contradiction].
  intros [<- | []].
  assert (Hid : Js.nonempty id = true).
  { unfold set in Hset. destruct cid as [c |]; [| discriminate].
    destruct (Js.nonempty c) eqn:Hc; [| discriminate].
    injection Hset as <-. exact Hc. }
  repeat split; try reflexivity; try exact Hid.
  destruct amount as [a |]; [| discriminate].
  exists a, cents. split; [reflexivity |]. split; [exact Hcents | reflexivity].
Qed.

Lemma POST_forward_witness :
  fst (POST (ocr_world endorsed_front endorsed_back))
  = [depositRequest (ocr_world endorsed_front endorsed_back)
       "021000021_123456_7890" {| account_number := "000111222" |}
       (Float64.Int 1250)]
  /\ status (snd (POST (ocr_world endorsed_front endorsed_back))) = 201%Z
  /\ prop (body (snd (POST (ocr_world endorsed_front endorsed_back)))) "check_id"
     = Some (JStr "021000021_123456_7890")
  /\ Js.nonempty "021000021_123456_7890" = true
  /\ "check-id-021000021_123456_7890"
     = "check-id-" ++ sanitize "021000021_123456_7890"
  /\ "deposit" = "deposit"
  /\ "inbound" = "inbound"
  /\ exists a cents,
       prop (body (snd (POST (ocr_world endorsed_front endorsed_back)))) "amount"
       = Some (JStr a)
       /\ canonicalizeAmount (Some a) = Some cents
       /\ Some 1250%Z = stringify_number cents.
Proof.
  apply (POST_forward (ocr_world endorsed_front endorsed_back)
           (depositRequest (ocr_world endorsed_front endorsed_back)
              "021000021_123456_7890" {| account_number := "000111222" |}
              (Float64.Int 1250))).
  vm_compute. left. reflexivity.
Defined.

(** An amount string of 308 nines is finite and its hundredfold is not:
    the canonical amount is [Infinity] and the forward carries [null]. *)
Example POST_forward_overflow :
  let nines := String.concat "" (repeat "9" 308) in
  let w := vision_world
             (vision_answer [("amount", JStr nines); ("raw_text", JStr "PAY")]) in
  canonicalizeAmount (Some nines) = Some (Float64.Inf false)
  /\ status (snd (POST w)) = 201%Z
  /\ map requested_amount (fst (POST w)) = [None].
Proof. cbv zeta. repeat split; vm_compute; reflexivity. Qed.

Lemma sanitize_char_key (c : ascii) :
  Text.is_key_char (if negb (Text.is_key_char c) then "-"%char else c) = true.
Proof. destruct (Text.is_key_char c) eqn:Hc; [exact Hc | reflexivity]. Qed.

(** X6: [sanitize] leaves only letters, digits, [-] and [_], keeps the
    length, and changes nothing in a text that is already clean, so that
    sanitizing twice is sanitizing once. *)
Theorem sanitize_clean (s : string) :
  Js.forall_chars Text.is_key_char (sanitize s) = true
  /\ String.length (sanitize s) = String.length s
  /\ sanitize (sanitize s) = sanitize s.
Proof.
  assert (Hclean : forall t,
             Js.forall_chars Text.is_key_char (sanitize t) = true).
  { induction t as [| c t IH]; [reflexivity |].
    unfold sanitize, Js.replace_class in *. cbn [Js.map_chars Js.forall_chars].
    rewrite IH. fold (Text.is_key_char c). rewrite sanitize_char_key.
    reflexivity. }
  assert (Hfix : forall t,
             Js.forall_chars Text.is_key_char t = true -> sanitize t = t).
  { induction t as [| c t IH]; [reflexivity |].
    cbn [Js.forall_chars]. intros H. apply andb_prop in H as [Hc Ht].
    unfold sanitize, Js.replace_class in *. cbn [Js.map_chars].
    rewrite (IH Ht). fold (Text.is_key_char c). rewrite Hc. reflexivity. }
  split; [apply Hclean |]. split.
  - induction s as [| c s IH]; [reflexivity |].
    unfold sanitize, Js.replace_class in *. cbn [Js.map_chars String.length].
    rewrite IH. reflexivity.
  - apply Hfix, Hclean.
Qed.

Lemma POST_after_recognition (w : World) (front back : File)
      (frontResp backResp : JSON) (combinedResp : option JSON) :
  reaches_recognition w front back ->
  recognize w front back = inr (frontResp, backResp, combinedResp) ->
  exists auth,
    POST w
    = match
        (text <- combinedText frontResp backResp ;;
         let ocrJson := ocrJson_of text frontResp backResp combinedResp in
         cid <- checkId combinedResp ocrJson ;;
         match set cid with
         | None =>
             ret ([],
                  json_response 400
                    (error_body "Could not extract check ID from images."))
         | Some id =>
             amount <- amountString frontResp backResp combinedResp ocrJson ;;
             uid <- appUserId w auth ;;
             dest <- destAccount w uid ;;
             ret (match dest, canonicalizeAmount amount with
                  | Some account, Some cents =>
                      [depositRequest w id account cents]
                  | _, _ => []
                  end,
                  json_response 201
                    (success_body id amount
                       (endorsementPresent frontResp backResp ocrJson)
                       frontResp backResp text combinedResp))
         end)%res
      with
      | inr out => out
      | inl _ => ([], json_response 500 (error_body "Internal server error"))
      end.
Proof.
  intros (auth & Hauth & Hok & Hform) Hrec. exists auth.
  unfold POST, POST_try, POST_try_using. rewrite Hauth. cbn [bind ret]. rewrite Hok. cbn [negb].
  rewrite Hform. cbn [bind ret]. rewrite Hrec. reflexivity.
Qed.

Lemma combinedText_null_back (frontResp : JSON) :
  exists e, combinedText frontResp JNull = throw e.
Proof.
  unfold combinedText. destruct (rawText frontResp) as [e | t]; cbn [bind].
  - exists e. reflexivity.
  - eexists. reflexivity.
Qed.

Lemma checkId_null_combined (fields : list (string * JSON)) (o : JSON) :
  assoc "combined" fields = Some JNull ->
  exists e, checkId (Some (JObj fields)) o = throw e.
Proof.
  intros H. unfold checkId, checkId_with, combinedField.
  cbn [truthy prop andb]. rewrite H. cbn [is_object_type optE propE bind].
  eexists. reflexivity.
Qed.

(** X7: a vision answer whose [front], [back] or [combined] is [null]
    ends in the 500 of the outer catch, without a deposit forward:
    [typeof null] is ["object"], and the property read that follows
    throws. *)
Theorem POST_null_part (w : World) (front back : File) (key : string)
        (fields : list (string * JSON)) :
  reaches_recognition w front back ->
  set (OPENAI_API_KEY w) = Some key ->
  callOpenAIVisionCombined w front back key = ret (JObj fields) ->
  assoc "front" fields = Some JNull
  \/ assoc "back" fields = Some JNull
  \/ assoc "combined" fields = Some JNull ->
  POST w = ([], json_response 500 (error_body "Internal server error")).
Proof.
  intros Hadm Hkey Hcall Hnull.
  assert (Hrec : recognize w front back
                 = inr (if is_object_type (assoc "front" fields)
                        then json_or_null (assoc "front" fields) else JObj [],
                        if is_object_type (assoc "back" fields)
                        then json_or_null (assoc "back" fields) else JObj [],
                        Some (JObj fields))).
  { unfold recognize. rewrite Hkey, Hcall. reflexivity. }
  destruct (POST_after_recognition w front back _ _ _ Hadm Hrec) as (auth & ->).
  destruct Hnull as [H | [H | H]].
  - rewrite H. reflexivity.
  - rewrite H. cbn [is_object_type json_or_null].
    destruct (combinedText_null_back
                (if is_object_type (assoc "front" fields)
                 then json_or_null (assoc "front" fields) else JObj []))
      as (e & ->).
    reflexivity.
  - destruct (combinedText _ _) as [e | text]; cbn [bind]; [reflexivity |].
    destruct (checkId_null_combined fields
                (ocrJson_of text
                   (if is_object_type (assoc "front" fields)
                    then json_or_null (assoc "front" fields) else JObj [])
                   (if is_object_type (assoc "back" fields)
                    then json_or_null (assoc "back" fields) else JObj [])
                   (Some (JObj fields))) H) as (e & ->).
    reflexivity.
Qed.

Lemma POST_null_part_witness :
  POST (vision_world (JObj [("front", JObj [("raw_text", JStr "PAY")]);
                            ("back", JNull);
                            ("combined", JObj [("check_id", JStr "1_2_3")])]))
  = ([], json_response 500 (error_body "Internal server error")).
Proof.
  apply (POST_null_part _ "front-image" "back-image" "vision-key"
           [("front", JObj [("raw_text", JStr "PAY")]);
            ("back", JNull);
            ("combined", JObj [("check_id", JStr "1_2_3")])]).
  - exists signed_in. repeat split; reflexivity.
  - reflexivity.
  - reflexivity.
  - right. left. reflexivity.
Defined.

Lemma tryBool_object (r : JSON) :
  isAnyObj r = true -> tryBool r = Some (JBool (explicit_flag r)).
Proof. destruct r; try discriminate; reflexivity. Qed.

(** X8: in a 201 response, [endorsement_present] is the explicit flag of
    the back result and nothing else: the flag of the front result, an
    endorsement image and the text of the check have no part in it. *)
Theorem POST_endorsement_is_back_flag
        (w : World) (front back : File)
        (frontResp backResp : JSON) (combinedResp : option JSON) :
  reaches_recognition w front back ->
  recognize w front back = inr (frontResp, backResp, combinedResp) ->
  isAnyObj backResp = true ->
  status (snd (POST w)) = 201%Z ->
  prop (body (snd (POST w))) "endorsement_present"
  = Some (JBool (explicit_flag backResp)).
Proof.
  intros Hadm Hrec Hback.
  destruct (POST_after_recognition w front back _ _ _ Hadm Hrec) as (auth & ->).
  destruct (combinedText frontResp backResp) as [e | text]; cbn [bind];
    [discriminate |].
  destruct (checkId combinedResp _) as [e | cid]; cbn [bind]; [discriminate |].
  destruct (set cid) as [id |]; [| discriminate].
  destruct (amountString frontResp backResp combinedResp _) as [e | amount];
    cbn [bind]; [discriminate |].
  destruct (appUserId w auth) as [e | uid]; cbn [bind]; [discriminate |].
  destruct (destAccount w uid) as [e | dest]; cbn [bind]; [discriminate |].
  intros _. cbn [snd body json_response].
  rewrite (endorsementPresent_is_back_flag frontResp backResp _ Hback).
  rewrite (tryBool_object backResp Hback). reflexivity.
Qed.

Lemma POST_endorsement_is_back_flag_witness :
  prop (body (snd (POST (vision_world no_amount)))) "endorsement_present"
  = Some (JBool (explicit_flag
                   (JObj [("endorsement_present", JBool true);
                          ("raw_text", JStr "J Doe")]))).
Proof.
  apply (POST_endorsement_is_back_flag (vision_world no_amount)
           "front-image" "back-image"
           (JObj [("amount", JNull); ("raw_text", JStr "PAY TO THE ORDER OF")])
           (JObj [("endorsement_present", JBool true); ("raw_text", JStr "J Doe")])
           (Some no_amount)).
  - exists signed_in. repeat split; reflexivity.
  - reflexivity.
  - reflexivity.
  - vm_compute. reflexivity.
Defined.

Lemma checkId_returns (combinedResp : option JSON) (o : JSON) :
  (forall c, combinedResp = Some c -> prop c "combined" <> Some JNull) ->
  exists cid, checkId combinedResp o = ret cid.
Proof.
  intros Hc. unfold checkId, checkId_with, combinedField.
  destruct combinedResp as [c |]; [| cbn [bind ret]; eauto].
  specialize (Hc c eq_refl).
  destruct (truthy (Some c) && is_object_type (prop c "combined")) eqn:Hobj;
    [| cbn [bind ret]; eauto].
  apply andb_prop in Hobj as [_ Hobj].
  destruct (prop c "combined") as [[] |]; try discriminate;
    try contradiction; cbn [optE propE bind ret];
    try match goal with
        | |- context [as_string ?v] => destruct (as_string v)
        end; eauto.
Qed.

(** X9: when the request reaches the recognition step, both recognition
    results are objects, the combined answer (if any) has no [null]
    [combined], and the storage lookups return, the handler answers 201 or
    400: none of its own property reads throws, and it never answers
    500. *)
Theorem POST_no_internal_error
        (w : World) (front back : File)
        (frontResp backResp : JSON) (combinedResp : option JSON) :
  reaches_recognition w front back ->
  recognize w front back = inr (frontResp, backResp, combinedResp) ->
  isAnyObj frontResp = true ->
  isAnyObj backResp = true ->
  (forall c, combinedResp = Some c -> prop c "combined" <> Some JNull) ->
  storage_answers w ->
  status (snd (POST w)) = 201%Z \/ status (snd (POST w)) = 400%Z.
Proof.
  intros Hadm Hrec Hfront Hback Hcombined [Huser Hacct].
  destruct (POST_after_recognition w front back _ _ _ Hadm Hrec) as (auth & ->).
  unfold combinedText.
  destruct (rawText_object frontResp Hfront) as (tf & ->).
  destruct (rawText_object backResp Hback) as (tb & ->).
  cbn [bind ret].
  destruct (checkId_returns combinedResp
              (ocrJson_of (tf ++ newline ++ tb) frontResp backResp combinedResp)
              Hcombined) as (cid & Hcid).
  rewrite Hcid. cbn [bind ret].
  destruct (set cid) as [id |]; [| right; reflexivity].
  destruct (amountString_returns frontResp backResp combinedResp _ cid Hcid)
    as (amount & ->).
  cbn [bind ret].
  assert (Huid : exists uid, appUserId w auth = ret uid).
  { unfold appUserId. destruct (set (auth_supabaseUser_id auth)) as [u |];
      [| eauto].
    destruct (Huser u) as (maybe & ->). cbn [bind ret].
    destruct (truthy maybe); [| eauto].
    destruct (prop (json_or_null maybe) "id") as [[] |]; eauto. }
  destruct Huid as (uid & ->). cbn [bind ret].
  assert (Hdest : exists dest, destAccount w uid = ret dest).
  { unfold destAccount. destruct uid as [i |]; [| eauto].
    destruct (truthy (Some (JNum i))); [apply Hacct | eauto]. }
  destruct Hdest as (dest & ->). cbn [bind ret].
  left. reflexivity.
Qed.

Lemma POST_no_internal_error_witness :
  status (snd (POST (ocr_world endorsed_front endorsed_back))) = 201%Z
  \/ status (snd (POST (ocr_world endorsed_front endorsed_back))) = 400%Z.
Proof.
  apply (POST_no_internal_error (ocr_world endorsed_front endorsed_back)
           "front-image" "back-image" endorsed_front endorsed_back None).
  - exists signed_in. repeat split; reflexivity.
  - reflexivity.
  - reflexivity.
  - reflexivity.
  - intros c Hc. discriminate Hc.
  - split; intros id; eexists; reflexivity.
Defined.

(** X10: in the handler the extractors depend on the recognition results
    through their flattened text alone.  The object they are given has
    the keys [parsed_text], [front], [back] and [combined], so no
    structured routing, account, check or amount field is ever found at
    its top level, not even one that the front result carries. *)
Theorem handler_extractors_read_text
        (text : string) (frontResp backResp : JSON) (combinedResp : option JSON) :
  let o := ocrJson_of text frontResp backResp combinedResp in
  extractCheckId o = extractCheckId (JObj [("text", JStr (flatten o))])
  /\ extractAmount o = extractAmount (JObj [("text", JStr (flatten o))]).
Proof.
  cbv zeta.
  set (o := ocrJson_of text frontResp backResp combinedResp).
  assert (Hflat : flatten (JObj [("text", JStr (flatten o))]) = flatten o)
    by reflexivity.
  split.
  - unfold extractCheckId. rewrite Hflat. reflexivity.
  - unfold extractAmount. rewrite Hflat. reflexivity.
Qed.

End HandlerFurther.

(* ================================================================== *)
(** * Further properties of the transaction helpers *)
(* ================================================================== *)

Section LedgerFurther.

Import Ledger Samples.
#[local] Open Scope string_scope.

(** X11: with a non-empty idempotency key or a non-empty check number,
    [findExistingTransaction] makes exactly one [findFirst] call, returns
    what the client answers, and its [OR] is never empty: every
    alternative is a key of the parameters. *)
Theorem findExistingTransaction_with_key
        (S : Type) (tx : TxClient S) (params : TxData) (st : S) (log : list Call) :
  truthy_key (idempotency_key params) || truthy_key (check_number params) = true ->
  findExistingTransaction params st log
  = (fst (transaction_findFirst (lookupWhere params) st),
     snd (transaction_findFirst (lookupWhere params) st),
     (log ++ [called_findFirst (lookupWhere params)])%list)
  /\ orClauses (lookupWhere params) <> []
  /\ forall c, In c (orClauses (lookupWhere params)) ->
               match c with
               | by_idempotency_key k => idempotency_key params = Some k
               | by_check_number n => check_number params = Some n
               end.
Proof.
  intros Hkey. split; [| split].
  - unfold findExistingTransaction.
    destruct (truthy_key (idempotency_key params)),
             (truthy_key (check_number params));
      try discriminate; cbn [negb andb];
      destruct (transaction_findFirst (lookupWhere params) st); reflexivity.
  - unfold lookupWhere. cbn [orClauses].
    destruct (idempotency_key params) as [k |], (check_number params) as [c |];
      cbn [truthy_key] in *; try discriminate;
      try destruct (Js.nonempty k); cbn; discriminate.
  - unfold lookupWhere. cbn [orClauses]. intros c Hin.
    apply in_app_or in Hin as [Hin | Hin].
    + destruct (idempotency_key params) as [k |];
        destruct (truthy_key _) in Hin; cbn in Hin; try contradiction.
      destruct Hin as [<- | []]. reflexivity.
    + destruct (check_number params) as [n |]; cbn in Hin; [| contradiction].
      destruct Hin as [<- | []]. reflexivity.
Qed.

Lemma findExistingTransaction_with_key_witness :
  findExistingTransaction (tx := Concurrent.table) keyed_deposit [] []
  = (fst (@transaction_findFirst _ Concurrent.table (lookupWhere keyed_deposit) []),
     snd (@transaction_findFirst _ Concurrent.table (lookupWhere keyed_deposit) []),
     ([] ++ [called_findFirst (lookupWhere keyed_deposit)])%list)
  /\ orClauses (lookupWhere keyed_deposit) <> []
  /\ forall c, In c (orClauses (lookupWhere keyed_deposit)) ->
               match c with
               | by_idempotency_key k => idempotency_key keyed_deposit = Some k
               | by_check_number n => check_number keyed_deposit = Some n
               end.
Proof.
  apply (findExistingTransaction_with_key _ Concurrent.table keyed_deposit [] []).
  reflexivity.
Defined.

(** X12: [createApprovedTransaction] makes exactly one [create] call, for
    the data with the status [approved], and no lookup.  Whenever it
    returns rather than throws, it reports success: with the plain
    message and no duplicate flag when the record was inserted, with the
    duplicate flag only for data that carry a non-empty idempotency key.
    What it throws is the error the client raised. *)
Theorem createApprovedTransaction_outcome
        (S : Type) (tx : TxClient S) (data : TxData) (successMessage : string)
        (st st' : S) (log log' : list Call) (r : Res Outcome) :
  createApprovedTransaction data successMessage st log = (r, st', log') ->
  st' = snd (transaction_create {| row_data := data; row_status := approved |} st)
  /\ log' = (log ++ [called_create {| row_data := data;
                                      row_status := approved |}])%list
  /\ match r with
     | inr o =>
         success o = true
         /\ match duplicate o with
            | None =>
                message o = successMessage
                /\ exists row,
                     fst (transaction_create
                            {| row_data := data; row_status := approved |} st)
                     = ret row
            | Some d =>
                d = true /\ truthy_key (idempotency_key data) = true
                /\ exists e,
                     fst (transaction_create
                            {| row_data := data; row_status := approved |} st)
                     = throw e /\ is_P2002 e = true
            end
     | inl e =>
         fst (transaction_create
                {| row_data := data; row_status := approved |} st) = throw e
     end.
Proof.
  unfold createApprovedTransaction.
  destruct (transaction_create _ st) as [[e | row] st1]; cbn [fst snd].
  - destruct e as [m | code m | m];
      try (intros H; injection H as <- <- <-; repeat split; reflexivity).
    destruct (truthy_key (idempotency_key data)) eqn:Hk; cbn [andb].
    + destruct (String.eqb code "P2002") eqn:Hc;
        intros H; injection H as <- <- <-.
      * cbn. repeat split.
        exists (PrismaClientKnownRequestError code m). split; [reflexivity |].
        exact Hc.
      * repeat split; reflexivity.
    + intros H; injection H as <- <- <-. repeat split; reflexivity.
  - intros H; injection H as <- <- <-. cbn. repeat split. exists row. reflexivity.
Qed.

Lemma createApprovedTransaction_outcome_witness :
  let row := {| row_data := keyed_deposit; row_status := approved |} in
  let o := {| success := true; message := "Deposit recorded";
              duplicate := None |} in
  [row] = snd (@transaction_create _ Concurrent.table row [])
  /\ [called_create row] = ([] ++ [called_create row])%list
  /\ success o = true
  /\ message o = "Deposit recorded"
  /\ exists r, fst (@transaction_create _ Concurrent.table row []) = ret r.
Proof.
  exact (createApprovedTransaction_outcome
           _ Concurrent.table keyed_deposit "Deposit recorded"
           [] [ {| row_data := keyed_deposit; row_status := approved |} ]
           [] [ called_create {| row_data := keyed_deposit;
                                 row_status := approved |} ]
           (ret {| success := true; message := "Deposit recorded";
                   duplicate := None |})
           eq_refl).
Defined.

End LedgerFurther.

(* ================================================================== *)
(** * Properties of the amount schema *)
(* ================================================================== *)

Section SchemaFacts.

Import Regex Schema.
#[local] Open Scope string_scope.

Lemma sign_split_spec (s : string) :
  sign_split s
  = match s with
    | String c s' => if Ascii.eqb "-" c then (true, s') else (false, s)
    | EmptyString => (false, EmptyString)
    end.
Proof. destruct s as [| [[] [] [] [] [] [] [] []] s']; reflexivity. Qed.

Lemma digit_not_minus (c : ascii) :
  Js.is_digit c = true -> Ascii.eqb "-" c = false.
Proof.
  intros Hc. destruct (Ascii.eqb_spec "-" c) as [<- |]; [discriminate | reflexivity].
Qed.

Lemma digit_not_point (c : ascii) :
  Js.is_digit c = true -> Ascii.eqb "." c = false.
Proof.
  intros Hc. destruct (Ascii.eqb_spec "." c) as [<- |]; [discriminate | reflexivity].
Qed.

(** The greedy [\d*] commits: when what follows fails after the whole run
    of digits only if it fails before any digit of the run as well, the
    star takes the whole run. *)
Lemma run_star_digit (A : Type) (K : string -> option string -> option A) :
  (forall c s' cap,
      Js.is_digit c = true ->
      K (snd (Float64.span Js.is_digit s')) cap = None ->
      K (String c s') cap = None) ->
  forall s cap,
    run (Star Extract.digit) s cap K = K (snd (Float64.span Js.is_digit s)) cap.
Proof.
  intros HK s cap. cbn [run].
  remember (String.length s) as fuel eqn:Hf.
  assert (Hle : (String.length s <= fuel)%nat) by lia. clear Hf.
  revert s cap Hle. induction fuel as [| fuel IH]; intros s cap Hle.
  - destruct s; cbn in Hle; [reflexivity | lia].
  - destruct s as [| c s']; [reflexivity |].
    cbn [run Extract.digit Float64.span].
    destruct (Js.is_digit c) eqn:Hc.
    + replace (String.length s' <? String.length (String c s'))%nat with true
        by (symmetry; apply Nat.ltb_lt; cbn; lia).
      rewrite IH by (cbn in Hle; lia).
      pose proof (HK c s' cap Hc) as Hfail.
      destruct (Float64.span Js.is_digit s') as [a b]. cbn [snd] in Hfail |- *.
      destruct (K b cap); [reflexivity | apply Hfail; reflexivity].
    + reflexivity.
Qed.

Lemma range_1_2_digit (f : string) :
  run (Range 1 2 Extract.digit) f None
      (fun rest _ => if Js.nonempty rest then None else Some tt)
  = if Js.forall_chars Js.is_digit f
       && ((String.length f =? 1)%nat || (String.length f =? 2)%nat)
    then Some tt else None.
Proof.
  destruct f as [| d1 f1]; [reflexivity |].
  cbn [Range Rep UpTo Opt Nat.sub run Extract.digit Js.forall_chars String.length].
  destruct (Js.is_digit d1); [| reflexivity]. cbn [andb].
  destruct f1 as [| d2 f2]; [reflexivity |].
  cbn [Js.forall_chars String.length Js.nonempty].
  destruct (Js.is_digit d2); [| reflexivity]. cbn [andb].
  destruct f2 as [| d3 f3]; [reflexivity |].
  cbn [Js.forall_chars String.length Js.nonempty Nat.eqb orb].
  rewrite andb_false_r. reflexivity.
Qed.

(** The pattern of [Amount], read directly. *)
Lemma test_whole_re_amount (s : string) :
  test_whole re_amount s = is_amount_text s.
Proof.
  unfold test_whole, is_amount_text, re_amount, AtLeast.
  set (kend := fun (rest : string) (_ : option string) =>
                 if Js.nonempty rest then None else Some tt).
  set (tail := Opt (Seq (Lit ".") (Range 1 2 Extract.digit))).
  assert (Htail_digit : forall c s' cap,
             Js.is_digit c = true -> run tail (String c s') cap kend = None).
  { intros c s' cap Hc. unfold tail, Opt. cbn [run Lit].
    rewrite (digit_not_point c Hc). reflexivity. }
  assert (Htail : forall rest,
             run tail rest None kend
             = if match rest with
                  | EmptyString => true
                  | String c f =>
                      Ascii.eqb c "."
                      && Js.forall_chars Js.is_digit f
                      && ((String.length f =? 1)%nat || (String.length f =? 2)%nat)
                  end
               then Some tt else None).
  { intros [| c f]; [reflexivity |].
    unfold tail, Opt. cbn [run Lit]. rewrite (Ascii.eqb_sym c ".").
    destruct (Ascii.eqb "." c); [| reflexivity].
    fold kend. rewrite range_1_2_digit. cbn [andb].
    destruct (Js.forall_chars Js.is_digit f
              && ((String.length f =? 1)%nat || (String.length f =? 2)%nat));
      reflexivity. }
  assert (Hbody : forall body,
             run (Seq (Seq (Rep 1 Extract.digit) (Star Extract.digit)) tail)
                 body None kend
             = let '(whole, rest) := Float64.span Js.is_digit body in
               if Js.nonempty whole
                  && match rest with
                     | EmptyString => true
                     | String c f =>
                         Ascii.eqb c "."
                         && Js.forall_chars Js.is_digit f
                         && ((String.length f =? 1)%nat
                             || (String.length f =? 2)%nat)
                     end
               then Some tt else None).
  { intros [| c b]; [reflexivity |].
    change (run (Seq (Seq (Rep 1 Extract.digit) (Star Extract.digit)) tail)
                (String c b) None kend)
      with (if Js.is_digit c
            then run (Star Extract.digit) b None
                     (fun s2 cap2 => run tail s2 cap2 kend)
            else None).
    cbn [Float64.span].
    destruct (Js.is_digit c) eqn:Hc; [| reflexivity].
    rewrite (run_star_digit _ (fun s1 cap1 => run tail s1 cap1 kend)
                            (fun c s' cap Hc _ => Htail_digit c s' cap Hc)
                            b None).
    destruct (Float64.span Js.is_digit b) as [whole rest]. cbn [snd Js.nonempty andb].
    apply Htail. }
  change (run (Seq (Opt (Lit "-"))
                   (Seq (Seq (Rep 1 Extract.digit) (Star Extract.digit)) tail))
              s None kend)
    with (match run (Lit "-") s None
                    (fun s1 cap1 =>
                       run (Seq (Seq (Rep 1 Extract.digit) (Star Extract.digit)) tail)
                           s1 cap1 kend) with
          | Some a => Some a
          | None => run (Seq (Seq (Rep 1 Extract.digit) (Star Extract.digit)) tail)
                        s None kend
          end).
  rewrite sign_split_spec.
  destruct s as [| c s'].
  - reflexivity.
  - change (run (Lit "-") (String c s') None ?k)
      with (if Ascii.eqb "-" c then k s' None else None).
    cbv beta.
    destruct (Ascii.eqb "-" c) eqn:Hminus; cbn [snd].
    + rewrite (Hbody s'), (Hbody (String c s')).
      apply Ascii.eqb_eq in Hminus. subst c.
      cbn [Float64.span]. replace (Js.is_digit "-") with false by reflexivity.
      cbn [Js.nonempty andb].
      destruct (Float64.span Js.is_digit s') as [whole rest].
      destruct (Js.nonempty whole
                && match rest with
                   | EmptyString => true
                   | String c f =>
                       Ascii.eqb c "."
                       && Js.forall_chars Js.is_digit f
                       && ((String.length f =? 1)%nat
                           || (String.length f =? 2)%nat)
                   end); reflexivity.
    + rewrite (Hbody (String c s')).
      destruct (Float64.span Js.is_digit (String c s')) as [whole rest].
      destruct (Js.nonempty whole
                && match rest with
                   | EmptyString => true
                   | String c f =>
                       Ascii.eqb c "."
                       && Js.forall_chars Js.is_digit f
                       && ((String.length f =? 1)%nat
                           || (String.length f =? 2)%nat)
                   end); reflexivity.
Qed.

Lemma trim_without_space (s : string) :
  Js.forall_chars (fun c => negb (Js.is_space c)) s = true -> trim s = s.
Proof.
  intros Hs. unfold trim.
  assert (Hstart : trim_start s = s).
  { destruct s as [| c s']; [reflexivity |]. cbn in Hs |- *.
    apply andb_prop in Hs as [Hc _]. apply negb_true_iff in Hc.
    rewrite Hc. reflexivity. }
  rewrite Hstart. clear Hstart.
  induction s as [| c s' IH]; [reflexivity |].
  cbn in Hs. apply andb_prop in Hs as [Hc Hs']. apply negb_true_iff in Hc.
  cbn [trim_end]. rewrite (IH Hs'). rewrite Hc. destruct s'; reflexivity.
Qed.

Lemma digit_or_point_not_space (c : ascii) :
  Js.is_digit c || Ascii.eqb c "." = true -> negb (Js.is_space c) = true.
Proof.
  intros H. apply orb_prop in H as [H | H].
  - unfold Js.is_digit in H. unfold Js.is_space.
    apply andb_prop in H as [H1 H2].
    apply Nat.leb_le in H1. apply Nat.leb_le in H2.
    apply negb_true_iff.
    repeat (apply orb_false_intro); try apply andb_false_intro2;
      try apply Nat.leb_gt; try apply Nat.eqb_neq; lia.
  - apply Ascii.eqb_eq in H. subst c. reflexivity.
Qed.

(** The rendering of [n] cents: digits, a point and two digits. *)
Lemma render_cents_shape (n : Z) :
  (0 <= n)%Z ->
  exists (whole : string) (d1 d2 : ascii),
    render_cents n = whole ++ String "." (String d1 (String d2 EmptyString))
    /\ Js.forall_chars Js.is_digit whole = true
    /\ Js.nonempty whole = true
    /\ Js.is_digit d1 = true /\ Js.is_digit d2 = true
    /\ (100 * Js.digits_value whole
        + Js.digits_value (String d1 (String d2 EmptyString)) = n)%Z.
Proof.
  intros Hn.
  destruct (render_nat_spec (n / 100)%Z ltac:(apply Z.div_pos; lia))
    as (Hdigits & Hne & Hvalue).
  pose proof (Z.mod_pos_bound (n / 10) 10 ltac:(lia)) as H1.
  pose proof (Z.mod_pos_bound n 10 ltac:(lia)) as H2.
  destruct (digit_char_spec _ H1) as [Hd1 Hv1].
  destruct (digit_char_spec _ H2) as [Hd2 Hv2].
  exists (Js.render_nat (n / 100)), (Js.digit_char ((n / 10) mod 10)),
         (Js.digit_char (n mod 10)).
  split; [reflexivity |]. repeat (split; [assumption |]).
  rewrite Hvalue. unfold Js.digits_value. cbn [Js.digits_value_from].
  rewrite Hv1, Hv2.
  pose proof (Z.div_mod n 10 ltac:(lia)).
  pose proof (Z.div_mod (n / 10) 10 ltac:(lia)).
  replace (n / 100)%Z with (n / 10 / 10)%Z
    by (rewrite Z.div_div by lia; reflexivity).
  lia.
Qed.

Lemma sign_split_digits (whole rest : string) :
  Js.forall_chars Js.is_digit whole = true -> Js.nonempty whole = true ->
  sign_split (whole ++ rest) = (false, whole ++ rest).
Proof.
  intros Hd Hne. rewrite sign_split_spec.
  destruct whole as [| c w]; [discriminate |]. cbn [Js.forall_chars] in Hd.
  cbn [append]. apply andb_prop in Hd as [Hc _].
  rewrite (digit_not_minus c Hc). reflexivity.
Qed.

(** X13: [Amount] accepts a string exactly when its trimmed text is an
    optional minus sign, at least one digit and then nothing or a point
    with one or two digits, and the decimal it denotes is greater than
    zero; the value is that decimal. *)
Theorem Amount_of_string (s : string) :
  Amount (JStr s)
  = if is_amount_text (trim s) && (0 <? decimal_of (trim s))%Z
    then Some (decimal_of (trim s)) else None.
Proof.
  unfold Amount. rewrite test_whole_re_amount.
  destruct (is_amount_text (trim s)); reflexivity.
Qed.

(** X14: round trip: the two-place rendering of a positive number of
    cents is accepted by [Amount] and gives those cents back. *)
Theorem Amount_render_cents (n : Z) :
  (0 < n)%Z ->
  Amount (JStr (render_cents n)) = Some n.
Proof.
  intros Hn.
  destruct (render_cents_shape n ltac:(lia))
    as (whole & d1 & d2 & Hshape & Hdigits & Hne & Hd1 & Hd2 & Hvalue).
  assert (Htrim : trim (render_cents n) = render_cents n).
  { apply trim_without_space. rewrite Hshape, forall_chars_app.
    rewrite (forall_chars_weaken Js.is_digit _ whole
               (fun c Hc => digit_or_point_not_space c
                              ltac:(rewrite Hc; reflexivity)) Hdigits).
    cbn [Js.forall_chars andb].
    rewrite (digit_or_point_not_space d1 ltac:(rewrite Hd1; reflexivity)).
    rewrite (digit_or_point_not_space d2 ltac:(rewrite Hd2; reflexivity)).
    reflexivity. }
  assert (Hspan : Float64.span Js.is_digit (render_cents n)
                  = (whole, String "." (String d1 (String d2 EmptyString)))).
  { rewrite Hshape. apply span_until; [exact Hdigits | reflexivity]. }
  assert (Hsplit : sign_split (render_cents n) = (false, render_cents n)).
  { rewrite Hshape. apply sign_split_digits; assumption. }
  assert (Htext : is_amount_text (render_cents n) = true).
  { unfold is_amount_text. rewrite Hsplit. cbn [snd]. rewrite Hspan, Hne.
    cbn. rewrite Hd1, Hd2. reflexivity. }
  assert (Hdec : decimal_of (render_cents n) = n).
  { unfold decimal_of. rewrite Hsplit, Hspan. cbn [String.length]. exact Hvalue. }
  assert (Hpos : (0 <? n)%Z = true) by (apply Z.ltb_lt; exact Hn).
  unfold Amount.
  rewrite Htrim, test_whole_re_amount, Htext, Hdec, Hpos. reflexivity.
Qed.

Lemma Amount_render_cents_witness :
  Amount (JStr (render_cents 5050)) = Some 5050%Z.
Proof. apply (Amount_render_cents 5050). lia. Defined.

End SchemaFacts.

(* ================================================================== *)
(** * Further properties of the canonical amount *)
(* ================================================================== *)

Section CanonicalFurther.

#[local] Open Scope string_scope.
#[local] Open Scope Z_scope.

(** X15: only the digits, points and minus signs of the amount string
    count: whatever else it holds (a currency sign, separators, spaces,
    letters), a string that [replace(/[^0-9.-]/g, ...)] leaves as the
    two-place rendering of [n] cents, below 2^51, gives [n]. *)
Theorem canonicalizeAmount_decorated (s : string) (n : Z) :
  0 <= n < 2 ^ 51 ->
  Float64.strip s = render_cents n ->
  canonicalizeAmount (Some s) = Some (Float64.Int n).
Proof.
  intros Hn Hs.
  destruct (Number_render_cents n ltac:(lia)) as (Hne & _ & Hnumber).
  assert (Hnonempty : Js.nonempty s = true).
  { destruct s; [| reflexivity].
    change (Float64.strip EmptyString) with EmptyString in Hs.
    rewrite <- Hs in Hne. discriminate. }
  unfold canonicalizeAmount. rewrite Hnonempty, Hs, Hnumber.
  destruct (Z.eq_dec n 0) as [-> | Hnz]; [vm_compute; reflexivity |].
  destruct (of_decimal_cents n ltac:(lia)) as (Y & a & Hparsed & Ha & HY & HA).
  rewrite Hparsed. cbn [Float64.isFinite].
  rewrite (mul_round_cents n Y a); [reflexivity | lia | assumption ..].
Qed.

Lemma canonicalizeAmount_decorated_witness :
  canonicalizeAmount (Some "USD $1,234.56") = Some (Float64.Int 123456).
Proof.
  apply (canonicalizeAmount_decorated "USD $1,234.56" 123456);
    [lia | reflexivity].
Defined.

End CanonicalFurther.

(* ================================================================== *)
(** * Further properties of the extractors *)
(* ================================================================== *)

Section ExtractFurther.

Import Regex Extract Text.
#[local] Open Scope string_scope.

Lemma length_app (a b : string) :
  String.length (a ++ b) = (String.length a + String.length b)%nat.
Proof. induction a as [| c a IH]; cbn; [reflexivity | rewrite IH; reflexivity]. Qed.

Lemma substring_prefix (a b : string) :
  substring 0 (String.length a) (a ++ b) = a.
Proof.
  induction a as [| c a IH]; cbn.
  - destruct b; reflexivity.
  - rewrite IH. reflexivity.
Qed.

Lemma consumed_app (a b : string) : consumed (a ++ b) b = a.
Proof.
  unfold consumed. rewrite length_app.
  replace (String.length a + String.length b - String.length b)%nat
    with (String.length a) by lia.
  apply substring_prefix.
Qed.

Lemma app_assoc_string (a b c : string) : (a ++ b) ++ c = a ++ (b ++ c).
Proof. induction a as [| x a IH]; cbn; [reflexivity | rewrite IH; reflexivity]. Qed.

Lemma span_spec (p : ascii -> bool) (s : string) :
  s = fst (Float64.span p s) ++ snd (Float64.span p s)
  /\ Js.forall_chars p (fst (Float64.span p s)) = true.
Proof.
  induction s as [| c s IH]; cbn [Float64.span]; [split; reflexivity |].
  destruct (p c) eqn:Hc; [| split; reflexivity].
  destruct (Float64.span p s) as [a b]. cbn [fst snd] in *.
  destruct IH as [IH1 IH2]. split.
  - rewrite IH1 at 1. reflexivity.
  - cbn [Js.forall_chars]. rewrite Hc, IH2. reflexivity.
Qed.

(** The repetition [\d{n}] takes exactly [n] digits where they start. *)
Lemma run_digits_takes (n : nat) :
  forall s : string,
    Js.starts_with_digits n s = true ->
    exists ds rest,
      s = ds ++ rest /\ String.length ds = n
      /\ Js.forall_chars Js.is_digit ds = true
      /\ forall (A : Type) (cap : option string)
                (k : string -> option string -> option A),
           run (Rep n digit) s cap k = k rest cap.
Proof.
  induction n as [| n IH]; intros s Hs.
  - exists EmptyString, s. repeat split.
  - destruct s as [| c s']; [discriminate |].
    cbn [Js.starts_with_digits] in Hs. apply andb_prop in Hs as [Hc Hs'].
    destruct (IH s' Hs') as (ds & rest & -> & Hlen & Hdigits & Hrun).
    exists (String c ds), rest. split; [reflexivity |].
    split; [cbn; rewrite Hlen; reflexivity |].
    split; [cbn; rewrite Hc, Hdigits; reflexivity |].
    intros A cap k. cbn [Rep run digit]. rewrite Hc.
    apply (Hrun A cap k).
Qed.

(** A match of [/(\d{9})/] captures nine digits. *)
Lemma match_at_routing (s rest : string) (cap : option string) :
  match_at re_routing s = Some (rest, cap) ->
  exists g, cap = Some g /\ String.length g = 9%nat
            /\ Js.forall_chars Js.is_digit g = true.
Proof.
  unfold match_at, re_routing. cbn [run].
  destruct (Js.starts_with_digits 9 s) eqn:Hs.
  - destruct (run_digits_takes 9 s Hs) as (ds & r & -> & Hlen & Hdigits & Hrun).
    rewrite Hrun. intros H. injection H as <- <-.
    exists ds. rewrite consumed_app. repeat split; assumption.
  - rewrite run_digits_fails by exact Hs. discriminate.
Qed.

Lemma match1_routing (s g : string) :
  match1 re_routing s = Some g ->
  String.length g = 9%nat /\ Js.forall_chars Js.is_digit g = true.
Proof.
  unfold match1.
  destruct (search re_routing s) as [[rest cap] |] eqn:Hsearch; [| discriminate].
  assert (H : exists g', cap = Some g' /\ String.length g' = 9%nat
                         /\ Js.forall_chars Js.is_digit g' = true).
  { clear g. induction s as [| c s' IH]; cbn [search] in Hsearch.
    - destruct (match_at re_routing "") as [m |] eqn:Hm; [| discriminate].
      injection Hsearch as ->. exact (match_at_routing _ _ _ Hm).
    - destruct (match_at re_routing (String c s')) as [m |] eqn:Hm.
      + injection Hsearch as ->. exact (match_at_routing _ _ _ Hm).
      + exact (IH Hsearch). }
  destruct H as (g' & -> & Hlen & Hdigits).
  intros Hg. injection Hg as <-. split; assumption.
Qed.

(** A match of [/(\d{4,})/] captures at least four digits. *)
Lemma match_at_digitGroup (s rest : string) (cap : option string) :
  match_at re_digitGroup s = Some (rest, cap) ->
  exists g, cap = Some g /\ (4 <= String.length g)%nat
            /\ Js.forall_chars Js.is_digit g = true.
Proof.
  unfold match_at, re_digitGroup, AtLeast.
  change (run (Group (Seq (Rep 4 digit) (Star digit))) s None
              (fun rest0 cap0 => Some (rest0, cap0)))
    with (run (Rep 4 digit) s None
              (fun s1 cap1 =>
                 run (Star digit) s1 cap1
                     (fun s2 _ => Some (s2, Some (consumed s s2))))).
  destruct (Js.starts_with_digits 4 s) eqn:Hs.
  - destruct (run_digits_takes 4 s Hs) as (ds & r & -> & Hlen & Hdigits & Hrun).
    rewrite Hrun.
    rewrite (run_star_digit _ (fun s2 _ => Some (s2, Some (consumed (ds ++ r) s2))))
      by discriminate.
    destruct (span_spec Js.is_digit r) as [Hr Hmore].
    intros H. injection H as <- <-.
    exists (ds ++ fst (Float64.span Js.is_digit r)).
    split; [| split].
    + rewrite Hr at 1. rewrite <- app_assoc_string, consumed_app. reflexivity.
    + rewrite length_app. lia.
    + rewrite forall_chars_app, Hdigits, Hmore. reflexivity.
  - rewrite run_digits_fails by exact Hs. discriminate.
Qed.

Lemma matchAll1_digitGroup (fuel : nat) :
  forall s g : string,
    In g (matchAll1_fuel fuel re_digitGroup s) ->
    (4 <= String.length g)%nat /\ Js.forall_chars Js.is_digit g = true.
Proof.
  induction fuel as [| fuel IH]; intros s g Hin; [contradiction |].
  cbn [matchAll1_fuel] in Hin.
  destruct (match_at re_digitGroup s) as [[rest cap] |] eqn:Hm.
  - destruct (match_at_digitGroup _ _ _ Hm) as (g0 & -> & Hlen & Hdigits).
    destruct (String.length rest <? String.length s)%nat.
    + destruct Hin as [<- | Hin]; [split; assumption | exact (IH _ _ Hin)].
    + destruct s as [| c s'].
      * destruct Hin as [<- | []]. split; assumption.
      * destruct Hin as [<- | Hin]; [split; assumption | exact (IH _ _ Hin)].
  - destruct s as [| c s']; [contradiction | exact (IH _ _ Hin)].
Qed.

(** X16: an identity that [extractCheckId] reads from the text, the
    structured fields not giving all three components, is made of a
    routing number of exactly nine digits and of two runs of at least four
    digits, neither of them equal to the routing number. *)
Theorem extractCheckId_from_text (o : JSON) (id : string) :
  present (routingField o) && present (accountField o)
    && present (checkField o) = false ->
  extractCheckId o = Some id ->
  exists r a c,
    id = underscore_join r a c
    /\ String.length r = 9%nat /\ Js.forall_chars Js.is_digit r = true
    /\ (4 <= String.length a)%nat /\ Js.forall_chars Js.is_digit a = true
    /\ a <> r
    /\ (4 <= String.length c)%nat /\ Js.forall_chars Js.is_digit c = true
    /\ c <> r.
Proof.
  intros Hfields. unfold extractCheckId. rewrite Hfields.
  destruct (match1 re_routing (flatten o)) as [r |] eqn:Hr; [| discriminate].
  destruct (match1_routing _ _ Hr) as [Hlen Hdigits].
  destruct (filter _ _) as [| a [| c l]] eqn:Hfilter; try discriminate.
  intros H. injection H as <-.
  assert (Hin : forall g, In g (a :: c :: l) ->
                          (4 <= String.length g)%nat
                          /\ Js.forall_chars Js.is_digit g = true /\ g <> r).
  { intros g Hg. rewrite <- Hfilter in Hg. apply filter_In in Hg as [Hg Hneq].
    destruct (matchAll1_digitGroup _ _ _ Hg) as [H1 H2].
    split; [exact H1 |]. split; [exact H2 |].
    apply negb_true_iff in Hneq. apply String.eqb_neq. exact Hneq. }
  destruct (Hin a ltac:(left; reflexivity)) as (Ha1 & Ha2 & Ha3).
  destruct (Hin c ltac:(right; left; reflexivity)) as (Hc1 & Hc2 & Hc3).
  exists r, a, c. repeat split; assumption.
Qed.

Lemma extractCheckId_from_text_witness :
  exists r a c,
    "021000021_12345678_7890" = underscore_join r a c
    /\ String.length r = 9%nat /\ Js.forall_chars Js.is_digit r = true
    /\ (4 <= String.length a)%nat /\ Js.forall_chars Js.is_digit a = true
    /\ a <> r
    /\ (4 <= String.length c)%nat /\ Js.forall_chars Js.is_digit c = true
    /\ c <> r.
Proof.
  exact (extractCheckId_from_text
           (JObj [("text", JStr "Pay to the order of 021000021 12345678 7890")])
           "021000021_12345678_7890" eq_refl eq_refl).
Defined.

Lemma flatten_text (t : string) : flatten (JObj [("text", JStr t)]) = t.
Proof. reflexivity. Qed.

(** X17: an empty [amount] field hides the other amount fields: the
    amount is then read from the text alone, whatever [amount_numeric],
    [legal_amount] and [written_amount] hold. *)
Theorem extractAmount_empty_amount (o : JSON) :
  prop o "amount" = Some (JStr "") ->
  extractAmount o = extractAmount (JObj [("text", JStr (flatten o))]).
Proof.
  intros Hamount. unfold extractAmount at 1. rewrite Hamount.
  cbn [toStr coalesce present Js.nonempty].
  unfold extractAmount. rewrite flatten_text. reflexivity.
Qed.

Lemma extractAmount_empty_amount_witness :
  extractAmount (JObj [("amount", JStr ""); ("amount_numeric", JNum "12.5")])
  = extractAmount
      (JObj [("text",
              JStr (flatten (JObj [("amount", JStr "");
                                   ("amount_numeric", JNum "12.5")])))]).
Proof.
  apply (extractAmount_empty_amount
           (JObj [("amount", JStr ""); ("amount_numeric", JNum "12.5")])).
  reflexivity.
Defined.

Lemma lower_char_idempotent (c : ascii) :
  Js.lower_char (Js.lower_char c) = Js.lower_char c.
Proof. destruct c as [[] [] [] [] [] [] [] []]; reflexivity. Qed.

Lemma prefix_ci_toLowerCase (w s : string) :
  prefix_ci w (Js.toLowerCase s) = prefix_ci w s.
Proof.
  revert s. induction w as [| c w IH]; intros s; [reflexivity |].
  destruct s as [| d s']; [reflexivity |].
  cbn [Js.toLowerCase Js.map_chars prefix_ci].
  rewrite lower_char_idempotent. fold (Js.toLowerCase s'). rewrite IH.
  reflexivity.
Qed.

Lemma contains_ci_toLowerCase (w s : string) :
  contains_ci w (Js.toLowerCase s) = contains_ci w s.
Proof.
  induction s as [| d s' IH].
  - cbn [Js.toLowerCase Js.map_chars contains_ci]. reflexivity.
  - change (Js.toLowerCase (String d s'))
      with (String (Js.lower_char d) (Js.toLowerCase s')).
    cbn [contains_ci]. rewrite IH.
    change (String (Js.lower_char d) (Js.toLowerCase s'))
      with (Js.toLowerCase (String d s')).
    rewrite prefix_ci_toLowerCase. reflexivity.
Qed.

Lemma prefix_ci_app (w w' s : string) :
  prefix_ci (w ++ w') s = true -> prefix_ci w s = true.
Proof.
  revert s. induction w as [| c w IH]; intros s H; [reflexivity |].
  destruct s as [| d s']; [discriminate |].
  cbn [append prefix_ci] in H |- *. apply andb_prop in H as [H1 H2].
  rewrite H1, (IH _ H2). reflexivity.
Qed.

Lemma contains_ci_app (w w' s : string) :
  contains_ci (w ++ w') s = true -> contains_ci w s = true.
Proof.
  induction s as [| d s' IH]; cbn [contains_ci]; intros H.
  - rewrite orb_false_r in H |- *. exact (prefix_ci_app _ _ _ H).
  - apply orb_prop in H as [H | H].
    + rewrite (prefix_ci_app _ _ _ H). reflexivity.
    + rewrite (IH H). apply orb_true_r.
Qed.

(** A word under the [i] flag matches where it starts the text without
    regard to case. *)
Lemma run_word_ci (A : Type) (k : string -> option string -> option A)
      (w : string) :
  (forall s cap, k s cap <> None) ->
  forall s cap,
    match run (Word LitI w) s cap k with Some _ => true | None => false end
    = prefix_ci w s.
Proof.
  intros Hk. induction w as [| c w IH]; intros s cap.
  - cbn [Word run prefix_ci]. destruct (k s cap) eqn:H; [reflexivity |].
    destruct (Hk _ _ H).
  - destruct s as [| d s']; [reflexivity |].
    cbn [Word run LitI prefix_ci].
    destruct (Ascii.eqb (Js.lower_char d) (Js.lower_char c)); [| reflexivity].
    apply IH.
Qed.

Lemma match_at_endorsement (s : string) :
  match match_at re_endorsement s with Some _ => true | None => false end
  = prefix_ci "endorse" s || prefix_ci "endorsement" s
    || prefix_ci "signed by" s || prefix_ci "signature" s.
Proof.
  unfold match_at, re_endorsement.
  set (k := fun (rest : string) (cap : option string) => Some (rest, cap)).
  assert (Hk : forall s cap, k s cap <> None) by discriminate.
  rewrite <- (run_word_ci _ k "endorse" Hk s None).
  rewrite <- (run_word_ci _ k "endorsement" Hk s None).
  rewrite <- (run_word_ci _ k "signed by" Hk s None).
  rewrite <- (run_word_ci _ k "signature" Hk s None).
  change (run (Alt (Word LitI "endorse")
                   (Alt (Word LitI "endorsement")
                        (Alt (Word LitI "signed by") (Word LitI "signature"))))
              s None k)
    with (match run (Word LitI "endorse") s None k with
          | Some a => Some a
          | None =>
              match run (Word LitI "endorsement") s None k with
              | Some a => Some a
              | None =>
                  match run (Word LitI "signed by") s None k with
                  | Some a => Some a
                  | None => run (Word LitI "signature") s None k
                  end
              end
          end).
  destruct (run (Word LitI "endorse") s None k); [reflexivity |].
  destruct (run (Word LitI "endorsement") s None k); [reflexivity |].
  destruct (run (Word LitI "signed by") s None k); reflexivity.
Qed.

Lemma test_endorsement (s : string) :
  test re_endorsement s
  = contains_ci "endorse" s || contains_ci "signed by" s
    || contains_ci "signature" s.
Proof.
  assert (H : test re_endorsement s
              = contains_ci "endorse" s || contains_ci "endorsement" s
                || contains_ci "signed by" s || contains_ci "signature" s).
  { unfold test. induction s as [| d s' IH].
    - reflexivity.
    - cbn [search contains_ci].
      pose proof (match_at_endorsement (String d s')) as Hm.
      destruct (match_at re_endorsement (String d s')).
      + destruct (prefix_ci "endorse" (String d s')),
                 (prefix_ci "endorsement" (String d s')),
                 (prefix_ci "signed by" (String d s')),
                 (prefix_ci "signature" (String d s'));
          try discriminate; cbn [orb]; rewrite ?orb_true_r; reflexivity.
      + rewrite IH.
        destruct (prefix_ci "endorse" (String d s')),
                 (prefix_ci "endorsement" (String d s')),
                 (prefix_ci "signed by" (String d s')),
                 (prefix_ci "signature" (String d s'));
          try discriminate; reflexivity. }
  rewrite H.
  destruct (contains_ci "endorsement" s) eqn:Hlong.
  - rewrite (contains_ci_app "endorse" "ment" s Hlong). reflexivity.
  - rewrite orb_false_r. reflexivity.
Qed.

(** X18: [detectEndorsement] answers true exactly when [endorsement] or
    [signature_present] is [true], [endorsement_image] is truthy, or the
    text holds endorse, signed by or signature, whatever the case of its
    letters.  The alternative endorsement of the pattern adds nothing,
    and a text that denies an endorsement in these words counts as one. *)
Theorem detectEndorsement_keywords (o : JSON) :
  detectEndorsement o
  = is_true (prop o "endorsement")
    || is_true (prop o "signature_present")
    || truthy (prop o "endorsement_image")
    || contains_ci "endorse" (flatten o)
    || contains_ci "signed by" (flatten o)
    || contains_ci "signature" (flatten o).
Proof.
  unfold detectEndorsement.
  rewrite test_endorsement, !contains_ci_toLowerCase.
  destruct (is_true (prop o "endorsement")); [reflexivity |].
  destruct (is_true (prop o "signature_present")); [reflexivity |].
  destruct (truthy (prop o "endorsement_image")); [reflexivity |].
  cbn [orb].
  destruct (contains_ci "endorse" (flatten o)),
           (contains_ci "signed by" (flatten o)),
           (contains_ci "signature" (flatten o)); reflexivity.
Qed.

End ExtractFurther.

(* ================================================================== *)
(** * The amount read from the text *)
(* ================================================================== *)

Section AmountFromText.

Import Regex Extract Text.
#[local] Open Scope string_scope.

(** Soundness of the matcher: a successful run consumed a prefix of the
    text, made of characters of the pattern's classes, and continued on
    the rest. *)
Lemma run_sound (A : Type) (P : ascii -> bool) (r : regex) :
  within P r ->
  forall (s : string) (cap : option string)
         (k : string -> option string -> option A) (a : A),
    run r s cap k = Some a ->
    exists m rest cap',
      s = m ++ rest /\ Js.forall_chars P m = true /\ k rest cap' = Some a.
Proof.
  induction r as [cls | | r1 IH1 r2 IH2 | r1 IH1 r2 IH2 | r1 IH1 | r1 IH1];
    intros Hr s cap k a Hrun.
  - destruct s as [| c s']; [discriminate |]. cbn [run] in Hrun.
    destruct (cls c) eqn:Hc; [| discriminate].
    exists (String c EmptyString), s', cap. split; [reflexivity |].
    split; [cbn; rewrite (Hr c Hc); reflexivity | exact Hrun].
  - exists EmptyString, s, cap. repeat split. exact Hrun.
  - destruct Hr as [Hr1 Hr2]. cbn [run] in Hrun.
    destruct (IH1 Hr1 _ _ _ _ Hrun) as (m1 & rest1 & cap1 & -> & Hm1 & Hrun2).
    destruct (IH2 Hr2 _ _ _ _ Hrun2) as (m2 & rest & cap2 & -> & Hm2 & Hk).
    exists (m1 ++ m2), rest, cap2. split; [| split].
    + symmetry. apply app_assoc_string.
    + rewrite forall_chars_app, Hm1, Hm2. reflexivity.
    + exact Hk.
  - destruct Hr as [Hr1 Hr2]. cbn [run] in Hrun.
    destruct (run r1 s cap k) eqn:H1.
    + injection Hrun as ->. exact (IH1 Hr1 _ _ _ _ H1).
    + exact (IH2 Hr2 _ _ _ _ Hrun).
  - cbn [within] in Hr. cbn [run] in Hrun.
    remember (String.length s) as fuel eqn:Hf. clear Hf.
    revert s cap Hrun. induction fuel as [| fuel IHf]; intros s cap Hrun.
    + exists EmptyString, s, cap. repeat split. exact Hrun.
    + destruct (run r1 s cap
                    (fun s1 cap1 =>
                       if (String.length s1 <? String.length s)%nat
                       then _ else None)) eqn:H1 in Hrun.
      * injection Hrun as ->.
        destruct (IH1 Hr _ _ _ _ H1) as (m1 & rest1 & cap1 & -> & Hm1 & Hloop).
        destruct (String.length rest1 <? String.length (m1 ++ rest1))%nat;
          [| discriminate].
        destruct (IHf _ _ Hloop) as (m2 & rest & cap2 & -> & Hm2 & Hk).
        exists (m1 ++ m2), rest, cap2. split; [| split].
        -- symmetry. apply app_assoc_string.
        -- rewrite forall_chars_app, Hm1, Hm2. reflexivity.
        -- exact Hk.
      * exists EmptyString, s, cap. repeat split. exact Hrun.
  - cbn [within] in Hr. cbn [run] in Hrun.
    destruct (IH1 Hr _ _ _ _ Hrun) as (m & rest & cap' & -> & Hm & Hk).
    exists m, rest, (Some (consumed (m ++ rest) rest)). repeat split; assumption.
Qed.

(** What a group captures is made of characters of its classes. *)
Lemma run_group_sound (A : Type) (P : ascii -> bool) (r : regex)
      (s : string) (cap : option string)
      (k : string -> option string -> option A) (a : A) :
  within P r ->
  run (Group r) s cap k = Some a ->
  exists m rest,
    s = m ++ rest /\ Js.forall_chars P m = true /\ k rest (Some m) = Some a.
Proof.
  intros Hr Hrun. cbn [run] in Hrun.
  destruct (run_sound _ P r Hr _ _ _ _ Hrun) as (m & rest & cap' & -> & Hm & Hk).
  rewrite consumed_app in Hk. exists m, rest. repeat split; assumption.
Qed.

Lemma within_any (r : regex) : within (fun _ => true) r.
Proof. induction r; cbn; auto. Qed.

Lemma within_Rep (P : ascii -> bool) (r : regex) (n : nat) :
  within P r -> within P (Rep n r).
Proof. intros Hr. induction n; cbn; auto. Qed.

Lemma within_UpTo (P : ascii -> bool) (r : regex) (n : nat) :
  within P r -> within P (UpTo n r).
Proof. intros Hr. induction n; cbn; auto. Qed.

Lemma within_money : within is_money_char (Seq re_grouped (Seq sep (Rep 2 digit))).
Proof.
  assert (Hdigit : within is_money_char digit).
  { intros c Hc. unfold is_money_char. rewrite Hc. reflexivity. }
  assert (Hsep : within is_money_char sep).
  { intros c Hc. unfold is_money_char.
    apply orb_prop in Hc as [Hc | Hc]; rewrite Hc, ?orb_true_r; reflexivity. }
  unfold re_grouped, Range. cbn [within]. repeat split;
    try apply within_Rep; try apply within_UpTo; assumption.
Qed.

Lemma search_found (r : regex) (s : string) (x : string * option string) :
  search r s = Some x -> exists s', match_at r s' = Some x.
Proof.
  induction s as [| c s' IH]; cbn [search]; intros H.
  - destruct (match_at r "") eqn:Hm; [| discriminate].
    injection H as ->. exists EmptyString. exact Hm.
  - destruct (match_at r (String c s')) eqn:Hm.
    + injection H as ->. exists (String c s'). exact Hm.
    + exact (IH H).
Qed.

Lemma match1_plainMoney (s g : string) :
  match1 re_plainMoney s = Some g -> Js.forall_chars is_money_char g = true.
Proof.
  unfold match1.
  destruct (search re_plainMoney s) as [[rest cap] |] eqn:Hsearch; [| discriminate].
  destruct (search_found _ _ _ Hsearch) as [s' Hm].
  unfold match_at, re_plainMoney in Hm.
  destruct (run_group_sound _ _ _ _ _ _ _ within_money Hm)
    as (m & rest' & _ & Hchars & Hk).
  injection Hk as <- <-. intros H. injection H as <-. exact Hchars.
Qed.

Lemma match1_moneyWithDollar (s g : string) :
  match1 re_moneyWithDollar s = Some g -> Js.forall_chars is_money_char g = true.
Proof.
  unfold match1.
  destruct (search re_moneyWithDollar s) as [[rest cap] |] eqn:Hsearch;
    [| discriminate].
  destruct (search_found _ _ _ Hsearch) as [s' Hm].
  unfold match_at, re_moneyWithDollar in Hm. cbn [run] in Hm.
  change (match
             run (Lit "$") s' None
                 (fun s1 cap1 => run (Star space) s1 cap1
                    (fun s2 cap2 =>
                       run (Group (Seq re_grouped (Seq sep (Rep 2 digit))))
                           s2 cap2 (fun rest0 cap0 => Some (rest0, cap0))))
           with
           | Some a => Some a
           | None =>
               run (Seq (Word LitI "USD") (Opt space)) s' None
                   (fun s1 cap1 => run (Star space) s1 cap1
                      (fun s2 cap2 =>
                         run (Group (Seq re_grouped (Seq sep (Rep 2 digit))))
                             s2 cap2 (fun rest0 cap0 => Some (rest0, cap0))))
           end = Some (rest, cap)) in Hm.
  assert (Hgroup : exists s2 cap2,
             run (Group (Seq re_grouped (Seq sep (Rep 2 digit)))) s2 cap2
                 (fun rest0 cap0 => Some (rest0, cap0)) = Some (rest, cap)).
  { destruct (run (Lit "$") s' None _) eqn:H1 in Hm.
    - injection Hm as ->.
      destruct (run_sound _ _ _ (within_any (Lit "$")) _ _ _ _ H1)
        as (_ & s1 & cap1 & _ & _ & H2).
      destruct (run_sound _ _ _ (within_any (Star space)) _ _ _ _ H2)
        as (_ & s2 & cap2 & _ & _ & H3).
      exists s2, cap2. exact H3.
    - destruct (run_sound _ _ _ (within_any (Seq (Word LitI "USD") (Opt space)))
                          _ _ _ _ Hm)
        as (_ & s1 & cap1 & _ & _ & H2).
      destruct (run_sound _ _ _ (within_any (Star space)) _ _ _ _ H2)
        as (_ & s2 & cap2 & _ & _ & H3).
      exists s2, cap2. exact H3. }
  destruct Hgroup as (s2 & cap2 & Hg).
  destruct (run_group_sound _ _ _ _ _ _ _ within_money Hg)
    as (m & rest' & _ & Hchars & Hk).
  injection Hk as <- <-. intros H. injection H as <-. exact Hchars.
Qed.

Lemma commas_to_dots_decimal (m : string) :
  Js.forall_chars is_money_char m = true ->
  Js.forall_chars is_decimal_char (commas_to_dots m) = true.
Proof.
  induction m as [| c m IH]; [reflexivity |].
  cbn [Js.forall_chars]. intros H. apply andb_prop in H as [Hc Hm].
  unfold commas_to_dots, Js.replace_class in *. cbn [Js.map_chars Js.forall_chars].
  rewrite (IH Hm), andb_true_r.
  destruct (Ascii.eqb c ",") eqn:Hcomma; [reflexivity |].
  unfold is_money_char in Hc. rewrite Hcomma, orb_false_r in Hc. exact Hc.
Qed.

Lemma split_ws_from_chars (Q : ascii -> bool) (s : string) :
  forall (cur : string) (in_gap : bool) (g : string),
    Js.forall_chars Q cur = true ->
    Js.forall_chars (fun c => Js.is_space c || Q c) s = true ->
    In g (Js.split_ws_from cur in_gap s) ->
    Js.forall_chars Q g = true.
Proof.
  induction s as [| c s IH]; intros cur in_gap g Hcur Hs Hin.
  - destruct Hin as [<- | []]. exact Hcur.
  - cbn [Js.forall_chars] in Hs. apply andb_prop in Hs as [Hc Hs].
    cbn [Js.split_ws_from] in Hin. destruct (Js.is_space c).
    + destruct in_gap.
      * exact (IH _ _ _ Hcur Hs Hin).
      * destruct Hin as [<- | Hin]; [exact Hcur |].
        exact (IH EmptyString true g eq_refl Hs Hin).
    + cbn [orb] in Hc. refine (IH _ _ _ _ Hs Hin).
      rewrite forall_chars_app, Hcur. cbn. rewrite Hc. reflexivity.
Qed.

Lemma blank_non_digits (t : string) :
  Js.forall_chars (fun c => Js.is_space c || Js.is_digit c)
    (Js.replace_class (fun c => negb (Js.is_digit c)) " " t) = true.
Proof.
  induction t as [| c t IH]; [reflexivity |].
  unfold Js.replace_class in *. cbn [Js.map_chars Js.forall_chars].
  rewrite IH, andb_true_r.
  destruct (Js.is_digit c) eqn:Hc; cbn [negb]; [rewrite Hc; apply orb_true_r |].
  reflexivity.
Qed.

Lemma sort_insert_In (cmp : string -> string -> Z) (x y : string) (l : list string) :
  In x (sort_insert cmp y l) -> x = y \/ In x l.
Proof.
  induction l as [| z l IH]; cbn [sort_insert]; intros H.
  - destruct H as [<- | []]. left. reflexivity.
  - destruct (cmp y z >? 0)%Z.
    + destruct H as [<- | H]; [right; left; reflexivity |].
      destruct (IH H) as [-> | Hl]; [left; reflexivity | right; right; exact Hl].
    + destruct H as [<- | H]; [left; reflexivity | right; exact H].
Qed.

Lemma sort_In (cmp : string -> string -> Z) (x : string) (l : list string) :
  In x (sort cmp l) -> In x l.
Proof.
  induction l as [| y l IH]; cbn [sort]; intros H; [exact H |].
  destruct (sort_insert_In _ _ _ _ H) as [-> | Hl];
    [left; reflexivity | right; exact (IH Hl)].
Qed.

Lemma substring_chars (P : ascii -> bool) (s : string) :
  forall n m : nat,
    Js.forall_chars P s = true -> Js.forall_chars P (substring n m s) = true.
Proof.
  induction s as [| c s IH]; intros n m Hs.
  - destruct n, m; reflexivity.
  - cbn [Js.forall_chars] in Hs. apply andb_prop in Hs as [Hc Hs].
    destruct n as [| n]; [destruct m as [| m] |]; cbn [substring].
    + reflexivity.
    + cbn [Js.forall_chars]. rewrite Hc, (IH 0%nat m Hs). reflexivity.
    + exact (IH n m Hs).
Qed.

Lemma digits_value_from_nonneg (s : string) :
  forall acc : Z, (0 <= acc)%Z -> (0 <= Js.digits_value_from acc s)%Z.
Proof.
  induction s as [| c s IH]; intros acc Hacc; cbn [Js.digits_value_from];
    [exact Hacc | apply IH; lia].
Qed.

Lemma digit_is_decimal_char (c : ascii) :
  Js.is_digit c = true -> is_decimal_char c = true.
Proof. intros Hc. unfold is_decimal_char. rewrite Hc. reflexivity. Qed.

(** The last resort of [extractAmount] renders digits, a point and the
    last two digits of the run. *)
Lemma dollars_and_cents_decimal (g : string) :
  Js.forall_chars Js.is_digit g = true ->
  Js.forall_chars is_decimal_char (dollars_and_cents g) = true.
Proof.
  intros Hg. unfold dollars_and_cents.
  set (dollars := if Js.nonempty (Js.slice_drop_last 2 g)
                  then Js.slice_drop_last 2 g else "0").
  destruct (render_nat_spec (Js.digits_value dollars)
              (digits_value_from_nonneg dollars 0%Z ltac:(lia)))
    as (Hdigits & _ & _).
  rewrite !forall_chars_app.
  rewrite (forall_chars_weaken _ _ _ digit_is_decimal_char Hdigits).
  unfold Js.slice_last.
  rewrite (forall_chars_weaken _ _ _ digit_is_decimal_char
             (substring_chars _ _ _ _ Hg)).
  reflexivity.
Qed.

(** X19: an amount that [extractAmount] reads from the text, no
    structured amount field being present, is made of digits and points
    only, whichever of the three text rules found it: the commas of a
    money text have become points, and the last resort renders digits, a
    point and two digits.  The [replace(/[^0-9.-]/g, ...)] of the handler
    therefore leaves such an amount as it is. *)
Theorem extractAmount_from_text (o : JSON) (m : string) :
  present
    (coalesce (toStr (prop o "amount"))
       (coalesce (toStr (prop o "amount_numeric"))
          (coalesce (toStr (prop o "legal_amount"))
                    (toStr (prop o "written_amount"))))) = false ->
  extractAmount o = Some m ->
  Js.forall_chars is_decimal_char m = true /\ Float64.strip m = m.
Proof.
  intros Hstructured Hm.
  assert (Hchars : Js.forall_chars is_decimal_char m = true).
  { unfold extractAmount in Hm. rewrite Hstructured in Hm.
    destruct (match1 re_moneyWithDollar (flatten o)) as [g |] eqn:Hdollar.
    { injection Hm as <-.
      exact (commas_to_dots_decimal _ (match1_moneyWithDollar _ _ Hdollar)). }
    destruct (match1 re_plainMoney (flatten o)) as [g |] eqn:Hplain.
    { injection Hm as <-.
      exact (commas_to_dots_decimal _ (match1_plainMoney _ _ Hplain)). }
    set (groups := filter Js.nonempty _) in Hm.
    set (candidates := filter _ groups) in Hm.
    assert (Hcand : forall g, In g candidates ->
                              Js.forall_chars Js.is_digit g = true).
    { intros g Hg. apply filter_In in Hg as [Hg _].
      apply filter_In in Hg as [Hg _].
      unfold Js.split_ws in Hg.
      exact (split_ws_from_chars Js.is_digit _ EmptyString false g eq_refl
               (blank_non_digits (flatten o)) Hg). }
    destruct candidates as [| g1 [| g2 l]] eqn:Hc; [discriminate | |].
    - injection Hm as <-. apply dollars_and_cents_decimal.
      apply Hcand. left. reflexivity.
    - destruct (sort _ (g1 :: g2 :: l)) as [| best rest] eqn:Hsort;
        [discriminate |].
      injection Hm as <-. apply dollars_and_cents_decimal.
      apply Hcand. apply (sort_In (fun a b => (zlength b - zlength a)%Z)).
      rewrite Hsort. left. reflexivity. }
  split; [exact Hchars |].
  apply filter_chars_all.
  apply (forall_chars_weaken is_decimal_char); [| exact Hchars].
  intros c Hc. unfold is_decimal_char in Hc. rewrite Hc. reflexivity.
Qed.

Lemma extractAmount_from_text_witness :
  Js.forall_chars is_decimal_char "1.234.56" = true
  /\ Float64.strip "1.234.56" = "1.234.56".
Proof.
  exact (extractAmount_from_text
           (JObj [("text", JStr "Pay $1,234.56 to the bearer")])
           "1.234.56" eq_refl eq_refl).
Defined.

End AmountFromText.
